(** * Free-text transaction extraction and validation

    A shallow embedding of [transaction_processor.py]: the field extractor
    ([TransactionParser]), the rule validator ([TransactionValidator]) and
    the per-item / batch pipeline ([TransactionProcessor]), with the
    theorems that relate the program to its specification.

    Conventions of the embedding.
    - A Python [str] is a list of Unicode code points ([str] below);
      literals are written in UTF-8 and decoded by [u].
    - A Python exception is a value of [exn]; code that can raise returns
      [result].
    - A Python [float] is [pyfloat]: an exact rational for a finite value,
      plus the infinities and NaN.  [binary64] is the round-to-nearest-even
      conversion that [float()] applies to a decimal literal.
    - The Unicode character database (which code points are decimal
      digits, the case mappings, the case-insensitive matching of [re]) is
      the interface [Unicode]; [json.loads] and the part of [float()] on
      free-form strings are the interface [Library]; the text-generation
      service is a field of the processor.  Theorems hold for every
      implementation of these interfaces; examples are evaluated on
      [basic_unicode] and [no_library].
    - Wall-clock reads ([datetime.now()]) and logging are left out: no
      result field other than [timestamp] depends on them. *)

From Stdlib Require Import String Ascii.
From Stdlib Require Import List NArith ZArith QArith Bool Lia.
Import ListNotations.

Set Warnings "-register-all".
Close Scope Q_scope.

(** ** Text *)

Definition cp := N.
Definition str := list cp.
Bind Scope N_scope with cp.

(** UTF-8 decoding of a source literal: [pending] holds the bits read so
    far of a multi-byte sequence and [need] the continuation bytes still
    expected. *)
Fixpoint utf8_go (pending : N) (need : nat) (bs : list N) : str :=
  match bs with
  | [] => []
  | b :: bs' =>
      match need with
      | S n =>
          let acc := (pending * 64 + b mod 64)%N in
          match n with
          | O => acc :: utf8_go 0 0 bs'
          | S _ => utf8_go acc n bs'
          end
      | O =>
          if (b <? 128)%N then b :: utf8_go 0 0 bs'
          else if (b <? 224)%N then utf8_go (b mod 32) 1 bs'
          else if (b <? 240)%N then utf8_go (b mod 16) 2 bs'
          else utf8_go (b mod 8) 3 bs'
      end
  end.

Definition u (s : string) : str :=
  utf8_go 0 0 (map N_of_ascii (list_ascii_of_string s)).

Definition in_range (lo hi c : cp) : bool := (lo <=? c)%N && (c <=? hi)%N.

Definition one_of (cs : str) (c : cp) : bool := existsb (N.eqb c) cs.

Fixpoint str_eqb (a b : str) : bool :=
  match a, b with
  | [], [] => true
  | x :: a', y :: b' => (x =? y)%N && str_eqb a' b'
  | _, _ => false
  end.

(** [Py_UNICODE_ISSPACE]: what [str.strip()], [str.isspace()] and the
    pattern class [\s] test. *)
Definition is_space (c : cp) : bool :=
  in_range 9 13 c || in_range 28 32 c || (c =? 133)%N || (c =? 160)%N
  || (c =? 5760)%N || in_range 8192 8202 c || (c =? 8232)%N
  || (c =? 8233)%N || (c =? 8239)%N || (c =? 8287)%N || (c =? 12288)%N.

Definition is_ascii_upper (c : cp) : bool := in_range 65 90 c.
Definition is_ascii_lower (c : cp) : bool := in_range 97 122 c.
Definition is_ascii_digit (c : cp) : bool := in_range 48 57 c.

(** The class [[A-Z0-9]] *)
Definition upper_or_digit (c : cp) : bool :=
  is_ascii_upper c || is_ascii_digit c.

Fixpoint starts_with (p s : str) : bool :=
  match p, s with
  | [], _ => true
  | x :: p', y :: s' => (x =? y)%N && starts_with p' s'
  | _ :: _, [] => false
  end.

(** [needle in hay] on strings. *)
Fixpoint contains (needle hay : str) : bool :=
  starts_with needle hay ||
  match hay with
  | [] => false
  | _ :: hay' => contains needle hay'
  end.

(** [c in s] for a one-character string. *)
Definition has_char (c : cp) (s : str) : bool := existsb (N.eqb c) s.

(** [s.find(c)]: the first index of [c], or [-1]. *)
Fixpoint find (c : cp) (s : str) : Z :=
  match s with
  | [] => (-1)%Z
  | x :: s' =>
      if (x =? c)%N then 0%Z
      else let i := find c s' in if (i <? 0)%Z then (-1)%Z else (i + 1)%Z
  end.

(** [s.rfind(c)]: the last index of [c], or [-1]. *)
Fixpoint rfind (c : cp) (s : str) : Z :=
  match s with
  | [] => (-1)%Z
  | x :: s' =>
      let i := rfind c s' in
      if (0 <=? i)%Z then (i + 1)%Z
      else if (x =? c)%N then 0%Z else (-1)%Z
  end.

(** [s[a:b]] with Python's treatment of negative and out-of-range
    bounds. *)
Definition clamp_index (len i : Z) : Z :=
  if (i <? 0)%Z then Z.max (i + len) 0 else Z.min i len.

Definition slice (s : str) (a b : Z) : str :=
  let len := Z.of_nat (length s) in
  let a' := clamp_index len a in
  let b' := clamp_index len b in
  firstn (Z.to_nat (b' - a')) (skipn (Z.to_nat a') s).

Fixpoint lstrip (p : cp -> bool) (s : str) : str :=
  match s with
  | c :: s' => if p c then lstrip p s' else s
  | [] => []
  end.

Definition rstrip (p : cp -> bool) (s : str) : str := rev (lstrip p (rev s)).

(** [s.strip()] is [strip is_space s]; [s.strip(chars)] is
    [strip (one_of chars) s]. *)
Definition strip (p : cp -> bool) (s : str) : str := rstrip p (lstrip p s).

(** The Unicode character database, as far as the program consults it. *)
Class Unicode : Type := {
  (** [Py_UNICODE_ISDECIMAL]: the pattern class [\d] *)
  is_decimal : cp -> bool;
  (** [Py_UNICODE_TODECIMAL] of a decimal digit *)
  decimal_value : cp -> Z;
  (** the characters [str.isdigit()] accepts *)
  is_digit : cp -> bool;
  (** [str.lower()] and [str.upper()] *)
  str_lower : str -> str;
  str_upper : str -> str;
  (** closure of a character test under the case-insensitive matching of
      [re.IGNORECASE] *)
  ci : (cp -> bool) -> cp -> bool;
  (** the ASCII decimal digits are 0 to 9 *)
  is_decimal_ascii :
    forall c, (c < 128)%N -> is_decimal c = is_ascii_digit c;
  (** upper-casing leaves a string of ASCII capitals and digits alone *)
  str_upper_capitals :
    forall s, forallb upper_or_digit s = true -> str_upper s = s
}.

(** ** Python values *)

Inductive pyfloat : Type :=
| Finite (q : Q)
| Infinity (negative : bool)
| NaN.

(** [f > n] and [f < n] for a float and an integer constant; both are
    false on NaN. *)
Definition float_gt (f : pyfloat) (n : Z) : bool :=
  match f with
  | Finite q => negb (Qle_bool q (inject_Z n))
  | Infinity negative => negb negative
  | NaN => false
  end.

Definition float_lt (f : pyfloat) (n : Z) : bool :=
  match f with
  | Finite q => negb (Qle_bool (inject_Z n) q)
  | Infinity negative => negative
  | NaN => false
  end.

(** The integer nearest to [n / d], ties to even. *)
Definition round_half_even (n : Z) (d : positive) : Z :=
  let q := (n / Zpos d)%Z in
  let r := (n mod Zpos d)%Z in
  match (2 * r ?= Zpos d)%Z with
  | Lt => q
  | Gt => (q + 1)%Z
  | Eq => if Z.even q then q else (q + 1)%Z
  end.

(** Multiplication of a positive fraction [a / d] by [2 ^ k]. *)
Definition scale2 (a : Z) (d : positive) (k : Z) : Z * positive :=
  if (0 <=? k)%Z then ((a * 2 ^ k)%Z, d)
  else (a, (d * Z.to_pos (2 ^ (- k)))%positive).

(** The IEEE 754 binary64 value nearest to a rational (ties to even),
    with overflow to infinity and gradual underflow. *)
Definition binary64 (q : Q) : pyfloat :=
  let n := Qnum q in
  let d := Qden q in
  if (n =? 0)%Z then Finite 0%Q
  else
    let a := Z.abs n in
    let e0 := (Z.log2 a - Z.log2 (Zpos d))%Z in
    let (a0, d0) := scale2 a d (- e0) in
    let e := if (a0 <? Zpos d0)%Z then (e0 - 1)%Z else e0 in
    let ulp := Z.max (e - 52) (-1074) in
    let (a1, d1) := scale2 a d (- ulp) in
    let m := round_half_even a1 d1 in
    let (v, w) := scale2 m 1%positive ulp in
    if (2 ^ 1024 * Zpos w <=? v)%Z then Infinity (n <? 0)%Z
    else Finite (Qred ((if (n <? 0)%Z then (- v)%Z else v) # w)).

Inductive exn : Type :=
| ValueError (msg : str)
| JSONDecodeError
| KeyError
| TypeError
| AttributeError
| OverflowError
| OtherError.

Inductive result (A : Type) : Type :=
| Ok (a : A)
| Raise (e : exn).

Arguments Ok {A} a.
Arguments Raise {A} e.

Definition bind {A B : Type} (c : result A) (k : A -> result B) : result B :=
  match c with
  | Ok a => k a
  | Raise e => Raise e
  end.

Notation "x <- c ;; k" := (bind c (fun x => k))
  (at level 61, c at next level, right associativity).

Inductive pyval : Type :=
| PNone
| PBool (b : bool)
| PInt (z : Z)
| PFloat (f : pyfloat)
| PStr (s : str)
| PList (l : list pyval)
| PDict (d : list (str * pyval)).

Definition dict := list (str * pyval).

(** Dictionaries with string keys: [lookup], [key in d], [d[key]] and
    [d.get(key)]. *)
Fixpoint lookup {V : Type} (key : str) (d : list (str * V)) : option V :=
  match d with
  | [] => None
  | (k, v) :: d' => if str_eqb k key then Some v else lookup key d'
  end.

Definition has_key {V : Type} (key : str) (d : list (str * V)) : bool :=
  match lookup key d with
  | Some _ => true
  | None => false
  end.

Definition item {V : Type} (key : str) (d : list (str * V)) : result V :=
  match lookup key d with
  | Some v => Ok v
  | None => Raise KeyError
  end.

Definition dict_get (key : str) (d : dict) : pyval :=
  match lookup key d with
  | Some v => v
  | None => PNone
  end.

(** Truth value of an object in a condition. *)
Definition truthy (v : pyval) : bool :=
  match v with
  | PNone => false
  | PBool b => b
  | PInt z => negb (z =? 0)%Z
  | PFloat (Finite q) => negb (Qeq_bool q 0%Q)
  | PFloat _ => true
  | PStr s => match s with [] => false | _ => true end
  | PList l => match l with [] => false | _ => true end
  | PDict d => match d with [] => false | _ => true end
  end.

(** [json.loads] and [float()] on strings that are not plain decimal
    literals are not part of the program; they are taken as given. *)
Class Library : Type := {
  (** [json.loads] on the block cut out of the text, from the first
      opening brace to the last closing one: a dict or an exception *)
  json_loads : str -> result dict;
  (** [float(s)] for a string [s] outside the shape digits[.digits] *)
  float_free_form : str -> result pyfloat
}.

(** ** Regular expressions

    The fragment of [re] the program uses, matched the way [re] matches
    it: by backtracking, alternatives in order, greedy repetitions longest
    first and lazy ones shortest first.  Every repetition in the program's
    patterns ranges over a character class, and every pattern has at most
    one capturing group. *)

Module Re.

Inductive regex : Type :=
| Eps
| Chr (p : cp -> bool)
| Cat (r1 r2 : regex)
| Alt (r1 r2 : regex)
| Rep (greedy : bool) (p : cp -> bool) (lo : nat) (hi : option nat)
| Grp (r : regex)
| Bol
| Eol.

(** [(?:r)?] *)
Definition Opt (r : regex) : regex := Alt r Eps.

(** A literal string, and the same under [re.IGNORECASE]. *)
Fixpoint lit (s : str) : regex :=
  match s with
  | [] => Eps
  | c :: s' => Cat (Chr (N.eqb c)) (lit s')
  end.

Fixpoint lit_i `{Unicode} (s : str) : regex :=
  match s with
  | [] => Eps
  | c :: s' => Cat (Chr (ci (N.eqb c))) (lit_i s')
  end.

(** The matcher's state: the position reached, the text from there on and
    the text captured by group 1, if any. *)
Record mstate : Type := MState {
  pos : nat;
  rest : str;
  grp : option str
}.

Definition room (hi : option nat) : bool :=
  match hi with
  | Some O => false
  | _ => true
  end.

Definition less (hi : option nat) : option nat := option_map pred hi.

(** [p{lo,hi}] from position [i] on the text [s], then the continuation
    [k]. *)
Fixpoint rep {A : Type} (greedy : bool) (p : cp -> bool)
    (k : mstate -> option A) (g : option str)
    (lo : nat) (hi : option nat) (i : nat) (s : str) {struct s} : option A :=
  match lo with
  | S lo' =>
      match s with
      | c :: s' =>
          if p c && room hi then rep greedy p k g lo' (less hi) (S i) s'
          else None
      | [] => None
      end
  | O =>
      if greedy then
        match
          match s with
          | c :: s' =>
              if p c && room hi then rep greedy p k g O (less hi) (S i) s'
              else None
          | [] => None
          end
        with
        | Some a => Some a
        | None => k (MState i s g)
        end
      else
        match k (MState i s g) with
        | Some a => Some a
        | None =>
            match s with
            | c :: s' =>
                if p c && room hi then rep greedy p k g O (less hi) (S i) s'
                else None
            | [] => None
            end
        end
  end.

(** [run r k st]: match [r] at [st], then [k]; [None] when every way of
    matching [r] makes [k] fail. *)
Fixpoint run {A : Type} (r : regex) (k : mstate -> option A) (st : mstate)
    : option A :=
  match r with
  | Eps => k st
  | Chr p =>
      match rest st with
      | c :: s' => if p c then k (MState (S (pos st)) s' (grp st)) else None
      | [] => None
      end
  | Cat r1 r2 => run r1 (run r2 k) st
  | Alt r1 r2 =>
      match run r1 k st with
      | Some a => Some a
      | None => run r2 k st
      end
  | Rep greedy p lo hi => rep greedy p k (grp st) lo hi (pos st) (rest st)
  | Grp r1 =>
      run r1
        (fun st' =>
           k (MState (pos st') (rest st')
                (Some (firstn (pos st' - pos st) (rest st)))))
        st
  | Bol => match pos st with O => k st | S _ => None end
  | Eol =>
      match rest st with
      | [] => k st
      | [c] => if (c =? 10)%N then k st else None
      | _ => None
      end
  end.

(** A match object: its span and [group(1)]. *)
Record rmatch : Type := RMatch {
  m_start : nat;
  m_end : nat;
  group1 : option str
}.

Definition finish (start : nat) (st : mstate) : option rmatch :=
  Some (RMatch start (pos st) (grp st)).

(** [re.match]: anchored at the start of the text. *)
Definition re_match (r : regex) (s : str) : option rmatch :=
  run r (finish 0) (MState 0 s None).

Fixpoint search_from (r : regex) (i : nat) (s : str) : option rmatch :=
  match run r (finish i) (MState i s None) with
  | Some m => Some m
  | None =>
      match s with
      | [] => None
      | _ :: s' => search_from r (S i) s'
      end
  end.

(** [re.search]: the leftmost position at which the pattern matches. *)
Definition search (r : regex) (s : str) : option rmatch := search_from r 0 s.

(** [re.sub]: [skip] counts the characters of the text still covered by
    the last match. *)
Fixpoint sub_from (r : regex) (repl : str) (skip i : nat) (s : str) : str :=
  match skip with
  | S skip' =>
      match s with
      | [] => []
      | _ :: s' => sub_from r repl skip' (S i) s'
      end
  | O =>
      match run r (finish i) (MState i s None) with
      | Some m =>
          repl ++
          match s with
          | [] => []
          | c :: s' =>
              match m_end m - i with
              | O => c :: sub_from r repl O (S i) s'
              | S n => sub_from r repl n (S i) s'
              end
          end
      | None =>
          match s with
          | [] => []
          | c :: s' => c :: sub_from r repl O (S i) s'
          end
      end
  end.

Definition sub (r : regex) (repl s : str) : str := sub_from r repl 0 0 s.

End Re.

Import Re.

(** ** Built-ins applied to dynamically typed values *)

(** The first character of a literal. *)
Definition chr (s : string) : cp := hd 0%N (u s).

(** Longest prefix of [s] whose characters satisfy [p], and the rest. *)
Fixpoint span (p : cp -> bool) (s : str) : str * str :=
  match s with
  | c :: s' => if p c then let (a, b) := span p s' in (c :: a, b) else ([], s)
  | [] => ([], [])
  end.

Section Builtins.
Context `{Unicode} `{Library}.

Definition digits_value (ds : str) : Z :=
  fold_left (fun acc c => (acc * 10 + decimal_value c)%Z) ds 0%Z.

(** The value of a string of the shape digits[.digits], [None] for any
    other string. *)
Definition decimal_literal (s : str) : option Q :=
  match span is_decimal s with
  | ([], _) => None
  | (ip, []) => Some (inject_Z (digits_value ip))
  | (ip, c :: fp) =>
      if (c =? chr ".")%N && forallb is_decimal fp
         && negb (Nat.eqb (length fp) 0)
      then Some (Qmake (digits_value (ip ++ fp))
                        (Z.to_pos (10 ^ Z.of_nat (length fp))))
      else None
  end.

Definition float_of_str (s : str) : result pyfloat :=
  match decimal_literal s with
  | Some q => Ok (binary64 q)
  | None => float_free_form s
  end.

(** [float(v)] *)
Definition py_float (v : pyval) : result pyfloat :=
  match v with
  | PBool b => Ok (Finite (if b then 1%Q else 0%Q))
  | PInt z =>
      match binary64 (inject_Z z) with
      | Infinity _ => Raise OverflowError
      | f => Ok f
      end
  | PFloat f => Ok f
  | PStr s => float_of_str s
  | PNone | PList _ | PDict _ => Raise TypeError
  end.

(** [v.upper()], [v.lower()], [v.strip()], [len(v)] on a value that
    should be a string. *)
Definition py_upper (v : pyval) : result str :=
  match v with
  | PStr s => Ok (str_upper s)
  | _ => Raise AttributeError
  end.

Definition py_lower (v : pyval) : result str :=
  match v with
  | PStr s => Ok (str_lower s)
  | _ => Raise AttributeError
  end.

Definition py_strip (v : pyval) : result str :=
  match v with
  | PStr s => Ok (strip is_space s)
  | _ => Raise AttributeError
  end.

End Builtins.

(** [match.group(1)]: [None] when the group took no part in the match. *)
Definition group (m : rmatch) : pyval :=
  match group1 m with
  | Some s => PStr s
  | None => PNone
  end.

(** ** TransactionData *)

(** The fields [amount] and [currency] are built by [float(...)] and
    [.upper()] and so have their declared types; the other fields hold
    whatever the raw field map held.  The field [timestamp], a wall-clock
    read, is left out. *)
Record TransactionData : Type := {
  amount : pyfloat;
  currency : str;
  recipient : pyval;
  account_number : pyval;
  iban : pyval;
  description : pyval
}.

(** ** TransactionParser *)

Section Parser.
Context `{Unicode} `{Library}.

(** [\d+(?:\.\d+)?] *)
Definition number : regex :=
  Cat (Rep true is_decimal 1 None)
      (Opt (Cat (Chr (N.eqb (chr "."))) (Rep true is_decimal 1 None))).

(** [(?:r|r1|...|rn)] *)
Fixpoint alts (r : regex) (rs : list regex) : regex :=
  match rs with
  | [] => r
  | r' :: rs' => Alt r (alts r' rs')
  end.

(** [\s*] and [[:\s]*] *)
Definition spaces : regex := Rep true is_space 0 None.

Definition colon_or_space (c : cp) : bool := (c =? chr ":")%N || is_space c.

Definition separators : regex := Rep true colon_or_space 0 None.

(** [[А-Яа-яA-Za-z\s]] under [re.IGNORECASE] *)
Definition letter (c : cp) : bool :=
  in_range (chr "А") (chr "Я") c || in_range (chr "а") (chr "я") c
  || is_ascii_upper c || is_ascii_lower c.

Definition name_char (c : cp) : bool := ci letter c || is_space c.

(** [[^,\n]] *)
Definition not_comma_or_newline (c : cp) : bool :=
  negb ((c =? chr ",")%N || (c =? 10)%N).

(** The table [patterns] of [_extract_with_regex]; every pattern is
    searched with [re.IGNORECASE]. *)
Definition amount_rub : regex :=
  Cat (Grp number)
      (Cat spaces
           (alts (lit_i (u "рубл"))
                 [lit_i (u "₽"); lit_i (u "руб"); lit_i (u "RUB")])).

Definition amount_usd : regex :=
  Cat (Grp number)
      (Cat spaces
           (alts (lit_i (u "доллар")) [lit_i (u "$"); lit_i (u "USD")])).

Definition amount_eur : regex :=
  Cat (Grp number)
      (Cat spaces
           (alts (lit_i (u "евро")) [lit_i (u "€"); lit_i (u "EUR")])).

Definition recipient_pattern : regex :=
  Cat (alts (Cat (lit_i (u "получател")) (Chr (ci (one_of (u "ьюя")))))
            [lit_i (u "кому"); lit_i (u "для"); lit_i (u "на имя");
             lit_i (u "recipient"); lit_i (u "to")])
      (Cat separators
           (Cat (Grp (Rep false name_char 1 None))
                (alts (Chr is_space)
                      [Eol; lit_i (u ","); lit_i (u "на счет");
                       lit_i (u "счет"); lit_i (u "IBAN")]))).

Definition account_pattern : regex :=
  Cat (alts (lit_i (u "счет")) [lit_i (u "счёт"); lit_i (u "account")])
      (Cat separators (Grp (Rep true is_decimal 10 (Some 20)))).

Definition iban_pattern : regex :=
  Cat (alts (lit_i (u "IBAN")) [lit_i (u "iban")])
      (Cat separators
           (Grp (Cat (Rep true (ci is_ascii_upper) 2 (Some 2))
                     (Cat (Rep true is_decimal 2 (Some 2))
                          (Rep true (ci upper_or_digit) 4 (Some 30)))))).

Definition description_pattern : regex :=
  Cat (alts (lit_i (u "назначение"))
            [lit_i (u "описание"); lit_i (u "комментарий");
             lit_i (u "цель"); lit_i (u "для"); lit_i (u "purpose")])
      (Cat separators (Grp (Rep true not_comma_or_newline 1 None))).

(** [(\d+(?:\.\d+)?)], searched without flags *)
Definition bare_number : regex := Grp number.

(** The priority list of the currency loop. *)
Definition currency_patterns : list (str * regex) :=
  [(u "RUB", amount_rub); (u "USD", amount_usd); (u "EUR", amount_eur)].

(** The loop over the currency patterns: the first pattern found in the
    text sets amount and currency and ends the loop. *)
Fixpoint currency_loop (text : str) (l : list (str * regex))
    : result (option (pyfloat * str)) :=
  match l with
  | [] => Ok None
  | (curr_type, pattern) :: l' =>
      match search pattern text with
      | Some m =>
          a <- py_float (group m) ;;
          Ok (Some (a, curr_type))
      | None => currency_loop text l'
      end
  end.

Definition no_amount_msg : str := u "Не удалось извлечь сумму из текста".

Definition unknown_recipient : str := u "Неизвестный получатель".

Definition _extract_with_regex (text : str) : result dict :=
  found <- currency_loop text currency_patterns ;;
  found <- match found with
           | Some _ => Ok found
           | None =>
               match search bare_number text with
               | Some m =>
                   a <- py_float (group m) ;;
                   Ok (Some (a, u "RUB"))
               | None => Ok None
               end
           end ;;
  match found with
  | None => Raise (ValueError no_amount_msg)
  | Some (amount, currency) =>
      recipient <- match search recipient_pattern text with
                   | Some m => py_strip (group m)
                   | None => Ok unknown_recipient
                   end ;;
      let recipient := sub (Rep true is_space 1 None) (u " ") recipient in
      let recipient := strip (one_of (u ".,!?;:")) recipient in
      let account_number := match search account_pattern text with
                            | Some m => group m
                            | None => PNone
                            end in
      let iban := match search iban_pattern text with
                  | Some m => group m
                  | None => PNone
                  end in
      description <- match search description_pattern text with
                     | Some m => s <- py_strip (group m) ;; Ok (PStr s)
                     | None => Ok PNone
                     end ;;
      Ok [(u "amount", PFloat amount);
          (u "currency", PStr currency);
          (u "recipient", PStr recipient);
          (u "account_number", account_number);
          (u "iban", iban);
          (u "description", description)]
  end.

Definition missing_fields_msg : str :=
  u "Отсутствуют обязательные поля: amount, currency, recipient".

Definition has_json_block (text : str) : bool :=
  has_char (chr "{") text && has_char (chr "}") text.

(** The body of the [try] block of [parse]. *)
Definition parse_body (text : str) : result TransactionData :=
  data <- (if has_json_block text then
             let start := find (chr "{") text in
             let stop := (rfind (chr "}") text + 1)%Z in
             json_loads (slice text start stop)
           else _extract_with_regex text) ;;
  if negb (has_key (u "amount") data)
     || negb (has_key (u "currency") data)
     || negb (has_key (u "recipient") data)
  then Raise (ValueError missing_fields_msg)
  else
    a <- item (u "amount") data ;;
    a <- py_float a ;;
    c <- item (u "currency") data ;;
    c <- py_upper c ;;
    r <- item (u "recipient") data ;;
    Ok {| amount := a;
          currency := c;
          recipient := r;
          account_number := dict_get (u "account_number") data;
          iban := dict_get (u "iban") data;
          description := dict_get (u "description") data |}.

Definition parse_failed_msg (text : str) : str :=
  u "Не удалось извлечь данные из текста: " ++ text.

(** [parse]: the handler turns [JSONDecodeError], [ValueError] and
    [KeyError] into one [ValueError]; other exceptions pass through. *)
Definition parse (text : str) : result TransactionData :=
  match parse_body text with
  | Ok t => Ok t
  | Raise (JSONDecodeError | ValueError _ | KeyError) =>
      Raise (ValueError (parse_failed_msg text))
  | Raise e => Raise e
  end.

End Parser.

(** ** TransactionValidator *)

(** The messages of the validator, one constructor per format string,
    with the values the string interpolates. *)
Inductive error_msg : Type :=
| ExceedsLimit (amount : pyfloat) (currency : str) (limit : Z)
| BelowMinimum (amount : pyfloat) (currency : str) (minimum : Z)
| BlockedRecipient (recipient : pyval)
| RecipientTooShort.

Inductive warning_msg : Type :=
| UnsupportedCurrency (currency : str)
| RecipientVeryLong
| SuspectIban (iban : pyval)
| SuspectAccount (account : pyval)
| LargeTransfer
| LargeForeignTransfer.

Record Verdict : Type := {
  is_valid : bool;
  errors : list error_msg;
  warnings : list warning_msg;
  transaction : TransactionData
}.

Definition max_amounts : list (str * Z) :=
  [(u "USD", 10000%Z); (u "EUR", 8500%Z); (u "RUB", 750000%Z)].

Definition blocked_recipients : list str :=
  [u "санкции"; u "санкционный"; u "blocked"; u "forbidden";
   u "террор"; u "экстремизм"; u "наркотик"; u "оружие"].

Definition min_amounts : list (str * Z) :=
  [(u "USD", 1%Z); (u "EUR", 1%Z); (u "RUB", 100%Z)].

Definition supported_currencies : list str :=
  [u "USD"; u "EUR"; u "RUB"; u "GBP"; u "CHF"; u "JPY"].

(** [x in l] for a list of strings *)
Definition in_list (x : str) (l : list str) : bool := existsb (str_eqb x) l.

Section Validator.
Context `{Unicode}.

(** [^[A-Z]{2}\d{2}[A-Z0-9]+$] *)
Definition iban_format : regex :=
  Cat Bol
      (Cat (Rep true is_ascii_upper 2 (Some 2))
           (Cat (Rep true is_decimal 2 (Some 2))
                (Cat (Rep true upper_or_digit 1 None) Eol))).

Definition country_lengths : list (str * nat) :=
  [(u "RU", 33); (u "DE", 22); (u "FR", 27); (u "GB", 22); (u "US", 0)].

Definition _validate_iban (iban : pyval) : result bool :=
  match iban with
  | PStr s =>
      let iban := str_upper (filter (fun c => negb (c =? chr " ")%N) s) in
      if (length iban <? 15) || (34 <? length iban) then Ok false
      else
        match re_match iban_format iban with
        | None => Ok false
        | Some _ =>
            let country_code := firstn 2 iban in
            if has_key country_code country_lengths then
              expected_length <- item country_code country_lengths ;;
              if (0 <? expected_length)
                 && negb (length iban =? expected_length)
              then Ok false
              else Ok true
            else Ok true
        end
  | _ => Raise AttributeError
  end.

(** [str.isdigit()] *)
Definition isdigit (s : str) : bool :=
  match s with
  | [] => false
  | _ => forallb is_digit s
  end.

Definition russian_prefixes : list str :=
  [u "408"; u "407"; u "405"; u "423"; u "426"].

Definition _validate_account_number (account : pyval) : result bool :=
  match account with
  | PStr s =>
      let clean_account :=
        sub (Chr (fun c => is_space c || (c =? chr "-")%N)) [] s in
      if negb (isdigit clean_account) then Ok false
      else if (length clean_account <? 10) || (25 <? length clean_account)
      then Ok false
      else if (length clean_account =? 20)
              && existsb (fun p => starts_with p clean_account)
                         russian_prefixes
      then Ok true
      else Ok (10 <=? length clean_account)
  | _ => Raise TypeError
  end.

(** The loop over [blocked_recipients]: the first keyword found in the
    lower-cased recipient appends one error and ends the loop. *)
Fixpoint blocked_loop (recipient : pyval) (recipient_lower : str)
    (l : list str) (errors : list error_msg) : list error_msg :=
  match l with
  | [] => errors
  | blocked :: l' =>
      if contains blocked recipient_lower
      then errors ++ [BlockedRecipient recipient]
      else blocked_loop recipient recipient_lower l' errors
  end.

Definition py_len (v : pyval) : result nat :=
  match v with
  | PStr s => Ok (length s)
  | PList l => Ok (length l)
  | PDict d => Ok (length d)
  | _ => Raise TypeError
  end.

Definition validate_transaction (t : TransactionData) : result Verdict :=
  let errors := [] in
  let warnings := [] in
  let warnings :=
    if negb (in_list (currency t) supported_currencies)
    then warnings ++ [UnsupportedCurrency (currency t)]
    else warnings in
  let currency := currency t in
  errors <-
    (if has_key currency max_amounts then
       limit <- item currency max_amounts ;;
       let errors :=
         if float_gt (amount t) limit
         then errors ++ [ExceedsLimit (amount t) currency limit]
         else errors in
       minimum <- item currency min_amounts ;;
       Ok (if float_lt (amount t) minimum
           then errors ++ [BelowMinimum (amount t) currency minimum]
           else errors)
     else Ok errors) ;;
  recipient_lower <- py_lower (recipient t) ;;
  let errors :=
    blocked_loop (recipient t) recipient_lower blocked_recipients errors in
  n <- py_len (recipient t) ;;
  let errors := if n <? 2 then errors ++ [RecipientTooShort] else errors in
  let warnings :=
    if n <? 2 then warnings
    else if 100 <? n then warnings ++ [RecipientVeryLong]
    else warnings in
  warnings <-
    (if truthy (iban t) then
       ok <- _validate_iban (iban t) ;;
       Ok (if negb ok then warnings ++ [SuspectIban (iban t)] else warnings)
     else Ok warnings) ;;
  warnings <-
    (if truthy (account_number t) then
       ok <- _validate_account_number (account_number t) ;;
       Ok (if negb ok then warnings ++ [SuspectAccount (account_number t)]
           else warnings)
     else Ok warnings) ;;
  let warnings :=
    if str_eqb currency (u "RUB") && float_gt (amount t) 100000
    then warnings ++ [LargeTransfer]
    else if in_list currency [u "USD"; u "EUR"]
            && float_gt (amount t) 5000
    then warnings ++ [LargeForeignTransfer]
    else warnings in
  Ok {| is_valid := length errors =? 0;
        errors := errors;
        warnings := warnings;
        transaction := t |}.

End Validator.

(** ** TransactionProcessor *)

Inductive method : Type := LLM | Regex | Error.

(** The dictionary [process_transaction] returns; [error] holds the
    exception whose text the program stores, and is absent on success. *)
Record ProcessingResult : Type := {
  transaction_data : option TransactionData;
  validation_result : option Verdict;
  error : option exn;
  processing_method : method
}.

(** The processor's state after [__init__]: the text-generation service,
    when one was configured.  A call of the service returns its answer or
    raises. *)
Record TransactionProcessor : Type := {
  llm : option (str -> result str)
}.

Section Processor.
Context `{Unicode} `{Library}.

(** [prompt_template.format(text=text)] *)
Definition prompt (text : str) : str :=
  u "
Извлеки из следующего текста информацию о банковской транзакции и верни результат в формате JSON.

Текст транзакции: " ++ text ++ u "

Верни JSON со следующими полями:
- amount: сумма (число)
- currency: валюта (USD, EUR, RUB и т.д.)
- recipient: имя получателя
- account_number: номер счета (если есть)
- iban: IBAN код (если есть)
- description: описание платежа (если есть)

Ответ должен содержать только валидный JSON без дополнительного текста.
".

(** [_extract_with_llm]: any failure of the service or of parsing its
    answer falls back to parsing the original text. *)
Definition _extract_with_llm (service : str -> result str) (text : str)
    : result TransactionData :=
  match (response <- service (prompt text) ;; parse response) with
  | Ok t => Ok t
  | Raise _ => parse text
  end.

(** The extraction step of [process_transaction]. *)
Definition extract (p : TransactionProcessor) (text : str)
    : result TransactionData :=
  match llm p with
  | Some service => _extract_with_llm service text
  | None => parse text
  end.

Definition process_transaction (p : TransactionProcessor) (text : str)
    : ProcessingResult :=
  match (transaction_data <- extract p text ;;
         validation_result <- validate_transaction transaction_data ;;
         Ok (transaction_data, validation_result)) with
  | Ok (transaction_data, validation_result) =>
      {| transaction_data := Some transaction_data;
         validation_result := Some validation_result;
         error := None;
         processing_method :=
           match llm p with Some _ => LLM | None => Regex end |}
  | Raise e =>
      {| transaction_data := None;
         validation_result := None;
         error := Some e;
         processing_method := Error |}
  end.

(** [batch_process]: the loop appends one result per text, in order. *)
Definition batch_process (p : TransactionProcessor) (texts : list str)
    : list ProcessingResult :=
  fold_left (fun results text => results ++ [process_transaction p text])
            texts [].

End Processor.

(** ** Statistics over processed transactions *)

(** Float arithmetic: the exact result, rounded once.  The sign of a zero
    is not represented. *)
Definition float_add (x y : pyfloat) : pyfloat :=
  match x, y with
  | Finite a, Finite b => binary64 (a + b)%Q
  | Finite _, Infinity s => Infinity s
  | Infinity s, Finite _ => Infinity s
  | Infinity s, Infinity s' => if Bool.eqb s s' then Infinity s else NaN
  | _, _ => NaN
  end.

Definition float_mul (x y : pyfloat) : pyfloat :=
  match x, y with
  | Finite a, Finite b => binary64 (a * b)%Q
  | Finite a, Infinity s | Infinity s, Finite a =>
      if Qeq_bool a 0%Q then NaN else Infinity (xorb s (Qnum a <? 0)%Z)
  | Infinity s, Infinity s' => Infinity (xorb s s')
  | _, _ => NaN
  end.

(** [a / b] on integers: the quotient rounded once; [ZeroDivisionError]
    (here [OtherError]) for a zero divisor and [OverflowError] for a
    quotient out of range. *)
Definition int_truediv (a b : Z) : result pyfloat :=
  if (b =? 0)%Z then Raise OtherError
  else
    match binary64 (Qmake (a * Z.sgn b) (Z.to_pos (Z.abs b))) with
    | Infinity _ => Raise OverflowError
    | f => Ok f
    end.

(** [d[key] = v]: a present key keeps its place, a new one goes last. *)
Fixpoint assign {V : Type} (key : str) (v : V) (d : list (str * V))
    : list (str * V) :=
  match d with
  | [] => [(key, v)]
  | (k, x) :: d' =>
      if str_eqb k key then (k, v) :: d' else (k, x) :: assign key v d'
  end.

(** The dictionary [get_statistics] returns, without the wall-clock read
    [processing_timestamp].  The values of [total_amounts] are sums
    [0 + amount + ...] of floats, hence floats. *)
Record Statistics : Type := {
  total_transactions : nat;
  successful_extractions : nat;
  valid_transactions : nat;
  success_rate : pyval;
  validation_rate : pyval;
  currencies : list (str * nat);
  total_amounts : list (str * pyfloat)
}.

(** [sum(1 for r in results if test(r))] *)
Definition count_if {A : Type} (test : A -> bool) (l : list A) : nat :=
  fold_left (fun n r => if test r then n + 1 else n) l 0.

(** [count / total * 100 if total > 0 else 0] *)
Definition percentage (count total : nat) : result pyval :=
  if 0 <? total then
    q <- int_truediv (Z.of_nat count) (Z.of_nat total) ;;
    Ok (PFloat (float_mul q (Finite 100)))
  else Ok (PInt 0).

(** The loop of [get_statistics] over the results. *)
Definition tally (acc : list (str * nat) * list (str * pyfloat))
    (result : ProcessingResult) : list (str * nat) * list (str * pyfloat) :=
  let (currencies, total_amounts) := acc in
  match transaction_data result with
  | Some t =>
      let currency := currency t in
      let amount := amount t in
      (assign currency
         (match lookup currency currencies with Some n => n | None => 0 end
          + 1)
         currencies,
       assign currency
         (float_add
            (match lookup currency total_amounts with
             | Some f => f
             | None => Finite 0
             end)
            amount)
         total_amounts)
  | None => acc
  end.

Definition get_statistics (results : list ProcessingResult)
    : result Statistics :=
  let total := length results in
  let successful :=
    count_if (fun r => match transaction_data r with
                       | Some _ => true
                       | None => false
                       end) results in
  let valid :=
    count_if (fun r => match validation_result r with
                       | Some v => is_valid v
                       | None => false
                       end) results in
  let (currencies, total_amounts) := fold_left tally results ([], []) in
  success_rate <- percentage successful total ;;
  validation_rate <- percentage valid total ;;
  Ok {| total_transactions := total;
        successful_extractions := successful;
        valid_transactions := valid;
        success_rate := success_rate;
        validation_rate := validation_rate;
        currencies := currencies;
        total_amounts := total_amounts |}.

(** ** Helpers of [utils] *)

(** [re.findall] for a pattern without a capturing group that matches no
    empty string: the matches from left to right, each search starting
    where the last match ended. *)
Fixpoint findall_from (r : regex) (skip i : nat) (s : str) : list str :=
  match skip with
  | S skip' =>
      match s with
      | [] => []
      | _ :: s' => findall_from r skip' (S i) s'
      end
  | O =>
      match run r (finish i) (MState i s None) with
      | Some m =>
          firstn (m_end m - i) s ::
          match s with
          | [] => []
          | _ :: s' => findall_from r (pred (m_end m - i)) (S i) s'
          end
      | None =>
          match s with
          | [] => []
          | _ :: s' => findall_from r O (S i) s'
          end
      end
  end.

Definition findall (r : regex) (s : str) : list str := findall_from r 0 0 s.

Section Utils.
Context `{Unicode} `{Library}.

(** The comprehension [[float(match) for match in matches]]. *)
Fixpoint floats (matches : list str) : result (list pyfloat) :=
  match matches with
  | [] => Ok []
  | m :: matches' =>
      f <- py_float (PStr m) ;;
      fs <- floats matches' ;;
      Ok (f :: fs)
  end.

Definition extract_numbers (text : str) : result (list pyfloat) :=
  let matches := findall number text in
  match floats matches with
  | Raise (ValueError _) => Ok []
  | r => r
  end.

(** The dictionary [validate_account_number] of [utils] returns: invalid
    with a reason, or valid with a type and the cleaned number. *)
Inductive account_report : Type :=
| AccountInvalid (reason : str)
| AccountValid (account_type formatted : str).

Definition valid_prefixes : list str :=
  [u "408"; u "407"; u "405"; u "423"; u "426"; u "40817"; u "40820"].

Definition russian_account : str := u "Российский счет".

Definition international_account : str := u "Международный счет".

Definition validate_account_number (account : pyval)
    : result account_report :=
  if negb (truthy account)
  then Ok (AccountInvalid (u "Номер счета пустой"))
  else
    match account with
    | PStr s =>
        let clean_account :=
          sub (Chr (fun c => is_space c || (c =? chr "-")%N)) [] s in
        if negb (isdigit clean_account)
        then Ok (AccountInvalid
                   (u "Номер счета должен содержать только цифры"))
        else if length clean_account <? 10
        then Ok (AccountInvalid (u "Номер счета слишком короткий"))
        else if 25 <? length clean_account
        then Ok (AccountInvalid (u "Номер счета слишком длинный"))
        else if length clean_account =? 20 then
          let is_russian_account :=
            existsb (fun prefix => starts_with prefix clean_account)
                    valid_prefixes in
          Ok (AccountValid
                (if is_russian_account then russian_account
                 else international_account)
                clean_account)
        else Ok (AccountValid international_account clean_account)
    | _ => Raise TypeError
    end.

End Utils.

(** ** Masking of account numbers for display *)

(** [s.split(c)] for a one-character separator. *)
Fixpoint split_on (c : cp) (s : str) : list str :=
  match s with
  | [] => [[]]
  | x :: s' =>
      if (x =? c)%N then [] :: split_on c s'
      else
        match split_on c s' with
        | part :: parts => (x :: part) :: parts
        | [] => [[x]]
        end
  end.

(** [c * n] for a one-character string *)
Definition stars (n : nat) : str := repeat (chr "*") n.

(** [data[:4] + '*' * (len(data) - 8) + data[-4:]], or all stars for a
    short text *)
Definition mask_middle (data : str) : str :=
  if 8 <? length data then
    slice data 0 4 ++ stars (length data - 8)
    ++ slice data (-4) (Z.of_nat (length data))
  else stars (length data).

(** [EncryptionManager.mask_sensitive_data], which [mask_data] calls on
    the account number and the IBAN of a transaction before display. *)
Definition mask_sensitive_data (data field_type : str) : result str :=
  match data with
  | [] => Ok data
  | _ =>
      if str_eqb field_type (u "account") then Ok (mask_middle data)
      else if str_eqb field_type (u "iban") then Ok (mask_middle data)
      else if str_eqb field_type (u "email") then
        if has_char (chr "@") data then
          match split_on (chr "@") data with
          | [username; domain] =>
              let masked_username :=
                if 1 <? length username
                then slice username 0 1 ++ stars (length username - 1)
                else username in
              Ok (masked_username ++ u "@" ++ domain)
          | _ => Raise (ValueError
                          (u "too many values to unpack (expected 2)"))
          end
        else Ok data
      else Ok data
  end.

(** ** A character database and a library for the examples

    [basic_unicode] is CPython's database restricted to Basic Latin and
    to the Cyrillic letters U+0400..U+045F: outside these it knows no
    digit and no cased letter.  [no_library] rejects every JSON text and
    every free-form number.  The examples use texts within that range,
    without JSON blocks, on which the library is never consulted
    ([parse_any_library]). *)

Definition lower_cp (c : cp) : cp :=
  if is_ascii_upper c then (c + 32)%N
  else if in_range 1040 1071 c then (c + 32)%N
  else if in_range 1024 1039 c then (c + 80)%N
  else c.

Definition upper_cp (c : cp) : cp :=
  if is_ascii_lower c then (c - 32)%N
  else if in_range 1072 1103 c then (c - 32)%N
  else if in_range 1104 1119 c then (c - 80)%N
  else c.

#[export, refine] Instance basic_unicode : Unicode := {|
  is_decimal := is_ascii_digit;
  decimal_value := fun c => (Z.of_N c - 48)%Z;
  is_digit := is_ascii_digit;
  str_lower := map lower_cp;
  str_upper := map upper_cp;
  ci := fun p c => p c || p (lower_cp c) || p (upper_cp c)
|}.
Proof.
  - reflexivity.
  - induction s as [|c s IH]; simpl; intros Hs; [reflexivity|].
    apply andb_prop in Hs as [Hc Hs]. rewrite (IH Hs). f_equal.
    unfold upper_or_digit, upper_cp, is_ascii_lower, is_ascii_upper,
      is_ascii_digit, in_range in *.
    assert (Hlt : (c < 97)%N).
    { apply orb_prop in Hc as [Hc|Hc]; apply andb_prop in Hc as [_ Hc];
        apply N.leb_le in Hc; lia. }
    replace ((97 <=? c)%N) with false by (symmetry; apply N.leb_gt; lia).
    replace ((1072 <=? c)%N) with false by (symmetry; apply N.leb_gt; lia).
    replace ((1104 <=? c)%N) with false by (symmetry; apply N.leb_gt; lia).
    reflexivity.
Defined.

#[export] Instance no_library : Library := {|
  json_loads := fun _ => Raise JSONDecodeError;
  float_free_form := fun _ => Raise (ValueError [])
|}.

(** ** Specification-side notions *)

(** The strings a pattern can consume, anchors aside. *)
Definition fits (hi : option nat) (n : nat) : Prop :=
  match hi with
  | Some h => n <= h
  | None => True
  end.

Fixpoint lang (r : regex) (w : str) : Prop :=
  match r with
  | Eps | Bol | Eol => w = []
  | Chr p => exists c, w = [c] /\ p c = true
  | Cat r1 r2 => exists w1 w2, w = w1 ++ w2 /\ lang r1 w1 /\ lang r2 w2
  | Alt r1 r2 => lang r1 w \/ lang r2 w
  | Rep _ p lo hi => forallb p w = true /\ lo <= length w /\ fits hi (length w)
  | Grp r1 => lang r1 w
  end.

Definition is_some {A : Type} (o : option A) : Prop := o <> None.

(** Where [$] matches: at the end of the text, or before the line feed
    that ends it. *)
Definition at_end (tail : str) : bool :=
  match tail with
  | [] => true
  | [x] => (x =? 10)%N
  | _ => false
  end.

(** [has_group r]: the pattern contains the capturing group;
    [sets_group r]: every match of the pattern goes through it. *)
Fixpoint has_group (r : regex) : bool :=
  match r with
  | Grp _ => true
  | Cat r1 r2 | Alt r1 r2 => has_group r1 || has_group r2
  | _ => false
  end.

Fixpoint sets_group (r : regex) : bool :=
  match r with
  | Grp _ => true
  | Cat r1 r2 => sets_group r1 || sets_group r2
  | Alt r1 r2 => sets_group r1 && sets_group r2
  | _ => false
  end.

Section Tokens.
Context `{Unicode}.

(** The numeric token at the head of a text: a maximal run of digits,
    then, when a dot and a digit follow, the dot and the maximal run of
    digits after it. *)
Definition number_at (s : str) : option (str * str) :=
  match span is_decimal s with
  | ([], _) => None
  | (ds, r) =>
      match r with
      | c :: r' =>
          if (c =? chr ".")%N then
            match span is_decimal r' with
            | ([], _) => Some (ds, r)
            | (fs, r'') => Some (ds ++ c :: fs, r'')
            end
          else Some (ds, r)
      | [] => Some (ds, r)
      end
  end.

(** The patterns that capture an amount: [\d+(?:\.\d+)?] in the group,
    first in the pattern. *)
Definition amount_pattern (r : regex) : Prop :=
  r = bare_number \/ exists tail, r = Cat (Grp number) tail /\
                                has_group tail = false.

(** The first numeric token of a text, reading from the left. *)
Fixpoint first_numeric_token (s : str) : option str :=
  match number_at s with
  | Some (tok, _) => Some tok
  | None =>
      match s with
      | [] => None
      | _ :: s' => first_numeric_token s'
      end
  end.

End Tokens.

(** The rule table of the validator, rule by rule. *)

Definition is_str (v : pyval) : bool :=
  match v with
  | PStr _ => true
  | _ => false
  end.

Definition str_or_none (v : pyval) : bool :=
  match v with
  | PStr _ | PNone => true
  | _ => false
  end.

(** A record whose fields have the types the dataclass declares. *)
Definition well_typed (t : TransactionData) : Prop :=
  is_str (recipient t) = true /\ str_or_none (iban t) = true /\
  str_or_none (account_number t) = true.

(** Strict comparison of a float with an integer, as a proposition. *)
Definition float_above (f : pyfloat) (n : Z) : Prop :=
  match f with
  | Finite q => (inject_Z n < q)%Q
  | Infinity negative => negative = false
  | NaN => False
  end.

Definition float_below (f : pyfloat) (n : Z) : Prop :=
  match f with
  | Finite q => (q < inject_Z n)%Q
  | Infinity negative => negative = true
  | NaN => False
  end.

Definition is_exceeds_limit (e : error_msg) : bool :=
  match e with
  | ExceedsLimit _ _ _ => true
  | _ => false
  end.

Definition is_below_minimum (e : error_msg) : bool :=
  match e with
  | BelowMinimum _ _ _ => true
  | _ => false
  end.

Definition is_blocked_recipient (e : error_msg) : bool :=
  match e with
  | BlockedRecipient _ => true
  | _ => false
  end.

Section Rules.
Context `{Unicode}.

(** Rules 2 and 3: amount ceiling and floor. *)
Definition bound_errors (a : pyfloat) (c : str) : list error_msg :=
  match lookup c max_amounts, lookup c min_amounts with
  | Some limit, Some minimum =>
      (if float_gt a limit then [ExceedsLimit a c limit] else [])
      ++ (if float_lt a minimum then [BelowMinimum a c minimum] else [])
  | _, _ => []
  end.

(** Rule 4: blocked recipient. *)
Definition mentions_blocked (r : str) : bool :=
  existsb (fun blocked => contains blocked (str_lower r)) blocked_recipients.

Definition blocked_errors (r : str) : list error_msg :=
  if mentions_blocked r then [BlockedRecipient (PStr r)] else [].

(** Rule 5: recipient length. *)
Definition length_errors (r : str) : list error_msg :=
  if length r <? 2 then [RecipientTooShort] else [].

Definition length_warnings (r : str) : list warning_msg :=
  if length r <? 2 then []
  else if 100 <? length r then [RecipientVeryLong]
  else [].

(** Rule 1: currency support. *)
Definition currency_warnings (c : str) : list warning_msg :=
  if in_list c supported_currencies then [] else [UnsupportedCurrency c].

(** Rules 6 and 7: structure of IBAN and account number. *)
Definition iban_warnings (v : pyval) : list warning_msg :=
  if truthy v then
    match _validate_iban v with
    | Ok false => [SuspectIban v]
    | _ => []
    end
  else [].

Definition account_warnings (v : pyval) : list warning_msg :=
  if truthy v then
    match _validate_account_number v with
    | Ok false => [SuspectAccount v]
    | _ => []
    end
  else [].

(** Rule 8: large-amount advisory. *)
Definition advisory_warnings (a : pyfloat) (c : str) : list warning_msg :=
  if str_eqb c (u "RUB") && float_gt a 100000 then [LargeTransfer]
  else if in_list c [u "USD"; u "EUR"] && float_gt a 5000
  then [LargeForeignTransfer]
  else [].

Definition rule_errors (t : TransactionData) (r : str) : list error_msg :=
  bound_errors (amount t) (currency t) ++ blocked_errors r
  ++ length_errors r.

Definition rule_warnings (t : TransactionData) (r : str)
    : list warning_msg :=
  currency_warnings (currency t) ++ length_warnings r
  ++ iban_warnings (iban t) ++ account_warnings (account_number t)
  ++ advisory_warnings (amount t) (currency t).

(** The two structural checks return on the values they are given. *)
Definition checks_return (t : TransactionData) : Prop :=
  (truthy (iban t) = true -> exists ok, _validate_iban (iban t) = Ok ok) /\
  (truthy (account_number t) = true ->
   exists ok, _validate_account_number (account_number t) = Ok ok).

(** The shape [^[A-Z]{2}\d{2}[A-Z0-9]+$] accepts with [re.match]: two
    capitals, two digits, a run of capitals and digits, and nothing after
    it but, possibly, one final line feed. *)
Definition iban_shape (s : str) : bool :=
  match s with
  | a :: b :: c :: d :: rest =>
      is_ascii_upper a && is_ascii_upper b && is_decimal c && is_decimal d
      && match span upper_or_digit rest with
         | ([], _) => false
         | (_, []) => true
         | (_, [x]) => (x =? 10)%N
         | (_, _) => false
         end
  | _ => false
  end.

Definition remove_spaces (s : str) : str :=
  filter (fun c => negb (c =? chr " ")%N) s.

(** The IBAN check as the specification words it: exact lengths for RU,
    DE, FR and GB, and the country code US refused. *)
Definition claimed_iban_check (s : str) : bool :=
  let s := remove_spaces s in
  (15 <=? length s) && (length s <=? 34) && iban_shape s
  && match lookup (firstn 2 s)
             [(u "RU", 33); (u "DE", 22); (u "FR", 27); (u "GB", 22)] with
     | Some n => length s =? n
     | None => true
     end
  && negb (str_eqb (firstn 2 s) (u "US")).

(** The IBAN check as the program performs it: on the upper-cased text,
    and with no requirement on the country code US. *)
Definition iban_check (s : str) : bool :=
  let s := str_upper (remove_spaces s) in
  (15 <=? length s) && (length s <=? 34) && iban_shape s
  && match lookup (firstn 2 s)
             [(u "RU", 33); (u "DE", 22); (u "FR", 27); (u "GB", 22)] with
     | Some n => length s =? n
     | None => true
     end.

End Rules.

(** ** Sample inputs *)

(** Listed in the repository's parsing test cases with the expected
    currency USD. *)
Definition dollar_text : str :=
  u "Transfer $2500 to John Smith account 1234567890123456789".

Definition no_amount_text : str := u "Перевод получателю Иванов".

Definition euro_text : str := u "5 EUR to Bob".

Definition rub_transfer (a : Q) : TransactionData :=
  {| amount := Finite a; currency := u "RUB";
     recipient := PStr (u "Иванов Иван"); account_number := PNone;
     iban := PNone; description := PNone |}.

Definition blocked_transfer : TransactionData :=
  {| amount := Finite 800000; currency := u "RUB";
     recipient := PStr (u "ООО САНКЦИИ и оружие"); account_number := PNone;
     iban := PNone; description := PNone |}.

Definition jpy_transfer : TransactionData :=
  {| amount := Finite 1000; currency := u "JPY";
     recipient := PStr (u "Ivan Petrov"); account_number := PNone;
     iban := PNone; description := PNone |}.

Definition short_iban_transfer : TransactionData :=
  {| amount := Finite 1200; currency := u "EUR";
     recipient := PStr (u "Hans Weber"); account_number := PNone;
     iban := PStr (u "DE123"); description := PNone |}.

Definition us_iban : str := u "US12345678901234567".

Definition regex_mode : TransactionProcessor := {| llm := None |}.

(** C5 as the specification states it: a JPY record that passes the
    other rules is valid and carries the unsupported-currency warning. *)
Definition flagged_unsupported `{Unicode} (t : TransactionData) : Prop :=
  exists v,
    validate_transaction t = Ok v /\ errors v = [] /\ is_valid v = true /\
    In (UnsupportedCurrency (currency t)) (warnings v).

(** ** Notions for the rest of the code *)

(** What the program's character tests have in common on the decimal
    digits: [str.isdigit] accepts them, they are not white space, and
    their value is not negative. *)
Definition digits_regular `{Unicode} : Prop :=
  forall c, is_decimal c = true ->
            is_digit c = true /\ is_space c = false /\
            (0 <= decimal_value c)%Z.

(** The account check in closed form: white space and hyphens deleted,
    10 to 25 digits are left. *)
Definition account_check `{Unicode} (s : str) : bool :=
  let digits := filter (fun c => negb (is_space c || (c =? chr "-")%N)) s in
  isdigit digits && (10 <=? length digits) && (length digits <=? 25).

Definition report_valid (r : account_report) : bool :=
  match r with
  | AccountValid _ _ => true
  | AccountInvalid _ => false
  end.

Definition is_unsupported_currency (w : warning_msg) : bool :=
  match w with
  | UnsupportedCurrency _ => true
  | _ => false
  end.

Definition is_suspect_account (w : warning_msg) : bool :=
  match w with
  | SuspectAccount _ => true
  | _ => false
  end.

(** The text handed to [json.loads]. *)
Definition json_block (text : str) : str :=
  slice text (find (chr "{") text) (rfind (chr "}") text + 1).

(** A float that is a number and not below zero. *)
Definition float_nonneg (f : pyfloat) : Prop :=
  match f with
  | Finite q => (0 <= q)%Q
  | Infinity negative => negative = false
  | NaN => False
  end.

(** The result of a failed item. *)
Definition failed (e : exn) : ProcessingResult :=
  {| transaction_data := None; validation_result := None;
     error := Some e; processing_method := Error |}.

(** Samples: a service that is down, a library whose decoder returns a
    given object, and records with an account number. *)
Definition service_down : str -> result str := fun _ => Raise OtherError.

Definition llm_mode (service : str -> result str) : TransactionProcessor :=
  {| llm := Some service |}.

Definition canned_library (d : dict) : Library := {|
  json_loads := fun _ => Ok d;
  float_free_form := fun _ => Raise (ValueError [])
|}.

Definition account_text : str :=
  u "Перевести 15000 рублей получателю Иванов счет 40817810123456789012".

Definition with_iban (t : TransactionData) (v : pyval) : TransactionData :=
  {| amount := amount t; currency := currency t; recipient := recipient t;
     account_number := account_number t; iban := v;
     description := description t |}.

(** The exception the validator raises on a record, if any: the recipient
    must be a string, and so must an IBAN or an account number that counts
    as true. *)
Definition validator_failure (t : TransactionData) : option exn :=
  if negb (is_str (recipient t)) then Some AttributeError
  else if truthy (iban t) && negb (is_str (iban t)) then Some AttributeError
  else if truthy (account_number t) && negb (is_str (account_number t))
  then Some TypeError
  else None.

Definition ill_typed_transfer : TransactionData :=
  {| amount := Finite 1200; currency := u "EUR";
     recipient := PStr (u "Hans Weber"); account_number := PInt 7;
     iban := PInt 0; description := PNone |}.

Definition short_name_transfer : TransactionData :=
  {| amount := Finite 1200; currency := u "EUR";
     recipient := PStr (u "Я"); account_number := PStr (u "123");
     iban := PNone; description := PNone |}.

(** What the extractor puts into the two optional fields that are
    checked later. *)
Definition account_of `{Unicode} (text : str) : pyval :=
  match search account_pattern text with
  | Some m => group m
  | None => PNone
  end.

Definition iban_of `{Unicode} (text : str) : pyval :=
  match search iban_pattern text with
  | Some m => group m
  | None => PNone
  end.

(** Results that carry a record, results whose verdict is "valid", and
    the number of records of one currency. *)
Definition has_record (r : ProcessingResult) : bool :=
  match transaction_data r with
  | Some _ => true
  | None => false
  end.

Definition has_valid_verdict (r : ProcessingResult) : bool :=
  match validation_result r with
  | Some v => is_valid v
  | None => false
  end.

Definition has_currency (c : str) (r : ProcessingResult) : bool :=
  match transaction_data r with
  | Some t => str_eqb (currency t) c
  | None => false
  end.

Definition currency_count (c : str) (results : list ProcessingResult)
    : nat :=
  length (filter (has_currency c) results).

Definition is_float (v : pyval) : bool :=
  match v with
  | PFloat _ => true
  | _ => false
  end.

(** The number of occurrences of a character in a text. *)
Definition occurrences (c : cp) (s : str) : nat :=
  length (filter (N.eqb c) s).

Definition braces_text : str := u "5 EUR to Bob {urgent}".

(** The object of [{"amount": null, "currency": "EUR", "recipient": "Bob"}] *)
Definition null_amount_object : dict :=
  [(u "amount", PNone); (u "currency", PStr (u "EUR"));
   (u "recipient", PStr (u "Bob"))].

(** The object of [{"amount": NaN, "currency": "rub", "recipient": "Bob"}];
    [json.loads] reads the literal [NaN]. *)
Definition nan_amount_object : dict :=
  [(u "amount", PFloat NaN); (u "currency", PStr (u "rub"));
   (u "recipient", PStr (u "Bob"))].

(** * Properties *)

(** ** The matcher *)

Lemma fits_less (hi : option nat) (n : nat) :
  room hi = true -> fits (less hi) n -> fits hi (S n).
Proof.
  destruct hi as [[|h]|]; simpl; intros Hr Hf; try discriminate; lia.
Qed.

Lemma rep_sound {A : Type} (greedy : bool) (p : cp -> bool)
    (k : mstate -> option A) (g : option str) (s : str) :
  forall lo hi i a,
    rep greedy p k g lo hi i s = Some a ->
    exists w s',
      s = w ++ s' /\ forallb p w = true /\ lo <= length w /\
      fits hi (length w) /\ k (MState (i + length w) s' g) = Some a.
Proof.
  assert (Hhere : forall hi i s0 a,
             k (MState i s0 g) = Some a ->
             exists w s', s0 = w ++ s' /\ forallb p w = true /\
               0 <= length w /\ fits hi (length w) /\
               k (MState (i + length w) s' g) = Some a).
  { intros hi i s0 a Hk. exists [], s0. simpl. rewrite Nat.add_0_r.
    repeat split; auto. destruct hi; simpl; lia. }
  assert (Hmore : forall c s0 lo hi i a,
             (forall lo hi i a,
                 rep greedy p k g lo hi i s0 = Some a ->
                 exists w s', s0 = w ++ s' /\ forallb p w = true /\
                   lo <= length w /\ fits hi (length w) /\
                   k (MState (i + length w) s' g) = Some a) ->
             (if p c && room hi
              then rep greedy p k g (pred lo) (less hi) (S i) s0
              else None) = Some a ->
             exists w s', c :: s0 = w ++ s' /\ forallb p w = true /\
               lo <= length w /\ fits hi (length w) /\
               k (MState (i + length w) s' g) = Some a).
  { intros c s0 lo hi i a IH Hrun.
    destruct (p c) eqn:Hp; [|discriminate].
    destruct (room hi) eqn:Hr; [|discriminate]. simpl in Hrun.
    destruct (IH _ _ _ _ Hrun) as (w & s' & -> & Hw & Hlo & Hhi & Hk).
    exists (c :: w), s'. simpl. rewrite Hp, Hw.
    replace (i + S (length w)) with (S i + length w) by lia.
    repeat split; auto; [lia | now apply fits_less]. }
  induction s as [|c s IH]; intros lo hi i a Hrun.
  - destruct lo; simpl in Hrun; [|discriminate].
    destruct greedy; simpl in Hrun.
    + now apply Hhere.
    + destruct (k (MState i [] g)) eqn:Hk; [|discriminate].
      inversion Hrun; subst. now apply Hhere.
  - destruct lo as [|lo]; simpl in Hrun.
    + destruct greedy.
      * match type of Hrun with
        | match ?m with _ => _ end = _ => destruct m eqn:Hm
        end.
        -- inversion Hrun; subst. now apply (Hmore c s 0 hi i a IH).
        -- now apply Hhere.
      * destruct (k (MState i (c :: s) g)) eqn:Hk.
        -- inversion Hrun; subst. now apply Hhere.
        -- now apply (Hmore c s 0 hi i a IH).
    + now apply (Hmore c s (S lo) hi i a IH).
Qed.

(** Soundness of the matcher: when [run r k st] succeeds, [r] consumed a
    word of its language at the head of the text and [k] succeeded on the
    state reached. *)
Lemma run_sound (r : regex) :
  forall (A : Type) (k : mstate -> option A) st a,
    run r k st = Some a ->
    exists w st',
      rest st = w ++ rest st' /\ pos st' = pos st + length w /\
      lang r w /\ k st' = Some a /\
      (has_group r = false -> grp st' = grp st) /\
      (sets_group r = true -> is_some (grp st')) /\
      (is_some (grp st) -> is_some (grp st')).
Proof.
  induction r as [|p|r1 IH1 r2 IH2|r1 IH1 r2 IH2|greedy p lo hi|r1 IH1| |];
    intros A k st a Hrun; simpl in Hrun.
  - exists [], st. simpl. rewrite Nat.add_0_r.
    repeat split; auto; discriminate.
  - destruct (rest st) as [|c s'] eqn:Hrest; [discriminate|].
    destruct (p c) eqn:Hp; [|discriminate].
    exists [c], (MState (S (pos st)) s' (grp st)). simpl.
    repeat split; auto; try discriminate; try lia. now exists c.
  - destruct (IH1 _ _ _ _ Hrun)
      as (w1 & st1 & Hr1 & Hp1 & Hl1 & Hk1 & Hg1 & Hs1 & Hm1).
    destruct (IH2 _ _ _ _ Hk1)
      as (w2 & st2 & Hr2 & Hp2 & Hl2 & Hk2 & Hg2 & Hs2 & Hm2).
    exists (w1 ++ w2), st2. rewrite length_app, <- app_assoc, <- Hr2.
    repeat split; auto; try lia.
    + now exists w1, w2.
    + simpl. intros Hg. apply orb_false_elim in Hg as [Ha Hb].
      now rewrite Hg2, Hg1.
    + simpl. intros Hg. apply orb_prop in Hg as [Ha|Hb]; auto.
  - destruct (run r1 k st) eqn:Hfirst.
    + inversion Hrun; subst.
      destruct (IH1 _ _ _ _ Hfirst)
        as (w & st' & Hr & Hp & Hl & Hk & Hg & Hs & Hm).
      exists w, st'. simpl. repeat split; auto.
      * intros Hh. apply orb_false_elim in Hh as [Ha Hb]. auto.
      * intros Hh. apply andb_prop in Hh as [Ha Hb]. auto.
    + destruct (IH2 _ _ _ _ Hrun)
        as (w & st' & Hr & Hp & Hl & Hk & Hg & Hs & Hm).
      exists w, st'. simpl. repeat split; auto.
      * intros Hh. apply orb_false_elim in Hh as [Ha Hb]. auto.
      * intros Hh. apply andb_prop in Hh as [Ha Hb]. auto.
  - destruct (rep_sound _ _ _ _ _ _ _ _ _ Hrun)
      as (w & s' & Hr & Hw & Hlo & Hhi & Hk).
    exists w, (MState (pos st + length w) s' (grp st)). simpl.
    repeat split; auto; discriminate.
  - destruct (IH1 _ _ _ _ Hrun)
      as (w & st' & Hr & Hp & Hl & Hk & Hg & Hs & Hm).
    exists w, (MState (pos st') (rest st')
                 (Some (firstn (pos st' - pos st) (rest st)))). simpl.
    repeat split; auto; try discriminate.
  - destruct (pos st) eqn:Hpos; [|discriminate].
    exists [], st. simpl. rewrite Hpos.
    repeat split; auto; discriminate.
  - assert (Hk : k st = Some a).
    { destruct (rest st) as [|c [|? ?]]; auto; try discriminate.
      destruct (c =? 10)%N; auto; discriminate. }
    exists [], st. simpl. rewrite Nat.add_0_r.
    repeat split; auto; discriminate.
Qed.

Lemma run_group_sound (r : regex) (A : Type) (k : mstate -> option A)
    (st : mstate) (a : A) :
  run (Grp r) k st = Some a ->
  exists w st',
    rest st = w ++ rest st' /\ pos st' = pos st + length w /\
    lang r w /\ grp st' = Some w /\ k st' = Some a.
Proof.
  simpl. intros Hrun.
  destruct (run_sound _ _ _ _ _ Hrun) as (w & st' & Hr & Hp & Hl & Hk & _).
  exists w, (MState (pos st') (rest st')
               (Some (firstn (pos st' - pos st) (rest st)))). simpl.
  repeat split; auto.
  rewrite Hp, Hr. replace (pos st + length w - pos st) with (length w) by lia.
  f_equal. rewrite firstn_app, Nat.sub_diag, firstn_all. simpl.
  now rewrite app_nil_r.
Qed.

Lemma search_from_sound (r : regex) (s : str) :
  forall i m,
    search_from r i s = Some m ->
    exists pre s0,
      s = pre ++ s0 /\
      run r (finish (i + length pre)) (MState (i + length pre) s0 None)
      = Some m.
Proof.
  induction s as [|c s IH]; intros i m Hs; simpl in Hs.
  - destruct (run r (finish i) (MState i [] None)) eqn:Hrun; [|discriminate].
    inversion Hs; subst. exists [], []. simpl. now rewrite Nat.add_0_r.
  - destruct (run r (finish i) (MState i (c :: s) None)) eqn:Hrun.
    + inversion Hs; subst. exists [], (c :: s). simpl. now rewrite Nat.add_0_r.
    + destruct (IH _ _ Hs) as (pre & s0 & -> & Hrun').
      exists (c :: pre), s0. simpl.
      now replace (i + S (length pre)) with (S i + length pre) by lia.
Qed.

(** A successful search: where the match lies in the text. *)
Lemma search_sound (r : regex) (text : str) (m : rmatch) :
  search r text = Some m ->
  exists pre w post,
    text = pre ++ w ++ post /\ lang r w /\
    m_start m = length pre /\ m_end m = length pre + length w /\
    (sets_group r = true -> is_some (group1 m)).
Proof.
  intros Hs. apply search_from_sound in Hs as (pre & s0 & -> & Hrun).
  destruct (run_sound _ _ _ _ _ Hrun)
    as (w & st' & Hr & Hp & Hl & Hk & _ & Hs & _).
  simpl in *. unfold finish in Hk. injection Hk as <-. simpl.
  exists pre, w, (rest st'). rewrite Hr. repeat split; auto.
Qed.

(** A successful search of a pattern that begins with its group:
    [group(1)] is a word of the group's pattern. *)
Lemma search_group_first (r1 r2 : regex) (text : str) (m : rmatch) :
  has_group r2 = false ->
  search (Cat (Grp r1) r2) text = Some m ->
  exists pre w post,
    text = pre ++ w ++ post /\ lang r1 w /\ group1 m = Some w /\
    m_start m = length pre.
Proof.
  intros Hng Hs. apply search_from_sound in Hs as (pre & s0 & -> & Hrun).
  change (run (Cat (Grp r1) r2) ?k ?st) with (run (Grp r1) (run r2 k) st)
    in Hrun.
  apply run_group_sound in Hrun as (w & st1 & Hr1 & Hp1 & Hl1 & Hg1 & Hk1).
  destruct (run_sound _ _ _ _ _ Hk1)
    as (w2 & st2 & Hr2 & Hp2 & Hl2 & Hk2 & Hg2 & _).
  simpl in *. unfold finish in Hk2. injection Hk2 as <-. simpl.
  exists pre, w, (rest st1). rewrite Hr1. repeat split; auto.
  now rewrite (Hg2 Hng).
Qed.

Lemma search_bare_group (r1 : regex) (text : str) (m : rmatch) :
  search (Grp r1) text = Some m ->
  exists pre w post,
    text = pre ++ w ++ post /\ lang r1 w /\ group1 m = Some w /\
    m_start m = length pre.
Proof.
  intros Hs. apply search_from_sound in Hs as (pre & s0 & -> & Hrun).
  apply run_group_sound in Hrun as (w & st1 & Hr1 & Hp1 & Hl1 & Hg1 & Hk1).
  simpl in *. unfold finish in Hk1. injection Hk1 as <-. simpl.
  exists pre, w, (rest st1). rewrite Hr1. repeat split; auto.
Qed.

(** ** Numeric tokens *)

Lemma span_app_all (p : cp -> bool) (w r : str) :
  forallb p w = true ->
  span p (w ++ r) = (w ++ fst (span p r), snd (span p r)).
Proof.
  induction w as [|c w IH]; simpl; intros Hw.
  - now destruct (span p r).
  - apply andb_prop in Hw as [Hc Hw]. rewrite Hc, (IH Hw). reflexivity.
Qed.

Lemma span_all (p : cp -> bool) (w : str) :
  forallb p w = true -> span p w = (w, []).
Proof.
  intros Hw. rewrite <- (app_nil_r w) at 1.
  rewrite (span_app_all _ _ _ Hw). simpl. now rewrite app_nil_r.
Qed.

Section TokenFacts.
Context `{Unicode}.

Lemma dot_not_decimal : is_decimal (chr ".") = false.
Proof. now rewrite is_decimal_ascii. Qed.

(** The words of [\d+(?:\.\d+)?]. *)
Lemma lang_number (w : str) :
  lang number w ->
  exists ds, forallb is_decimal ds = true /\ 1 <= length ds /\
    (w = ds \/
     exists fs, forallb is_decimal fs = true /\ 1 <= length fs /\
                w = ds ++ chr "." :: fs).
Proof.
  intros (ds & w2 & -> & (Hds & Hlen & _) & Hopt).
  exists ds. repeat split; auto.
  destruct Hopt as [(w3 & fs & -> & (c & -> & Hc) & (Hfs & Hl & _))| ->].
  - right. exists fs. apply N.eqb_eq in Hc. subst c. auto.
  - left. now rewrite app_nil_r.
Qed.

Lemma lang_number_head (w : str) :
  lang number w -> exists d t, w = d :: t /\ is_decimal d = true.
Proof.
  intros Hw. apply lang_number in Hw as (ds & Hds & Hlen & Hw).
  destruct ds as [|d ds]; [simpl in Hlen; lia|].
  simpl in Hds. apply andb_prop in Hds as [Hd _].
  destruct Hw as [->|(fs & _ & _ & ->)]; simpl; eauto.
Qed.

(** [float()] never fails on a word of [\d+(?:\.\d+)?]. *)
Lemma lang_number_literal (w : str) :
  lang number w -> exists q, decimal_literal w = Some q.
Proof.
  intros Hw. apply lang_number in Hw as (ds & Hds & Hlen & Hw).
  unfold decimal_literal.
  destruct ds as [|d ds]; [simpl in Hlen; lia|].
  destruct Hw as [->|(fs & Hfs & Hl & ->)].
  - rewrite (span_all _ _ Hds). eauto.
  - rewrite (span_app_all _ _ _ Hds). simpl span.
    rewrite dot_not_decimal. simpl. rewrite Hfs.
    destruct fs; [simpl in Hl; lia|]. simpl. eauto.
Qed.

End TokenFacts.

(** ** The bare-number search finds the first numeric token *)

Lemma span_split (p : cp -> bool) (s : str) :
  s = fst (span p s) ++ snd (span p s).
Proof.
  induction s as [|c s IH]; simpl; [reflexivity|].
  destruct (p c); [|reflexivity].
  destruct (span p s) as [a b]. simpl in *. now rewrite <- IH.
Qed.

Lemma span_prefix (p : cp -> bool) (s : str) :
  forallb p (fst (span p s)) = true.
Proof.
  induction s as [|c s IH]; simpl; [reflexivity|].
  destruct (p c) eqn:Hc; [|reflexivity].
  destruct (span p s) as [a b]. simpl in *. now rewrite Hc.
Qed.

(** A greedy repetition followed by a continuation that cannot fail takes
    the longest run. *)
Lemma rep_greedy_total {A : Type} (p : cp -> bool)
    (k : mstate -> option A) (g : option str) :
  (forall st, k st <> None) ->
  forall s lo i,
    rep true p k g lo None i s =
    if lo <=? length (fst (span p s))
    then k (MState (i + length (fst (span p s))) (snd (span p s)) g)
    else None.
Proof.
  intros Hk. induction s as [|c s IH]; intros lo i.
  - destruct lo; simpl; [|reflexivity]. now rewrite Nat.add_0_r.
  - simpl. destruct (p c) eqn:Hc; simpl.
    + destruct (span p s) as [a b] eqn:Hspan. simpl in *.
      replace (i + S (length a)) with (S i + length a) by lia.
      destruct lo as [|lo].
      * rewrite IH. simpl.
        destruct (k (MState (S (i + length a)) b g)) eqn:Hka; [reflexivity|].
        now apply Hk in Hka.
      * now rewrite IH.
    + rewrite Nat.add_0_r. now destruct lo.
Qed.

Section BareNumber.
Context `{Unicode}.

Lemma number_at_split (s tok s' : str) :
  number_at s = Some (tok, s') -> s = tok ++ s'.
Proof.
  unfold number_at. pose proof (span_split is_decimal s) as Hs.
  destruct (span is_decimal s) as [ds r]. simpl in Hs.
  destruct ds as [|d ds]; [discriminate|].
  destruct r as [|c r'].
  - intros E. inversion E; subst. reflexivity.
  - destruct (c =? chr ".")%N.
    + pose proof (span_split is_decimal r') as Hr.
      destruct (span is_decimal r') as [fs r'']. simpl in Hr.
      destruct fs as [|f fs]; intros E; inversion E; subst; simpl.
      * reflexivity.
      * now rewrite <- app_assoc.
    + intros E. inversion E; subst. reflexivity.
Qed.

Lemma run_number_total {A : Type} (k : mstate -> option A) (st : mstate) :
  (forall st', k st' <> None) ->
  run number k st =
  match number_at (rest st) with
  | Some (tok, s') => k (MState (pos st + length tok) s' (grp st))
  | None => None
  end.
Proof.
  intros Hk. unfold number, Opt. simpl run.
  rewrite rep_greedy_total.
  2:{ intros st' E. destruct (match rest st' with [] => _ | _ => _ end);
      [discriminate|]. now apply Hk in E. }
  unfold number_at.
  destruct (span is_decimal (rest st)) as [ds r]. simpl fst. simpl snd.
  destruct ds as [|d ds]; [reflexivity|].
  change (1 <=? length (d :: ds)) with true. cbv iota. simpl rest.
  destruct r as [|c r'].
  - simpl. reflexivity.
  - change (match c with 0%N => false | N.pos q => (46 =? q)%positive end)
      with (chr "." =? c)%N.
    rewrite (N.eqb_sym c). destruct (chr "." =? c)%N.
    + simpl pos. simpl grp. rewrite rep_greedy_total by assumption.
      destruct (span is_decimal r') as [fs r'']. simpl fst. simpl snd.
      destruct fs as [|f fs]; simpl Nat.leb; cbv iota.
      * reflexivity.
      * destruct (k _) eqn:Hka.
        -- rewrite <- Hka. f_equal. f_equal.
           rewrite length_app. simpl. lia.
        -- now apply Hk in Hka.
    + reflexivity.
Qed.

(** [re.search(r'(\d+(?:\.\d+)?)', text)] captures the first numeric
    token of the text, and fails when there is none. *)
Lemma search_bare_number (text : str) :
  forall i,
    option_map group1 (search_from bare_number i text)
    = option_map Some (first_numeric_token text).
Proof.
  assert (Hhead : forall i s,
             run bare_number (finish i) (MState i s None) =
             match number_at s with
             | Some (tok, _) => Some (RMatch i (i + length tok) (Some tok))
             | None => None
             end).
  { intros i s. unfold bare_number. cbn [run].
    rewrite run_number_total by discriminate. simpl.
    destruct (number_at s) as [[tok s']|] eqn:Hn; [|reflexivity].
    apply number_at_split in Hn. subst s. unfold finish. simpl.
    replace (i + length tok - i) with (length tok) by lia.
    rewrite firstn_app, Nat.sub_diag, firstn_all. simpl.
    now rewrite app_nil_r. }
  induction text as [|c s IH]; intros i; cbn [search_from]; rewrite Hhead;
    cbn [first_numeric_token].
  - now destruct (number_at []) as [[tok s']|].
  - destruct (number_at (c :: s)) as [[tok s']|]; [reflexivity|]. apply IH.
Qed.

Lemma first_numeric_token_exists (text : str) :
  existsb is_decimal text = true ->
  exists tok, first_numeric_token text = Some tok.
Proof.
  induction text as [|c s IH]; simpl existsb; [discriminate|].
  intros Hd. simpl first_numeric_token.
  destruct (number_at (c :: s)) as [[tok s']|] eqn:Hn; [eauto|].
  destruct (is_decimal c) eqn:Hc; simpl in Hd; [|auto].
  exfalso. unfold number_at in Hn. simpl span in Hn. rewrite Hc in Hn.
  destruct (span is_decimal s) as [a b].
  destruct b as [|x b']; [discriminate|].
  destruct (x =? chr ".")%N; [|discriminate].
  destruct (span is_decimal b') as [[|f fs] r'']; discriminate.
Qed.

(** The first numeric token starts at the first digit of the text. *)
Lemma first_numeric_token_position (text tok : str) :
  first_numeric_token text = Some tok ->
  exists pre post,
    text = pre ++ tok ++ post /\ existsb is_decimal pre = false /\
    number_at (tok ++ post) = Some (tok, post).
Proof.
  induction text as [|c s IH]; simpl first_numeric_token.
  - destruct (number_at []) as [[t s']|] eqn:Hn; [|discriminate].
    discriminate.
  - destruct (number_at (c :: s)) as [[t s']|] eqn:Hn.
    + intros E. inversion E; subst t. exists [], s'.
      pose proof (number_at_split _ _ _ Hn) as Hs. simpl.
      rewrite <- Hs. auto.
    + intros Hs. destruct (IH Hs) as (pre & post & -> & Hpre & Hat).
      exists (c :: pre), post. simpl. rewrite Hpre.
      repeat split; auto.
      destruct (is_decimal c) eqn:Hc; [|reflexivity].
      exfalso. unfold number_at in Hn. simpl span in Hn. rewrite Hc in Hn.
      destruct (span is_decimal (pre ++ tok ++ post)) as [a b].
      destruct b as [|x b']; [discriminate|].
      destruct (x =? chr ".")%N; [|discriminate].
      destruct (span is_decimal b') as [[|f fs] r'']; discriminate.
Qed.

End BareNumber.

(** ** The field extractor *)

Section ExtractorFacts.
Context `{Unicode} `{Library}.

Lemma py_float_number (tok : str) :
  lang number tok ->
  exists q, decimal_literal tok = Some q /\
            py_float (PStr tok) = Ok (binary64 q).
Proof.
  intros Hl. destruct (lang_number_literal _ Hl) as (q & Hq).
  exists q. split; [assumption|]. simpl. unfold float_of_str. now rewrite Hq.
Qed.

Lemma amount_rub_pattern : amount_pattern amount_rub.
Proof. right. eexists. split; reflexivity. Qed.

Lemma amount_usd_pattern : amount_pattern amount_usd.
Proof. right. eexists. split; reflexivity. Qed.

Lemma amount_eur_pattern : amount_pattern amount_eur.
Proof. right. eexists. split; reflexivity. Qed.

Lemma bare_number_pattern : amount_pattern bare_number.
Proof. now left. Qed.

Lemma amount_search_token (r : regex) (text : str) (m : rmatch) :
  amount_pattern r ->
  search r text = Some m ->
  exists pre tok post,
    text = pre ++ tok ++ post /\ lang number tok /\ group m = PStr tok.
Proof.
  intros [->|(tail & -> & Hng)] Hs.
  - apply search_bare_group in Hs as (pre & w & post & Ht & Hl & Hg & _).
    exists pre, w, post. unfold group. now rewrite Hg.
  - apply search_group_first in Hs as (pre & w & post & Ht & Hl & Hg & _);
      [|assumption].
    exists pre, w, post. unfold group. now rewrite Hg.
Qed.

(** [float(match.group(1))] succeeds after every amount search. *)
Lemma amount_search_float (r : regex) (text : str) (m : rmatch) :
  amount_pattern r ->
  search r text = Some m ->
  exists tok q,
    group m = PStr tok /\ decimal_literal tok = Some q /\
    py_float (group m) = Ok (binary64 q).
Proof.
  intros Hp Hs.
  destruct (amount_search_token _ _ _ Hp Hs)
    as (pre & tok & post & _ & Hl & Hg).
  destruct (py_float_number _ Hl) as (q & Hq & Hf).
  exists tok, q. rewrite Hg. auto.
Qed.

(** No digit in the text: no amount pattern is found. *)
Lemma amount_search_needs_digit (r : regex) (text : str) :
  amount_pattern r ->
  existsb is_decimal text = false ->
  search r text = None.
Proof.
  intros Hp Hno. destruct (search r text) as [m|] eqn:Hs; [|reflexivity].
  destruct (amount_search_token _ _ _ Hp Hs)
    as (pre & tok & post & -> & Hl & _).
  destruct (lang_number_head _ Hl) as (d & t & -> & Hd).
  rewrite existsb_app in Hno. simpl in Hno. rewrite Hd in Hno.
  simpl in Hno. now rewrite orb_true_r in Hno.
Qed.

(** The currency loop is a priority list: the first pattern of the list
    that is found in the text decides, whatever the later ones match and
    wherever in the text they match. *)
Lemma currency_loop_priority (text : str) (before after : list (str * regex))
    (curr_type : str) (pattern : regex) (m : rmatch) :
  (forall c p, In (c, p) before -> search p text = None) ->
  search pattern text = Some m ->
  currency_loop text (before ++ (curr_type, pattern) :: after)
  = (a <- py_float (group m) ;; Ok (Some (a, curr_type))).
Proof.
  intros Hbefore Hs. induction before as [|[c p] before IH]; simpl.
  - now rewrite Hs.
  - rewrite (Hbefore c p) by now left. apply IH.
    intros c' p' Hin. apply (Hbefore c' p'). now right.
Qed.

Lemma currency_loop_none (text : str) (l : list (str * regex)) :
  (forall c p, In (c, p) l -> search p text = None) ->
  currency_loop text l = Ok None.
Proof.
  induction l as [|[c p] l IH]; simpl; intros Hl; [reflexivity|].
  rewrite (Hl c p) by now left. apply IH.
  intros c' p' Hin. apply (Hl c' p'). now right.
Qed.

(** The currency loop never raises, and what it finds is one of the three
    currencies with the value of the captured token. *)
Lemma currency_loop_total (text : str) :
  currency_loop text currency_patterns = Ok None /\
  search amount_rub text = None /\ search amount_usd text = None /\
  search amount_eur text = None
  \/
  exists c r m tok q,
    In (c, r) currency_patterns /\ search r text = Some m /\
    group m = PStr tok /\ decimal_literal tok = Some q /\
    currency_loop text currency_patterns = Ok (Some (binary64 q, c)).
Proof.
  unfold currency_patterns. simpl currency_loop.
  destruct (search amount_rub text) as [m|] eqn:Hrub.
  { right.
    destruct (amount_search_float _ _ _ amount_rub_pattern Hrub)
      as (tok & q & Hg & Hq & Hf).
    exists (u "RUB"), amount_rub, m, tok, q. rewrite Hf.
    repeat split; auto. now left. }
  destruct (search amount_usd text) as [m|] eqn:Husd.
  { right.
    destruct (amount_search_float _ _ _ amount_usd_pattern Husd)
      as (tok & q & Hg & Hq & Hf).
    exists (u "USD"), amount_usd, m, tok, q. rewrite Hf.
    repeat split; auto. right. now left. }
  destruct (search amount_eur text) as [m|] eqn:Heur.
  { right.
    destruct (amount_search_float _ _ _ amount_eur_pattern Heur)
      as (tok & q & Hg & Hq & Hf).
    exists (u "EUR"), amount_eur, m, tok, q. rewrite Hf.
    repeat split; auto. right. right. now left. }
  left. auto.
Qed.

Lemma search_group_str (r : regex) (text : str) (m : rmatch) :
  sets_group r = true ->
  search r text = Some m ->
  exists g, group m = PStr g.
Proof.
  intros Hsg Hs.
  apply search_sound in Hs as (pre & w & post & _ & _ & _ & _ & Hg).
  specialize (Hg Hsg). unfold group.
  destruct (group1 m) as [g|]; [eauto|]. now elim Hg.
Qed.

Lemma unknown_recipient_clean :
  strip (one_of (u ".,!?;:"))
    (sub (Rep true is_space 1 None) (u " ") unknown_recipient)
  = unknown_recipient.
Proof. vm_compute. reflexivity. Qed.

(** Once amount and currency are set, the rest of the extraction cannot
    fail: every key of the field map is filled. *)
Lemma extract_fields (text : str) (found : option (pyfloat * str))
    (a : pyfloat) (c : str) :
  currency_loop text currency_patterns = Ok found ->
  (found = Some (a, c) \/
   found = None /\ c = u "RUB" /\
   exists m, search bare_number text = Some m /\ py_float (group m) = Ok a) ->
  exists r acct ib desc,
    _extract_with_regex text =
    Ok [(u "amount", PFloat a); (u "currency", PStr c);
        (u "recipient", PStr r); (u "account_number", acct);
        (u "iban", ib); (u "description", desc)] /\
    (search recipient_pattern text = None -> r = unknown_recipient).
Proof.
  intros Hloop Hfound. unfold _extract_with_regex. rewrite Hloop.
  cbn [bind].
  assert (Hnext :
    (match found with
     | Some _ => Ok found
     | None =>
         match search bare_number text with
         | Some m => a0 <- py_float (group m) ;; Ok (Some (a0, u "RUB"))
         | None => Ok None
         end
     end) = Ok (Some (a, c))).
  { destruct Hfound as [->|(-> & -> & m & Hs & Hf)]; [reflexivity|].
    rewrite Hs, Hf. reflexivity. }
  rewrite Hnext. cbn [bind].
  destruct (search recipient_pattern text) as [mr|] eqn:Hrec.
  - destruct (search_group_str recipient_pattern _ _ eq_refl Hrec)
      as (g & Hg).
    rewrite Hg. cbn [py_strip bind].
    destruct (search description_pattern text) as [md|] eqn:Hdesc.
    + destruct (search_group_str description_pattern _ _ eq_refl Hdesc)
        as (gd & Hgd).
      rewrite Hgd. cbn [py_strip bind].
      do 4 eexists. split; [reflexivity|discriminate].
    + cbn [bind]. do 4 eexists. split; [reflexivity|discriminate].
  - cbn [bind]. rewrite unknown_recipient_clean.
    destruct (search description_pattern text) as [md|] eqn:Hdesc.
    + destruct (search_group_str description_pattern _ _ eq_refl Hdesc)
        as (gd & Hgd).
      rewrite Hgd. cbn [py_strip bind].
      do 4 eexists. split; [reflexivity|auto].
    + cbn [bind]. do 4 eexists. split; [reflexivity|auto].
Qed.

End ExtractorFacts.

(** ** The record builder and the per-item pipeline *)

Section PipelineFacts.
Context `{Unicode} `{Library}.

Lemma parse_body_of_fields (text : str) (a : pyfloat) (c r : str)
    (acct ib desc : pyval) :
  has_json_block text = false ->
  _extract_with_regex text =
    Ok [(u "amount", PFloat a); (u "currency", PStr c);
        (u "recipient", PStr r); (u "account_number", acct);
        (u "iban", ib); (u "description", desc)] ->
  parse_body text =
    Ok {| amount := a; currency := str_upper c; recipient := PStr r;
          account_number := acct; iban := ib; description := desc |}.
Proof.
  intros Hj Hex. unfold parse_body. rewrite Hj, Hex. reflexivity.
Qed.

Lemma parse_of_body (text : str) (t : TransactionData) :
  parse_body text = Ok t -> parse text = Ok t.
Proof. intros Hb. unfold parse. now rewrite Hb. Qed.

(** A text without digits has no amount. *)
Lemma extract_without_digit (text : str) :
  existsb is_decimal text = false ->
  _extract_with_regex text = Raise (ValueError no_amount_msg).
Proof.
  intros Hno. unfold _extract_with_regex.
  rewrite currency_loop_none.
  - cbn [bind].
    now rewrite (amount_search_needs_digit _ _ bare_number_pattern Hno).
  - intros c p [E|[E|[E|[]]]]; inversion E; subst;
      apply amount_search_needs_digit;
      auto using amount_rub_pattern, amount_usd_pattern, amount_eur_pattern.
Qed.

Lemma no_number_fails_to_parse (text : str) :
  existsb is_decimal text = false ->
  has_json_block text = false ->
  _extract_with_regex text = Raise (ValueError no_amount_msg) /\
  parse text = Raise (ValueError (parse_failed_msg text)).
Proof.
  intros Hno Hj. pose proof (extract_without_digit _ Hno) as Hex.
  split; [assumption|]. unfold parse, parse_body. now rewrite Hj, Hex.
Qed.

(** A text with a digit and no JSON block is parsed into a record. *)
Lemma parse_with_digit (text : str) :
  has_json_block text = false ->
  existsb is_decimal text = true ->
  exists tok q c r acct ib desc,
    decimal_literal tok = Some q /\
    In c [u "RUB"; u "USD"; u "EUR"] /\
    (search amount_rub text = None -> search amount_usd text = None ->
     search amount_eur text = None ->
     c = u "RUB" /\ first_numeric_token text = Some tok) /\
    (search recipient_pattern text = None -> r = unknown_recipient) /\
    _extract_with_regex text =
      Ok [(u "amount", PFloat (binary64 q)); (u "currency", PStr c);
          (u "recipient", PStr r); (u "account_number", acct);
          (u "iban", ib); (u "description", desc)] /\
    parse_body text =
      Ok {| amount := binary64 q; currency := c; recipient := PStr r;
            account_number := acct; iban := ib; description := desc |}.
Proof.
  intros Hj Hd.
  assert (Hup : forall c, In c [u "RUB"; u "USD"; u "EUR"] ->
                          str_upper c = c).
  { intros c [<-|[<-|[<-|[]]]]; now apply str_upper_capitals. }
  destruct (currency_loop_total text)
    as [(Hloop & Hrub & Husd & Heur)|(c & r0 & m & tok & q & Hin & Hs & Hg
                                      & Hq & Hloop)].
  - destruct (first_numeric_token_exists _ Hd) as (tok & Htok).
    pose proof (search_bare_number text 0) as Hbare.
    rewrite Htok in Hbare. fold (search bare_number text) in Hbare.
    destruct (search bare_number text) as [m|] eqn:Hs; [|discriminate].
    simpl in Hbare. injection Hbare as Hg1.
    destruct (amount_search_float _ _ _ bare_number_pattern Hs)
      as (tok' & q & Hg & Hq & Hf).
    assert (tok' = tok) as ->.
    { unfold group in Hg. rewrite Hg1 in Hg. now inversion Hg. }
    destruct (extract_fields text None (binary64 q) (u "RUB") Hloop)
      as (r & acct & ib & desc & Hex & Hr).
    { right. repeat split; auto. exists m. auto. }
    exists tok, q, (u "RUB"), r, acct, ib, desc.
    split; [exact Hq|]. split; [now left|]. split; [auto|].
    split; [exact Hr|]. split; [exact Hex|].
    rewrite (parse_body_of_fields _ _ _ _ _ _ _ Hj Hex).
    rewrite Hup by now left. reflexivity.
  - assert (Hc : In c [u "RUB"; u "USD"; u "EUR"]).
    { destruct Hin as [E|[E|[E|[]]]]; inversion E; simpl; auto. }
    destruct (extract_fields text _ (binary64 q) c Hloop)
      as (r & acct & ib & desc & Hex & Hr); [now left|].
    exists tok, q, c, r, acct, ib, desc.
    split; [exact Hq|]. split; [exact Hc|]. split.
    { intros Hrub Husd Heur. exfalso.
      destruct Hin as [E|[E|[E|[]]]]; inversion E; subst; congruence. }
    split; [exact Hr|]. split; [exact Hex|].
    rewrite (parse_body_of_fields _ _ _ _ _ _ _ Hj Hex).
    now rewrite Hup.
Qed.

(** [process_transaction] turns a failure of the extraction step into a
    failed result. *)
Lemma process_transaction_failure (p : TransactionProcessor) (text : str)
    (e : exn) :
  extract p text = Raise e ->
  process_transaction p text =
    {| transaction_data := None; validation_result := None;
       error := Some e; processing_method := Error |}.
Proof. intros He. unfold process_transaction. now rewrite He. Qed.

(** [batch_process] is the per-item function applied to every text. *)
Lemma batch_process_map (p : TransactionProcessor) (texts : list str) :
  batch_process p texts = map (process_transaction p) texts.
Proof.
  unfold batch_process.
  assert (Hgen : forall acc,
             fold_left
               (fun results text => results ++ [process_transaction p text])
               texts acc
             = acc ++ map (process_transaction p) texts).
  { induction texts as [|t texts IH]; intros acc; simpl.
    - now rewrite app_nil_r.
    - rewrite IH, <- app_assoc. reflexivity. }
  apply (Hgen []).
Qed.

(** C6: a text with no digit and no JSON block has no amount: the
    extractor raises its error, [parse] re-raises it as its own, and
    [process_transaction] - in pattern mode, or when the configured
    service gives no usable answer - returns the failed result with
    [transaction_data] and [validation_result] empty and the error
    recorded.  [process_transaction] is a total function: it has a
    result on every input. *)
Theorem no_number_is_contained_failure (text : str) :
  existsb is_decimal text = false ->
  has_json_block text = false ->
  _extract_with_regex text = Raise (ValueError no_amount_msg) /\
  parse text = Raise (ValueError (parse_failed_msg text)) /\
  forall p,
    (llm p = None \/
     exists service,
       llm p = Some service /\
       forall t, (response <- service (prompt text) ;; parse response)
                 <> Ok t) ->
    process_transaction p text =
      {| transaction_data := None; validation_result := None;
         error := Some (ValueError (parse_failed_msg text));
         processing_method := Error |}.
Proof.
  intros Hno Hj.
  destruct (no_number_fails_to_parse _ Hno Hj) as (Hex & Hparse).
  repeat split; auto.
  intros p Hmode. apply process_transaction_failure. unfold extract.
  destruct Hmode as [->|(service & -> & Hfail)]; [assumption|].
  unfold _extract_with_llm.
  destruct (response <- service (prompt text) ;; parse response) as [t|e];
    [now elim (Hfail t)|assumption].
Qed.

(** C7: when none of the three currency patterns is found and the text
    has a digit, the extractor returns the field map whose currency is
    RUB and whose amount is [float] of the first numeric token of the
    text: the token that starts at the first digit. *)
Theorem bare_number_defaults_to_rub (text : str) :
  search amount_rub text = None ->
  search amount_usd text = None ->
  search amount_eur text = None ->
  existsb is_decimal text = true ->
  exists tok q before after r acct ib desc,
    first_numeric_token text = Some tok /\
    text = before ++ tok ++ after /\ existsb is_decimal before = false /\
    decimal_literal tok = Some q /\
    _extract_with_regex text =
      Ok [(u "amount", PFloat (binary64 q)); (u "currency", PStr (u "RUB"));
          (u "recipient", PStr r); (u "account_number", acct);
          (u "iban", ib); (u "description", desc)].
Proof.
  intros Hrub Husd Heur Hd.
  assert (Hloop : currency_loop text currency_patterns = Ok None).
  { apply currency_loop_none.
    intros c p [E|[E|[E|[]]]]; inversion E; subst; assumption. }
  destruct (first_numeric_token_exists _ Hd) as (tok & Htok).
  destruct (first_numeric_token_position _ _ Htok)
    as (before & after & Htext & Hbefore & _).
  pose proof (search_bare_number text 0) as Hbare.
  rewrite Htok in Hbare. fold (search bare_number text) in Hbare.
  destruct (search bare_number text) as [m|] eqn:Hs; [|discriminate].
  simpl in Hbare. injection Hbare as Hg1.
  destruct (amount_search_float _ _ _ bare_number_pattern Hs)
    as (tok' & q & Hg & Hq & Hf).
  assert (tok' = tok) as ->.
  { unfold group in Hg. rewrite Hg1 in Hg. now inversion Hg. }
  destruct (extract_fields text None (binary64 q) (u "RUB") Hloop)
    as (r & acct & ib & desc & Hex & _).
  { right. repeat split; auto. exists m. auto. }
  exists tok, q, before, after, r, acct, ib, desc. auto.
Qed.

(** C10: on a text without a JSON block the missing-fields failure of
    the builder cannot occur; and when such a text has a digit, [parse]
    returns a record: its amount is [float] of a numeric token, its
    currency is RUB, USD or EUR - RUB when no currency pattern is found -
    and its recipient is a string, the sentinel when the recipient pattern
    is not found. *)
Theorem regex_path_always_builds (text : str) :
  has_json_block text = false ->
  parse_body text <> Raise (ValueError missing_fields_msg) /\
  (existsb is_decimal text = true ->
   exists t tok q r,
     parse text = Ok t /\
     decimal_literal tok = Some q /\ amount t = binary64 q /\
     In (currency t) [u "RUB"; u "USD"; u "EUR"] /\
     recipient t = PStr r /\
     (search recipient_pattern text = None -> r = unknown_recipient) /\
     (search amount_rub text = None -> search amount_usd text = None ->
      search amount_eur text = None -> currency t = u "RUB")).
Proof.
  intros Hj. split.
  - destruct (existsb is_decimal text) eqn:Hd.
    + destruct (parse_with_digit _ Hj Hd)
        as (tok & q & c & r & acct & ib & desc & _ & _ & _ & _ & _ & Hb).
      rewrite Hb. discriminate.
    + unfold parse_body. rewrite Hj, (extract_without_digit _ Hd).
      cbn [bind]. intros E. injection E as E. vm_compute in E. discriminate.
  - intros Hd.
    destruct (parse_with_digit _ Hj Hd)
      as (tok & q & c & r & acct & ib & desc & Hq & Hc & Hdef & Hr & _ & Hb).
    eexists. exists tok, q, r.
    split; [apply parse_of_body, Hb|]. simpl.
    repeat split; auto. intros Hrub Husd Heur. now apply Hdef.
Qed.

(** On the JSON path the missing-fields failure does occur: a decoded
    object without the mandatory keys is rejected by the builder. *)
Lemma json_path_reaches_missing_fields (text : str) :
  has_json_block text = true ->
  json_loads (slice text (find (chr "{") text) (rfind (chr "}") text + 1))
  = Ok [] ->
  parse_body text = Raise (ValueError missing_fields_msg).
Proof. intros Hj Hload. unfold parse_body. now rewrite Hj, Hload. Qed.

(** C8: [batch_process] returns one result per text, in the order of
    the texts; each result is the one [process_transaction] gives for
    that text by itself, and an item whose extraction raises has no
    [transaction_data] and has its error recorded. *)
Theorem batch_is_itemwise (p : TransactionProcessor) (texts : list str) :
  batch_process p texts = map (process_transaction p) texts /\
  length (batch_process p texts) = length texts /\
  (forall k text,
      nth_error texts k = Some text ->
      nth_error (batch_process p texts) k
      = Some (process_transaction p text)) /\
  (forall k text e,
      nth_error texts k = Some text ->
      extract p text = Raise e ->
      exists res,
        nth_error (batch_process p texts) k = Some res /\
        transaction_data res = None /\ validation_result res = None /\
        error res = Some e).
Proof.
  rewrite batch_process_map. split; [reflexivity|].
  split; [apply length_map|]. split.
  - intros k text Hk. now apply map_nth_error.
  - intros k text e Hk He. exists (process_transaction p text). split.
    + now apply map_nth_error.
    + rewrite (process_transaction_failure _ _ _ He). auto.
Qed.

End PipelineFacts.

(** ** The rule validator *)

Lemma bind_ok {A B : Type} (c : result A) (k : A -> result B) (b : B) :
  bind c k = Ok b -> exists a, c = Ok a /\ k a = Ok b.
Proof. destruct c as [a|e]; simpl; [eauto|discriminate]. Qed.

Lemma item_of_has_key {V : Type} (key : str) (d : list (str * V)) :
  has_key key d = true -> exists v, lookup key d = Some v /\ item key d = Ok v.
Proof.
  unfold has_key, item. destruct (lookup key d); [eauto|discriminate].
Qed.

(** The two bound tables have the same keys. *)
Lemma bounds_parallel (c : str) :
  (exists limit minimum,
      lookup c max_amounts = Some limit /\
      lookup c min_amounts = Some minimum /\
      In (c, limit) max_amounts /\ In (c, minimum) min_amounts)
  \/ lookup c max_amounts = None /\ lookup c min_amounts = None.
Proof.
  assert (Heq : forall a b, str_eqb a b = true -> a = b).
  { induction a as [|x a IH]; destruct b as [|y b]; simpl; try discriminate;
      auto.
    intros Hab. apply andb_prop in Hab as [Hx Hab].
    apply N.eqb_eq in Hx. subst. f_equal. auto. }
  unfold max_amounts, min_amounts. cbn [lookup].
  destruct (str_eqb (u "USD") c) eqn:E1.
  { apply Heq in E1. subst c. left. do 2 eexists.
    repeat split; simpl; auto. }
  destruct (str_eqb (u "EUR") c) eqn:E2.
  { apply Heq in E2. subst c. left. do 2 eexists.
    repeat split; simpl; auto. }
  destruct (str_eqb (u "RUB") c) eqn:E3.
  { apply Heq in E3. subst c. left. do 2 eexists.
    repeat split; simpl; auto. }
  now right.
Qed.

Lemma float_gt_above (f : pyfloat) (n : Z) :
  float_gt f n = true <-> float_above f n.
Proof.
  destruct f as [q|[|]|]; simpl; try (split; [discriminate|tauto]);
    try tauto; try (split; congruence).
  rewrite negb_true_iff, <- not_true_iff_false, Qle_bool_iff.
  split; [apply Qnot_le_lt|apply Qlt_not_le].
Qed.

Lemma float_lt_below (f : pyfloat) (n : Z) :
  float_lt f n = true <-> float_below f n.
Proof.
  destruct f as [q|[|]|]; simpl; try (split; [discriminate|tauto]);
    try tauto; try (split; congruence).
  rewrite negb_true_iff, <- not_true_iff_false, Qle_bool_iff.
  split; [apply Qnot_le_lt|apply Qlt_not_le].
Qed.

Section ValidatorFacts.
Context `{Unicode}.

Lemma blocked_loop_spec (v : pyval) (lower : str) (l : list str)
    (errs : list error_msg) :
  blocked_loop v lower l errs =
  errs ++ (if existsb (fun blocked => contains blocked lower) l
           then [BlockedRecipient v] else []).
Proof.
  induction l as [|b l IH]; simpl.
  - now rewrite app_nil_r.
  - destruct (contains b lower); simpl; [reflexivity|apply IH].
Qed.

Lemma validate_iban_total (s : str) : exists b, _validate_iban (PStr s) = Ok b.
Proof.
  unfold _validate_iban.
  destruct (_ || _); [eauto|].
  destruct (re_match _ _); [|eauto].
  destruct (has_key _ _) eqn:Hk; [|eauto].
  destruct (item_of_has_key _ _ Hk) as (n & _ & ->). cbn [bind].
  destruct (_ && _); eauto.
Qed.

Lemma validate_account_number_total (s : str) :
  exists b, _validate_account_number (PStr s) = Ok b.
Proof.
  unfold _validate_account_number.
  destruct (negb _); [eauto|].
  destruct (_ || _); [eauto|].
  destruct (_ && _); eauto.
Qed.

(** When the recipient is a string and the structural checks return, the
    validator returns, and its verdict lists the outcome of the rules in
    the order of the rule table. *)
Lemma validate_transaction_rules (t : TransactionData) (r : str) :
  recipient t = PStr r ->
  checks_return t ->
  validate_transaction t =
    Ok {| is_valid := length (rule_errors t r) =? 0;
          errors := rule_errors t r;
          warnings := rule_warnings t r;
          transaction := t |}.
Proof.
  intros Hr (Hi & Ha).
  unfold validate_transaction, rule_errors, rule_warnings, bound_errors,
    blocked_errors, mentions_blocked, length_errors, length_warnings,
    currency_warnings, iban_warnings, account_warnings, advisory_warnings.
  unfold has_key at 1. unfold item.
  rewrite Hr. cbn [py_lower py_len].
  destruct (bounds_parallel (currency t))
    as [(limit & minimum & -> & -> & _)|[-> _]]; cbn [bind];
    rewrite blocked_loop_spec.
  all: destruct (truthy (iban t));
    [destruct (Hi eq_refl) as (bi & ->)|].
  all: destruct (truthy (account_number t));
    [destruct (Ha eq_refl) as (ba & ->)|].
  all: cbn [bind].
  all: f_equal; f_equal.
  all: repeat match goal with
       | |- context [negb ?b] => destruct b; cbn [negb]
       | |- context [if ?b then _ else _] => destruct b
       end; reflexivity.
Qed.

(** The validator returns only under these conditions. *)
Lemma validate_transaction_returns (t : TransactionData) (v : Verdict) :
  validate_transaction t = Ok v ->
  exists r, recipient t = PStr r /\ checks_return t.
Proof.
  intros Hv. unfold validate_transaction in Hv.
  apply bind_ok in Hv as (e1 & _ & Hv).
  apply bind_ok in Hv as (lower & Hl & Hv).
  apply bind_ok in Hv as (n & _ & Hv).
  apply bind_ok in Hv as (w1 & Hw1 & Hv).
  apply bind_ok in Hv as (w2 & Hw2 & _).
  destruct (recipient t) as [| | | |r| |]; try discriminate Hl.
  exists r. split; [reflexivity|]. split; intros Ht.
  - rewrite Ht in Hw1. apply bind_ok in Hw1 as (ok & Hok & _). eauto.
  - rewrite Ht in Hw2. apply bind_ok in Hw2 as (ok & Hok & _). eauto.
Qed.

Lemma well_typed_checks (t : TransactionData) :
  well_typed t -> exists r, recipient t = PStr r /\ checks_return t.
Proof.
  intros (Hr & Hi & Ha).
  destruct (recipient t) as [| | | |r| |]; try discriminate Hr.
  exists r. split; [reflexivity|]. split; intros Ht.
  - destruct (iban t) as [| | | |si| |]; try discriminate.
    apply validate_iban_total.
  - destruct (account_number t) as [| | | |sa| |]; try discriminate.
    apply validate_account_number_total.
Qed.

(** On a well-typed record the validator returns. *)
Lemma validate_transaction_typed (t : TransactionData) (r : str) :
  recipient t = PStr r ->
  str_or_none (iban t) = true ->
  str_or_none (account_number t) = true ->
  validate_transaction t =
    Ok {| is_valid := length (rule_errors t r) =? 0;
          errors := rule_errors t r;
          warnings := rule_warnings t r;
          transaction := t |}.
Proof.
  intros Hr Hi Ha. apply validate_transaction_rules; [assumption|].
  destruct (well_typed_checks t) as (r' & _ & Hc); [|assumption].
  repeat split; auto. now rewrite Hr.
Qed.

(** Every verdict the validator returns is the one of the rule table. *)
Lemma verdict_of_rules (t : TransactionData) (v : Verdict) :
  validate_transaction t = Ok v ->
  exists r,
    recipient t = PStr r /\
    v = {| is_valid := length (rule_errors t r) =? 0;
           errors := rule_errors t r;
           warnings := rule_warnings t r;
           transaction := t |}.
Proof.
  intros Hv. destruct (validate_transaction_returns _ _ Hv) as (r & Hr & Hc).
  exists r. split; [assumption|].
  rewrite (validate_transaction_rules _ _ Hr Hc) in Hv. now injection Hv.
Qed.

End ValidatorFacts.

(** ** The IBAN format *)

Lemma rep_exactly_two {A : Type} (p : cp -> bool) (k : mstate -> option A)
    (g : option str) (i : nat) (s : str) :
  rep true p k g 2 (Some 2) i s =
  match s with
  | a :: b :: s' => if p a && p b then k (MState (S (S i)) s' g) else None
  | _ => None
  end.
Proof.
  destruct s as [|a [|b s']]; simpl; try reflexivity.
  - now destruct (p a).
  - destruct (p a), (p b); simpl; try reflexivity.
    destruct s' as [|c s'']; [reflexivity|].
    simpl. now rewrite andb_false_r.
Qed.

Lemma run_eol {A : Type} (k : mstate -> option A) (st : mstate) :
  run Eol k st = if at_end (rest st) then k st else None.
Proof.
  simpl. destruct (rest st) as [|x [|y tail]]; reflexivity.
Qed.

Lemma upper_or_digit_not_newline (c : cp) :
  upper_or_digit c = true -> (c =? 10)%N = false.
Proof.
  unfold upper_or_digit, is_ascii_upper, is_ascii_digit, in_range.
  intros Hc. apply N.eqb_neq. intros ->. discriminate.
Qed.

(** [[A-Z0-9]+$]: the run of capitals and digits must reach the end of
    the text, or the line feed that ends it. *)
Lemma rep_then_eol {A : Type} (k : mstate -> option A) (g : option str) :
  forall s lo i,
    rep true upper_or_digit (run Eol k) g lo None i s =
    if (lo <=? length (fst (span upper_or_digit s)))
       && at_end (snd (span upper_or_digit s))
    then k (MState (i + length (fst (span upper_or_digit s)))
              (snd (span upper_or_digit s)) g)
    else None.
Proof.
  induction s as [|c s IH]; intros lo i.
  - destruct lo; simpl; [|reflexivity]. now rewrite Nat.add_0_r.
  - destruct lo as [|lo]; cbn [rep span];
      destruct (upper_or_digit c) eqn:Hc; cbn [andb room less option_map];
      try rewrite IH; destruct (span upper_or_digit s) as [body tail];
      cbn [fst snd length Nat.leb andb];
      try replace (i + S (length body)) with (S i + length body) by lia;
      try rewrite Nat.add_0_r; try reflexivity.
    + rewrite run_eol. cbn [rest].
      assert (Hend : at_end (c :: s) = false).
      { destruct s; simpl; [now apply upper_or_digit_not_newline|].
        reflexivity. }
      rewrite Hend. now destruct (if at_end tail then _ else _).
    + now rewrite run_eol.
Qed.

Section IbanFacts.
Context `{Unicode}.

(** [re.match] of the IBAN format decides [iban_shape]. *)
Lemma re_match_iban_format (s : str) :
  match re_match iban_format s with
  | Some _ => true
  | None => false
  end = iban_shape s.
Proof.
  change (re_match iban_format s) with
    (rep true is_ascii_upper
       (fun st1 =>
          rep true is_decimal
            (fun st2 =>
               rep true upper_or_digit (run Eol (finish 0))
                 (grp st2) 1 None (pos st2) (rest st2))
            (grp st1) 2 (Some 2) (pos st1) (rest st1))
       None 2 (Some 2) 0 s).
  rewrite rep_exactly_two.
  destruct s as [|a [|b s2]]; try reflexivity.
  unfold iban_shape.
  destruct (is_ascii_upper a && is_ascii_upper b) eqn:Hab.
  2:{ destruct s2 as [|c [|d more]]; reflexivity. }
  cbn [andb pos rest grp]. rewrite rep_exactly_two.
  destruct s2 as [|c [|d more]]; try reflexivity.
  destruct (is_decimal c && is_decimal d) eqn:Hcd.
  2:{ reflexivity. }
  cbn [andb pos rest grp]. rewrite rep_then_eol.
  destruct (span upper_or_digit more) as [[|x body] [|y [|z tail]]];
    cbn [fst snd length Nat.leb andb at_end finish]; try reflexivity.
  now destruct (y =? 10)%N.
Qed.

Lemma country_rule (code : str) (n : nat) :
  (if has_key code country_lengths then
     expected_length <- item code country_lengths ;;
     if (0 <? expected_length) && negb (n =? expected_length)
     then Ok false else Ok true
   else Ok true)
  = Ok match lookup code
               [(u "RU", 33); (u "DE", 22); (u "FR", 27); (u "GB", 22)] with
       | Some e => n =? e
       | None => true
       end.
Proof.
  unfold has_key, item, country_lengths. cbn [lookup].
  destruct (str_eqb (u "RU") code); [cbn; now destruct (n =? 33)|].
  destruct (str_eqb (u "DE") code); [cbn; now destruct (n =? 22)|].
  destruct (str_eqb (u "FR") code); [cbn; now destruct (n =? 27)|].
  destruct (str_eqb (u "GB") code); [cbn; now destruct (n =? 22)|].
  destruct (str_eqb (u "US") code); reflexivity.
Qed.

(** The program's IBAN check, in closed form. *)
Lemma validate_iban_check (s : str) :
  _validate_iban (PStr s) = Ok (iban_check s).
Proof.
  unfold _validate_iban, iban_check. fold (remove_spaces s).
  set (s' := str_upper (remove_spaces s)).
  rewrite <- re_match_iban_format.
  destruct (length s' <? 15) eqn:Hlo.
  { apply Nat.ltb_lt in Hlo.
    replace (15 <=? length s') with false
      by (symmetry; apply Nat.leb_gt; lia). reflexivity. }
  apply Nat.ltb_ge in Hlo.
  replace (15 <=? length s') with true by (symmetry; apply Nat.leb_le; lia).
  destruct (34 <? length s') eqn:Hhi.
  { apply Nat.ltb_lt in Hhi.
    replace (length s' <=? 34) with false
      by (symmetry; apply Nat.leb_gt; lia). reflexivity. }
  apply Nat.ltb_ge in Hhi.
  replace (length s' <=? 34) with true by (symmetry; apply Nat.leb_le; lia).
  cbn [orb andb].
  destruct (re_match iban_format s'); [|reflexivity].
  cbn [andb]. apply country_rule.
Qed.

End IbanFacts.

(** ** The pattern path does not consult the library *)

Section AnyLibrary.
Context `{Unicode}.
Variables L1 L2 : Library.

Lemma py_float_any_library (r : regex) (text : str) (m : rmatch) :
  amount_pattern r ->
  search r text = Some m ->
  @py_float _ L1 (group m) = @py_float _ L2 (group m).
Proof.
  intros Hp Hs.
  destruct (@amount_search_float _ L1 _ _ _ Hp Hs)
    as (tok1 & q1 & Hg1 & Hq1 & ->).
  destruct (@amount_search_float _ L2 _ _ _ Hp Hs)
    as (tok2 & q2 & Hg2 & Hq2 & ->).
  congruence.
Qed.

Lemma currency_loop_any_library (text : str) (l : list (str * regex)) :
  (forall c p, In (c, p) l -> amount_pattern p) ->
  @currency_loop _ L1 text l = @currency_loop _ L2 text l.
Proof.
  induction l as [|[c p] l IH]; intros Hl; [reflexivity|]. simpl.
  destruct (search p text) as [m|] eqn:Hs.
  - now rewrite (py_float_any_library p text m (Hl c p (or_introl eq_refl))).
  - apply IH. intros c' p' Hin. apply (Hl c' p'). now right.
Qed.

Lemma extract_any_library (text : str) :
  @_extract_with_regex _ L1 text = @_extract_with_regex _ L2 text.
Proof.
  unfold _extract_with_regex.
  rewrite (currency_loop_any_library text currency_patterns).
  2:{ intros c p [E|[E|[E|[]]]]; inversion E; subst;
      auto using amount_rub_pattern, amount_usd_pattern,
        amount_eur_pattern. }
  destruct (@currency_loop _ L2 text currency_patterns) as [[found|]|e];
    try reflexivity.
  cbn [bind]. destruct (search bare_number text) as [m|] eqn:Hs;
    [|reflexivity].
  now rewrite (py_float_any_library _ _ _ bare_number_pattern Hs).
Qed.

(** On a text without a JSON block, [parse] is the same function under
    every library. *)
Lemma parse_any_library (text : str) :
  has_json_block text = false ->
  @parse _ L1 text = @parse _ L2 text.
Proof.
  intros Hj. destruct (existsb is_decimal text) eqn:Hd.
  - destruct (@parse_with_digit _ L1 text Hj Hd)
      as (tok & q & c & r & acct & ib & desc & _ & _ & _ & _ & Hex & _).
    pose proof Hex as Hex2. rewrite extract_any_library in Hex2.
    unfold parse.
    rewrite (@parse_body_of_fields _ L1 _ _ _ _ _ _ _ Hj Hex).
    rewrite (@parse_body_of_fields _ L2 _ _ _ _ _ _ _ Hj Hex2).
    reflexivity.
  - destruct (@no_number_fails_to_parse _ L1 text Hd Hj) as (_ & ->).
    destruct (@no_number_fails_to_parse _ L2 text Hd Hj) as (_ & ->).
    reflexivity.
Qed.

End AnyLibrary.

(** ** Verdicts *)

Section Verdicts.
Context `{Unicode}.

Lemma bound_errors_cases (a : pyfloat) (c : str) :
  (exists limit minimum,
      lookup c max_amounts = Some limit /\
      lookup c min_amounts = Some minimum /\
      bound_errors a c =
        (if float_gt a limit then [ExceedsLimit a c limit] else [])
        ++ (if float_lt a minimum then [BelowMinimum a c minimum] else []))
  \/ lookup c max_amounts = None /\ lookup c min_amounts = None /\
     bound_errors a c = [].
Proof.
  unfold bound_errors.
  destruct (bounds_parallel c) as [(limit & minimum & Hx & Hn & _)|[Hx Hn]];
    rewrite Hx, Hn; [left|right]; eauto.
Qed.

Lemma well_typed_recipient (t : TransactionData) :
  well_typed t ->
  exists r, recipient t = PStr r /\ str_or_none (iban t) = true /\
            str_or_none (account_number t) = true.
Proof.
  intros (Hr & Hi & Ha). destruct (recipient t) as [| | | |r| |];
    try discriminate. eauto.
Qed.

(** C1: for a currency with configured bounds the verdict has an
    exceeds-limit error exactly when the amount is strictly above the
    maximum, and a below-minimum error exactly when it is strictly below
    the minimum; for any other currency it has neither.  The configured
    bounds are USD 10000 and 1, EUR 8500 and 1, RUB 750000 and 100.  On a
    well-typed record the validator returns a verdict. *)
Theorem amount_bounds_exact (t : TransactionData) :
  (well_typed t -> exists v, validate_transaction t = Ok v) /\
  (forall v,
      validate_transaction t = Ok v ->
      (forall limit,
          lookup (currency t) max_amounts = Some limit ->
          (existsb is_exceeds_limit (errors v) = true
           <-> float_above (amount t) limit) /\
          (float_above (amount t) limit ->
           In (ExceedsLimit (amount t) (currency t) limit) (errors v))) /\
      (forall minimum,
          lookup (currency t) min_amounts = Some minimum ->
          (existsb is_below_minimum (errors v) = true
           <-> float_below (amount t) minimum) /\
          (float_below (amount t) minimum ->
           In (BelowMinimum (amount t) (currency t) minimum) (errors v))) /\
      (lookup (currency t) max_amounts = None ->
       existsb is_exceeds_limit (errors v) = false /\
       existsb is_below_minimum (errors v) = false)) /\
  max_amounts = [(u "USD", 10000%Z); (u "EUR", 8500%Z); (u "RUB", 750000%Z)]
  /\ min_amounts = [(u "USD", 1%Z); (u "EUR", 1%Z); (u "RUB", 100%Z)].
Proof.
  split; [|split; [|split; reflexivity]].
  { intros Ht. destruct (well_typed_checks _ Ht) as (r & Hr & Hc).
    rewrite (validate_transaction_rules _ _ Hr Hc). eauto. }
  intros v Hv. destruct (verdict_of_rules _ _ Hv) as (r & Hr & ->).
  cbn [errors]. unfold rule_errors.
  assert (Hx : forall f,
             f (BlockedRecipient (PStr r)) = false ->
             f RecipientTooShort = false ->
             existsb f (blocked_errors r) = false /\
             existsb f (length_errors r) = false).
  { intros f Hf1 Hf2. unfold blocked_errors, length_errors.
    destruct (mentions_blocked r), (length r <? 2); simpl;
      rewrite ?Hf1, ?Hf2; auto. }
  destruct (Hx is_exceeds_limit eq_refl eq_refl) as [Hx1 Hx2].
  destruct (Hx is_below_minimum eq_refl eq_refl) as [Hn1 Hn2].
  rewrite !existsb_app, Hx1, Hx2, Hn1, Hn2, !orb_false_r.
  destruct (bound_errors_cases (amount t) (currency t))
    as [(limit & minimum & Hmax & Hmin & ->)|(Hmax & Hmin & ->)];
    rewrite Hmax, Hmin.
  - split; [|split; [|discriminate]].
    + intros l E. injection E as <-. rewrite <- float_gt_above. split.
      * destruct (float_gt (amount t) limit),
          (float_lt (amount t) minimum); simpl; tauto.
      * intros ->. simpl. auto.
    + intros m E. injection E as <-. rewrite <- float_lt_below. split.
      * destruct (float_gt (amount t) limit),
          (float_lt (amount t) minimum); simpl; tauto.
      * intros ->. apply in_or_app. left. apply in_or_app. right.
        simpl. auto.
  - split; [discriminate|]. split; [discriminate|].
    intros _. split; reflexivity.
Qed.

Lemma mentions_blocked_iff (r : str) :
  mentions_blocked r = true <->
  exists blocked,
    In blocked blocked_recipients /\ contains blocked (str_lower r) = true.
Proof. unfold mentions_blocked. apply existsb_exists. Qed.

(** C2: a recipient whose lower-cased text contains a blocked keyword
    gets the blocked-recipient error, whatever the amount, and gets it
    once, however many keywords it contains; the verdict is invalid.  On
    a well-typed record the validator returns a verdict. *)
Theorem blocked_recipient_single_error (t : TransactionData) (r : str) :
  recipient t = PStr r ->
  (exists blocked,
      In blocked blocked_recipients /\
      contains blocked (str_lower r) = true) ->
  (str_or_none (iban t) = true -> str_or_none (account_number t) = true ->
   exists v, validate_transaction t = Ok v) /\
  (forall v,
      validate_transaction t = Ok v ->
      In (BlockedRecipient (PStr r)) (errors v) /\
      length (filter is_blocked_recipient (errors v)) = 1 /\
      is_valid v = false).
Proof.
  intros Hr Hb. apply mentions_blocked_iff in Hb. split.
  { intros Hi Ha. rewrite (validate_transaction_typed _ _ Hr Hi Ha). eauto. }
  intros v Hv. destruct (verdict_of_rules _ _ Hv) as (r' & Hr' & ->).
  assert (r' = r) as -> by congruence.
  cbn [errors is_valid].
  unfold rule_errors, blocked_errors. rewrite Hb.
  split; [|split].
  - apply in_or_app. right. now left.
  - rewrite !filter_app.
    assert (Hbe : filter is_blocked_recipient
                    (bound_errors (amount t) (currency t)) = []).
    { destruct (bound_errors_cases (amount t) (currency t))
        as [(limit & minimum & _ & _ & ->)|(_ & _ & ->)]; [|reflexivity].
      destruct (float_gt _ _), (float_lt _ _); reflexivity. }
    rewrite Hbe. unfold length_errors.
    now destruct (length r <? 2).
  - rewrite !length_app. simpl. apply Nat.eqb_neq. lia.
Qed.

(** C9: the verdict is valid exactly when its list of errors is empty;
    the warnings play no part.  On a well-typed record the validator
    returns a verdict. *)
Theorem valid_iff_no_errors (t : TransactionData) :
  (well_typed t -> exists v, validate_transaction t = Ok v) /\
  (forall v,
      validate_transaction t = Ok v ->
      (is_valid v = true <-> errors v = []) /\
      is_valid v = (length (errors v) =? 0)).
Proof.
  split.
  - intros Ht. destruct (well_typed_recipient _ Ht) as (r & Hr & Hi & Ha).
    rewrite (validate_transaction_typed _ _ Hr Hi Ha). eauto.
  - intros v Hv. unfold validate_transaction in Hv.
    apply bind_ok in Hv as (e1 & _ & Hv).
    apply bind_ok in Hv as (lower & _ & Hv).
    apply bind_ok in Hv as (n & _ & Hv).
    apply bind_ok in Hv as (w1 & _ & Hv).
    apply bind_ok in Hv as (w2 & _ & Hv).
    injection Hv as <-. cbn [is_valid errors]. split; [|reflexivity].
    rewrite Nat.eqb_eq. apply length_zero_iff_nil.
Qed.

(** C5 as amended: JPY is a supported currency.  A JPY record whose
    recipient is a string of at least two characters without a blocked
    keyword gets no error and a valid verdict, and no currency warning:
    its warnings, if any, are about the length of the name, the IBAN or
    the account number. *)
Theorem jpy_is_supported (t : TransactionData) (r : str) :
  currency t = u "JPY" ->
  recipient t = PStr r ->
  2 <= length r ->
  (forall blocked,
      In blocked blocked_recipients ->
      contains blocked (str_lower r) = false) ->
  str_or_none (iban t) = true ->
  str_or_none (account_number t) = true ->
  exists v,
    validate_transaction t = Ok v /\
    errors v = [] /\ is_valid v = true /\
    ~ In (UnsupportedCurrency (currency t)) (warnings v) /\
    (forall w, In w (warnings v) ->
               w = RecipientVeryLong \/ w = SuspectIban (iban t) \/
               w = SuspectAccount (account_number t)).
Proof.
  intros Hc Hr Hlen Hnb Hi Ha.
  rewrite (validate_transaction_typed _ _ Hr Hi Ha).
  eexists. split; [reflexivity|]. cbn [errors is_valid warnings].
  assert (Hb : mentions_blocked r = false).
  { apply not_true_is_false. intros Hb.
    apply mentions_blocked_iff in Hb as (b & Hin & Hb).
    rewrite (Hnb b Hin) in Hb. discriminate. }
  assert (He : rule_errors t r = []).
  { unfold rule_errors, bound_errors, blocked_errors, length_errors.
    rewrite Hc, Hb.
    replace (length r <? 2) with false
      by (symmetry; apply Nat.ltb_ge; lia). reflexivity. }
  assert (Hw : forall w, In w (rule_warnings t r) ->
                 w = RecipientVeryLong \/ w = SuspectIban (iban t) \/
                 w = SuspectAccount (account_number t)).
  { assert (Hcw : currency_warnings (u "JPY") = []) by reflexivity.
    assert (Haw : advisory_warnings (amount t) (u "JPY") = [])
      by reflexivity.
    unfold rule_warnings. rewrite Hc, Hcw, Haw, app_nil_r. cbn [app].
    unfold length_warnings, iban_warnings, account_warnings.
    intros w Hin.
    apply in_app_or in Hin as [Hin|Hin];
      [|apply in_app_or in Hin as [Hin|Hin]].
    - destruct (length r <? 2); [elim Hin|].
      destruct (100 <? length r); [|elim Hin].
      destruct Hin as [<-|[]]. auto.
    - destruct (truthy (iban t)); [|elim Hin].
      destruct (_validate_iban (iban t)) as [[|]|];
        [elim Hin| |elim Hin].
      destruct Hin as [<-|[]]. auto.
    - destruct (truthy (account_number t)); [|elim Hin].
      destruct (_validate_account_number (account_number t)) as [[|]|];
        [elim Hin| |elim Hin].
      destruct Hin as [<-|[]]. auto. }
  rewrite He. repeat split; auto.
  intros Hin. apply Hw in Hin as [E|[E|E]]; discriminate.
Qed.

Lemma de_sample_code :
  u "DE89370400440532013000" =
  [68; 69; 56; 57; 51; 55; 48; 52; 48; 48; 52; 52; 48; 53; 51; 50; 48; 49;
   51; 48; 48; 48]%N.
Proof. vm_compute. reflexivity. Qed.

(** C4 as amended: the check upper-cases the text after removing its
    spaces, then accepts it exactly when its length is between 15 and 34,
    it has the shape two capitals, two digits, capitals and digits (up to
    one final line feed), and, for the country codes RU, DE, FR and GB,
    its length is 33, 22, 27 and 22; no other country code carries a
    length requirement.  DE89370400440532013000 passes and DE123 fails.
    A record whose non-empty IBAN fails gets a warning about it, and the
    same errors and validity as the record without the IBAN. *)
Theorem iban_check_exact :
  (forall s, _validate_iban (PStr s) = Ok (iban_check s)) /\
  _validate_iban (PStr (u "DE89370400440532013000")) = Ok true /\
  _validate_iban (PStr (u "DE123")) = Ok false /\
  (forall t r s,
      recipient t = PStr r ->
      str_or_none (account_number t) = true ->
      iban t = PStr s -> s <> [] ->
      iban_check s = false ->
      exists v v0,
        validate_transaction t = Ok v /\
        validate_transaction
          {| amount := amount t; currency := currency t;
             recipient := recipient t; account_number := account_number t;
             iban := PNone; description := description t |} = Ok v0 /\
        In (SuspectIban (PStr s)) (warnings v) /\
        errors v = errors v0 /\ is_valid v = is_valid v0).
Proof.
  split; [exact validate_iban_check|]. split; [|split].
  - rewrite validate_iban_check. unfold iban_check.
    replace (remove_spaces (u "DE89370400440532013000"))
      with (u "DE89370400440532013000") by (vm_compute; reflexivity).
    rewrite str_upper_capitals by (vm_compute; reflexivity).
    rewrite de_sample_code. unfold iban_shape.
    rewrite !is_decimal_ascii by reflexivity. vm_compute. reflexivity.
  - rewrite validate_iban_check. unfold iban_check.
    replace (remove_spaces (u "DE123")) with (u "DE123")
      by (vm_compute; reflexivity).
    rewrite str_upper_capitals by (vm_compute; reflexivity).
    reflexivity.
  - intros t r s Hr Ha Hi Hs Hfail.
    assert (Hi' : str_or_none (iban t) = true) by now rewrite Hi.
    pose proof (validate_transaction_typed t r Hr Hi' Ha) as Hv.
    pose proof (validate_transaction_typed
                  {| amount := amount t; currency := currency t;
                     recipient := recipient t;
                     account_number := account_number t;
                     iban := PNone; description := description t |}
                  r Hr eq_refl Ha) as Hv0.
    do 2 eexists. split; [exact Hv|]. split; [exact Hv0|].
    cbn [warnings errors is_valid]. split; [|split; reflexivity].
    unfold rule_warnings, iban_warnings. rewrite Hi.
    rewrite validate_iban_check, Hfail.
    destruct s as [|x s]; [now elim Hs|]. cbn [truthy].
    apply in_or_app. right. apply in_or_app. right.
    apply in_or_app. left. now left.
Qed.

End Verdicts.

(** ** The claims on sample inputs *)

(** The matcher is leftmost and backtracks: in [12.5.7 руб] the match
    starts at the third number. *)
Example search_backtracks :
  search amount_rub (u "12.5.7 руб") = Some (RMatch 3 10 (Some (u "5.7"))).
Proof. vm_compute. reflexivity. Qed.

Example search_is_case_insensitive :
  search amount_rub (u "pay 7 Rubles") = Some (RMatch 4 9 (Some (u "7"))).
Proof. vm_compute. reflexivity. Qed.

(** The lazy group of the recipient pattern stops at the first word. *)
Example recipient_is_first_word :
  search recipient_pattern (u "5 EUR to Bob Smith")
  = Some (RMatch 6 13 (Some (u "Bob"))).
Proof. vm_compute. reflexivity. Qed.

(** The recipient can be empty: the group can capture a lone space. *)
Example recipient_can_be_empty :
  option_map recipient
    (match parse (u "to  , 5") with Ok t => Some t | Raise _ => None end)
  = Some (PStr []).
Proof. vm_compute. reflexivity. Qed.

(** [_validate_iban] upper-cases and removes spaces before it checks, and
    [$] lets one final line feed through. *)
Example iban_lower_case_with_spaces :
  _validate_iban (PStr (u "de89 3704 0044 0532 0130 00")) = Ok true.
Proof. vm_compute. reflexivity. Qed.

Example iban_with_final_line_feed :
  _validate_iban (PStr (u "XX12ABCDEFGHIJKL" ++ [10%N])) = Ok true.
Proof. vm_compute. reflexivity. Qed.

(** C3: the currency patterns put the number before the cue.  On the
    repository's own test text, where the dollar sign comes before the
    number, no currency pattern is found and the extractor falls back to
    the bare number with the default currency RUB, while the test case
    expects USD. *)
Theorem dollar_prefix_read_as_rub :
  search amount_rub dollar_text = None /\
  search amount_usd dollar_text = None /\
  search amount_eur dollar_text = None /\
  _extract_with_regex dollar_text =
    Ok [(u "amount", PFloat (Finite 2500));
        (u "currency", PStr (u "RUB"));
        (u "recipient", PStr (u "John"));
        (u "account_number", PStr (u "1234567890123456789"));
        (u "iban", PNone);
        (u "description", PNone)].
Proof. vm_compute. repeat split; reflexivity. Qed.

(** The same amount with the sign after the number is read as USD. *)
Example dollar_suffix_read_as_usd :
  option_map (dict_get (u "currency"))
    (match _extract_with_regex (u "Transfer 2500$ to John Smith") with
     | Ok d => Some d
     | Raise _ => None
     end)
  = Some (PStr (u "USD")).
Proof. vm_compute. reflexivity. Qed.

(** Priority is by pattern, not by position: the RUB number wins over a
    USD number that comes first in the text. *)
Example rub_wins_over_earlier_usd :
  currency_loop (u "100 USD и 200 руб") currency_patterns
  = Ok (Some (Finite 200, u "RUB")).
Proof. vm_compute. reflexivity. Qed.

Example rub_15000_is_valid :
  validate_transaction (rub_transfer 15000) =
    Ok {| is_valid := true; errors := []; warnings := [];
          transaction := rub_transfer 15000 |}.
Proof. vm_compute. reflexivity. Qed.

Example rub_800000_exceeds_limit :
  validate_transaction (rub_transfer 800000) =
    Ok {| is_valid := false;
          errors := [ExceedsLimit (Finite 800000) (u "RUB") 750000];
          warnings := [LargeTransfer];
          transaction := rub_transfer 800000 |}.
Proof. vm_compute. reflexivity. Qed.

Example rub_half_is_below_minimum :
  validate_transaction (rub_transfer (1 # 2)) =
    Ok {| is_valid := false;
          errors := [BelowMinimum (Finite (1 # 2)) (u "RUB") 100];
          warnings := [];
          transaction := rub_transfer (1 # 2) |}.
Proof. vm_compute. reflexivity. Qed.

Lemma amount_bounds_exact_witness :
  exists v,
    validate_transaction (rub_transfer 800000) = Ok v /\
    In (ExceedsLimit (Finite 800000) (u "RUB") 750000) (errors v).
Proof.
  destruct (@amount_bounds_exact basic_unicode (rub_transfer 800000))
    as (Hreturns & Hbounds & _).
  destruct Hreturns as (v & Hv); [repeat split; reflexivity|].
  exists v. split; [exact Hv|].
  destruct (Hbounds v Hv) as (Hmax & _).
  apply (Hmax 750000%Z); [reflexivity|]. simpl. reflexivity.
Defined.

Lemma blocked_recipient_single_error_witness :
  exists v,
    validate_transaction blocked_transfer = Ok v /\
    In (BlockedRecipient (recipient blocked_transfer)) (errors v) /\
    length (filter is_blocked_recipient (errors v)) = 1 /\
    is_valid v = false.
Proof.
  destruct (@blocked_recipient_single_error basic_unicode blocked_transfer
              (u "ООО САНКЦИИ и оружие")) as (Hreturns & Hblocked).
  - reflexivity.
  - exists (u "санкции"). split; [now left|]. vm_compute. reflexivity.
  - destruct Hreturns as (v & Hv); try reflexivity.
    exists v. split; [exact Hv|]. exact (Hblocked v Hv).
Defined.

(** C4 as stated fails: a text with the country code US is accepted. *)
Lemma us_iban_accepted :
  _validate_iban (PStr us_iban) = Ok true /\
  claimed_iban_check us_iban = false.
Proof. vm_compute. split; reflexivity. Qed.

Lemma iban_check_exact_witness :
  exists v v0,
    validate_transaction short_iban_transfer = Ok v /\
    validate_transaction
      {| amount := amount short_iban_transfer;
         currency := currency short_iban_transfer;
         recipient := recipient short_iban_transfer;
         account_number := account_number short_iban_transfer;
         iban := PNone;
         description := description short_iban_transfer |} = Ok v0 /\
    In (SuspectIban (PStr (u "DE123"))) (warnings v) /\
    errors v = errors v0 /\ is_valid v = is_valid v0.
Proof.
  destruct (@iban_check_exact basic_unicode) as (_ & _ & _ & Hrec).
  apply (Hrec short_iban_transfer (u "Hans Weber") (u "DE123"));
    try reflexivity.
  vm_compute. discriminate.
Defined.

(** C5 as stated fails: JPY is in the list of supported currencies, and
    a valid JPY record gets no warning at all. *)
Lemma jpy_not_flagged : ~ flagged_unsupported jpy_transfer.
Proof.
  intros (v & Hv & _ & _ & Hw). vm_compute in Hv. injection Hv as <-.
  simpl in Hw. exact Hw.
Qed.

Lemma jpy_is_supported_witness :
  exists v,
    validate_transaction jpy_transfer = Ok v /\
    errors v = [] /\ is_valid v = true /\
    ~ In (UnsupportedCurrency (currency jpy_transfer)) (warnings v) /\
    (forall w, In w (warnings v) ->
               w = RecipientVeryLong \/ w = SuspectIban (iban jpy_transfer)
               \/ w = SuspectAccount (account_number jpy_transfer)).
Proof.
  apply (@jpy_is_supported basic_unicode jpy_transfer (u "Ivan Petrov"));
    try reflexivity.
  - vm_compute. lia.
  - intros blocked Hin. vm_compute in Hin.
    repeat (destruct Hin as [<-|Hin]; [vm_compute; reflexivity|]).
    elim Hin.
Defined.

Lemma no_number_is_contained_failure_witness :
  _extract_with_regex no_amount_text = Raise (ValueError no_amount_msg) /\
  parse no_amount_text = Raise (ValueError (parse_failed_msg no_amount_text))
  /\ process_transaction regex_mode no_amount_text =
       {| transaction_data := None; validation_result := None;
          error := Some (ValueError (parse_failed_msg no_amount_text));
          processing_method := Error |}.
Proof.
  destruct (@no_number_is_contained_failure basic_unicode no_library
              no_amount_text)
    as (Hex & Hparse & Hproc); try (vm_compute; reflexivity).
  split; [exact Hex|]. split; [exact Hparse|].
  apply Hproc. left. reflexivity.
Defined.

Lemma bare_number_defaults_to_rub_witness :
  exists tok q before after r acct ib desc,
    first_numeric_token dollar_text = Some tok /\
    dollar_text = before ++ tok ++ after /\
    existsb is_decimal before = false /\
    decimal_literal tok = Some q /\
    _extract_with_regex dollar_text =
      Ok [(u "amount", PFloat (binary64 q)); (u "currency", PStr (u "RUB"));
          (u "recipient", PStr r); (u "account_number", acct);
          (u "iban", ib); (u "description", desc)].
Proof.
  apply (@bare_number_defaults_to_rub basic_unicode no_library dollar_text);
    vm_compute; reflexivity.
Defined.

Lemma batch_is_itemwise_witness :
  exists res,
    nth_error (batch_process regex_mode [no_amount_text; euro_text]) 0
    = Some res /\
    transaction_data res = None /\ validation_result res = None /\
    error res = Some (ValueError (parse_failed_msg no_amount_text)).
Proof.
  destruct (@batch_is_itemwise basic_unicode no_library regex_mode
              [no_amount_text; euro_text]) as (_ & _ & _ & Hfail).
  apply (Hfail 0 no_amount_text); vm_compute; reflexivity.
Defined.

Lemma valid_iff_no_errors_witness :
  exists v,
    validate_transaction (rub_transfer 15000) = Ok v /\
    is_valid v = true /\ errors v = [].
Proof.
  destruct (@valid_iff_no_errors basic_unicode (rub_transfer 15000))
    as (Htotal & Hvalid).
  destruct Htotal as (v & Hv); [repeat split; reflexivity|].
  exists v. split; [exact Hv|].
  destruct (Hvalid v Hv) as (Hiff & _).
  assert (He : errors v = []).
  { vm_compute in Hv. injection Hv as <-. reflexivity. }
  split; [apply Hiff, He|exact He].
Defined.

Lemma regex_path_always_builds_witness :
  parse_body euro_text <> Raise (ValueError missing_fields_msg) /\
  exists t tok q r,
    parse euro_text = Ok t /\
    decimal_literal tok = Some q /\ amount t = binary64 q /\
    In (currency t) [u "RUB"; u "USD"; u "EUR"] /\
    recipient t = PStr r /\
    (search recipient_pattern euro_text = None -> r = unknown_recipient) /\
    (search amount_rub euro_text = None ->
     search amount_usd euro_text = None ->
     search amount_eur euro_text = None -> currency t = u "RUB").
Proof.
  destruct (@regex_path_always_builds basic_unicode no_library euro_text)
    as (Hnot & Hbuild); [vm_compute; reflexivity|].
  split; [exact Hnot|]. apply Hbuild. vm_compute. reflexivity.
Defined.

(** * The rest of the code *)

(** ** Text helpers *)

Lemma str_eqb_eq (a b : str) : str_eqb a b = true -> a = b.
Proof.
  revert b. induction a as [|x a IH]; destruct b as [|y b]; simpl;
    try discriminate; auto.
  intros Hab. apply andb_prop in Hab as [Hx Hab].
  apply N.eqb_eq in Hx. subst. f_equal. auto.
Qed.

Lemma str_eqb_refl (a : str) : str_eqb a a = true.
Proof.
  induction a as [|x a IH]; simpl; [reflexivity|].
  now rewrite N.eqb_refl, IH.
Qed.

(** Replacing every character of a class by nothing deletes them. *)
Lemma sub_delete (p : cp -> bool) (s : str) :
  forall i, sub_from (Chr p) [] 0 i s = filter (fun c => negb (p c)) s.
Proof.
  induction s as [|c s IH]; intros i; [reflexivity|].
  cbn [sub_from run rest pos grp filter].
  destruct (p c); cbn [negb finish m_end pos app].
  - replace (S i - i) with 1 by lia. cbn [sub_from]. apply IH.
  - f_equal. apply IH.
Qed.

(** ** The account check *)

Section AccountFacts.
Context `{Unicode}.

Lemma validate_account_number_check (s : str) :
  _validate_account_number (PStr s) = Ok (account_check s).
Proof.
  unfold _validate_account_number, account_check, sub.
  rewrite sub_delete.
  set (d := filter (fun c => negb (is_space c || (c =? chr "-")%N)) s).
  destruct (isdigit d); cbn [negb andb]; [|reflexivity].
  destruct (Nat.ltb_spec (length d) 10) as [Hlo|Hlo]; cbn [orb].
  { now replace (10 <=? length d) with false
      by (symmetry; apply Nat.leb_gt; lia). }
  replace (10 <=? length d) with true by (symmetry; apply Nat.leb_le; lia).
  destruct (Nat.ltb_spec 25 (length d)) as [Hhi|Hhi].
  { now replace (length d <=? 25) with false
      by (symmetry; apply Nat.leb_gt; lia). }
  replace (length d <=? 25) with true by (symmetry; apply Nat.leb_le; lia).
  now destruct (_ && _).
Qed.

(** X1: [_validate_account_number] accepts exactly the texts that, with
    white space and hyphens deleted, consist of 10 to 25 digits.  The test
    of the five prefixes on 20-digit numbers and the final comparison
    with 10 never change the answer. *)
Theorem account_number_closed_form (s : str) :
  _validate_account_number (PStr s) = Ok (account_check s).
Proof. apply validate_account_number_check. Qed.

Lemma starts_with_app (p q s : str) :
  starts_with (p ++ q) s = true -> starts_with p s = true.
Proof.
  revert s. induction p as [|x p IH]; intros s; [reflexivity|].
  destruct s as [|y s]; simpl; [discriminate|].
  intros Hs. apply andb_prop in Hs as [Hx Hs]. rewrite Hx. simpl. auto.
Qed.

Lemma account_types_differ : russian_account <> international_account.
Proof. vm_compute. discriminate. Qed.

(** The two longer prefixes of [utils] add nothing to the five short
    ones. *)
Lemma valid_prefixes_redundant (d : str) :
  existsb (fun prefix => starts_with prefix d) valid_prefixes
  = existsb (fun prefix => starts_with prefix d) russian_prefixes.
Proof.
  assert (H17 : starts_with (u "40817") d = true ->
                starts_with (u "408") d = true).
  { apply (starts_with_app (u "408") (u "17")). }
  assert (H20 : starts_with (u "40820") d = true ->
                starts_with (u "408") d = true).
  { apply (starts_with_app (u "408") (u "20")). }
  unfold valid_prefixes, russian_prefixes. cbn [existsb].
  destruct (starts_with (u "408") d); [reflexivity|].
  destruct (starts_with (u "40817") d); [now discriminate H17|].
  destruct (starts_with (u "40820") d); [now discriminate H20|].
  now rewrite !orb_false_r.
Qed.

(** X2: the account check of [utils] and the one of the validator give
    the same answer on every text.  The report of [utils] carries the
    text with white space and hyphens deleted, and calls the account
    Russian exactly when that has 20 digits and starts with one of the
    five three-digit prefixes of the validator: the prefixes 40817 and
    40820 of its own list are covered by 408. *)
Theorem account_checks_agree (s : str) :
  exists report,
    validate_account_number (PStr s) = Ok report /\
    _validate_account_number (PStr s) = Ok (report_valid report) /\
    forall account_type digits,
      report = AccountValid account_type digits ->
      digits = filter (fun c => negb (is_space c || (c =? chr "-")%N)) s /\
      (account_type = russian_account \/
       account_type = international_account) /\
      (account_type = russian_account <->
       length digits = 20 /\
       existsb (fun prefix => starts_with prefix digits) russian_prefixes
       = true).
Proof.
  rewrite validate_account_number_check.
  unfold validate_account_number, account_check, sub.
  destruct s as [|c0 s0].
  { eexists. split; [reflexivity|]. split; [reflexivity|]. discriminate. }
  cbn [truthy negb]. rewrite sub_delete.
  set (d := filter (fun c => negb (is_space c || (c =? chr "-")%N))
                   (c0 :: s0)).
  destruct (isdigit d); cbn [negb andb].
  2:{ eexists. split; [reflexivity|]. split; [reflexivity|]. discriminate. }
  destruct (Nat.ltb_spec (length d) 10) as [Hlo|Hlo].
  { eexists. split; [reflexivity|]. split; [|discriminate].
    now replace (10 <=? length d) with false
      by (symmetry; apply Nat.leb_gt; lia). }
  replace (10 <=? length d) with true by (symmetry; apply Nat.leb_le; lia).
  destruct (Nat.ltb_spec 25 (length d)) as [Hhi|Hhi].
  { eexists. split; [reflexivity|]. split; [|discriminate].
    now replace (length d <=? 25) with false
      by (symmetry; apply Nat.leb_gt; lia). }
  replace (length d <=? 25) with true by (symmetry; apply Nat.leb_le; lia).
  rewrite valid_prefixes_redundant.
  remember (existsb (fun prefix => starts_with prefix d) russian_prefixes)
    as b eqn:Hb.
  destruct (Nat.eqb_spec (length d) 20) as [H20|H20].
  - eexists. split; [reflexivity|]. split; [reflexivity|].
    intros ty digits E. injection E as <- <-. split; [reflexivity|].
    rewrite <- Hb. destruct b.
    + split; [now left|]. split; auto.
    + split; [now right|]. split.
      * intros E. symmetry in E. now apply account_types_differ in E.
      * intros [_ E]. discriminate.
  - eexists. split; [reflexivity|]. split; [reflexivity|].
    intros ty digits E. injection E as <- <-. split; [reflexivity|].
    split; [now right|]. split.
    + intros E. symmetry in E. now apply account_types_differ in E.
    + intros [E _]. contradiction.
Qed.

End AccountFacts.

(** ** The rules of the validator, one by one *)

Lemma float_gt_mono (a : pyfloat) (n m : Z) :
  float_gt a n = true -> (m <= n)%Z -> float_gt a m = true.
Proof.
  rewrite !float_gt_above. destruct a as [q| |]; simpl; auto.
  intros Hq Hm. apply Qle_lt_trans with (inject_Z n); [|assumption].
  now rewrite <- Zle_Qle.
Qed.

Lemma float_gt_not_lt (a : pyfloat) (n m : Z) :
  float_gt a n = true -> (m <= n)%Z -> float_lt a m = false.
Proof.
  intros Hgt Hm. destruct (float_lt a m) eqn:Hlt; [|reflexivity].
  exfalso. apply float_gt_above in Hgt. apply float_lt_below in Hlt.
  destruct a as [q| |]; simpl in *; try congruence.
  apply (Qlt_irrefl q). apply Qlt_trans with (inject_Z m); [assumption|].
  apply Qle_lt_trans with (inject_Z n); [|assumption].
  now rewrite <- Zle_Qle.
Qed.

(** The rows of the two bound tables. *)
Lemma bounds_values (c : str) :
  (c = u "USD" /\ lookup c max_amounts = Some 10000%Z /\
   lookup c min_amounts = Some 1%Z)
  \/ (c = u "EUR" /\ lookup c max_amounts = Some 8500%Z /\
      lookup c min_amounts = Some 1%Z)
  \/ (c = u "RUB" /\ lookup c max_amounts = Some 750000%Z /\
      lookup c min_amounts = Some 100%Z)
  \/ (lookup c max_amounts = None /\ lookup c min_amounts = None).
Proof.
  unfold max_amounts, min_amounts. cbn [lookup].
  destruct (str_eqb (u "USD") c) eqn:E1.
  { apply str_eqb_eq in E1. subst c. left. auto. }
  destruct (str_eqb (u "EUR") c) eqn:E2.
  { apply str_eqb_eq in E2. subst c. right. left. auto. }
  destruct (str_eqb (u "RUB") c) eqn:E3.
  { apply str_eqb_eq in E3. subst c. right. right. left. auto. }
  right. right. right. auto.
Qed.

Section RuleFacts.
Context `{Unicode}.

Lemma in_bound_errors (a : pyfloat) (c : str) (e : error_msg) :
  In e (bound_errors a c) ->
  exists bound, e = ExceedsLimit a c bound \/ e = BelowMinimum a c bound.
Proof.
  unfold bound_errors.
  destruct (lookup c max_amounts) as [limit|]; [|contradiction].
  destruct (lookup c min_amounts) as [minimum|]; [|contradiction].
  intros Hin. apply in_app_or in Hin as [Hin|Hin].
  - destruct (float_gt a limit); [|contradiction].
    destruct Hin as [<-|[]]. eauto.
  - destruct (float_lt a minimum); [|contradiction].
    destruct Hin as [<-|[]]. eauto.
Qed.

Lemma in_blocked_errors (r : str) (e : error_msg) :
  In e (blocked_errors r) -> e = BlockedRecipient (PStr r).
Proof.
  unfold blocked_errors. destruct (mentions_blocked r); [|contradiction].
  now intros [<-|[]].
Qed.

Lemma in_length_errors (r : str) (e : error_msg) :
  In e (length_errors r) -> e = RecipientTooShort /\ length r < 2.
Proof.
  unfold length_errors. destruct (Nat.ltb_spec (length r) 2); [|contradiction].
  now intros [<-|[]].
Qed.

Lemma in_currency_warnings (c : str) (w : warning_msg) :
  In w (currency_warnings c) ->
  w = UnsupportedCurrency c /\ in_list c supported_currencies = false.
Proof.
  unfold currency_warnings.
  destruct (in_list c supported_currencies); [contradiction|].
  now intros [<-|[]].
Qed.

Lemma in_length_warnings (r : str) (w : warning_msg) :
  In w (length_warnings r) -> w = RecipientVeryLong /\ 100 < length r.
Proof.
  unfold length_warnings.
  destruct (length r <? 2); [contradiction|].
  destruct (Nat.ltb_spec 100 (length r)); [|contradiction].
  now intros [<-|[]].
Qed.

Lemma in_iban_warnings (v : pyval) (w : warning_msg) :
  In w (iban_warnings v) ->
  w = SuspectIban v /\ truthy v = true /\ _validate_iban v = Ok false.
Proof.
  unfold iban_warnings. destruct (truthy v); [|contradiction].
  destruct (_validate_iban v) as [[|]|e]; try contradiction.
  now intros [<-|[]].
Qed.

Lemma in_account_warnings (v : pyval) (w : warning_msg) :
  In w (account_warnings v) ->
  w = SuspectAccount v /\ truthy v = true /\
  _validate_account_number v = Ok false.
Proof.
  unfold account_warnings. destruct (truthy v); [|contradiction].
  destruct (_validate_account_number v) as [[|]|e]; try contradiction.
  now intros [<-|[]].
Qed.

Lemma in_advisory_warnings (a : pyfloat) (c : str) (w : warning_msg) :
  In w (advisory_warnings a c) ->
  w = LargeTransfer /\ c = u "RUB" /\ float_gt a 100000 = true
  \/ w = LargeForeignTransfer /\ (c = u "USD" \/ c = u "EUR") /\
     float_gt a 5000 = true.
Proof.
  unfold advisory_warnings.
  destruct (str_eqb c (u "RUB")) eqn:Hrub.
  - apply str_eqb_eq in Hrub. subst c.
    destruct (float_gt a 100000); cbn [andb].
    + intros [<-|[]]. now left.
    + change (in_list (u "RUB") [u "USD"; u "EUR"]) with false.
      contradiction.
  - cbn [andb]. unfold in_list. cbn [existsb].
    destruct (str_eqb c (u "USD")) eqn:Husd.
    + apply str_eqb_eq in Husd. subst c. cbn [orb andb].
      destruct (float_gt a 5000); [|contradiction].
      intros [<-|[]]. right. auto.
    + destruct (str_eqb c (u "EUR")) eqn:Heur; [|contradiction].
      apply str_eqb_eq in Heur. subst c. cbn [orb andb].
      destruct (float_gt a 5000); [|contradiction].
      intros [<-|[]]. right. auto.
Qed.

(** A warning of the verdict, traced to its rule. *)
Lemma in_rule_warnings (t : TransactionData) (r : str) (w : warning_msg) :
  In w (rule_warnings t r) ->
  In w (currency_warnings (currency t)) \/ In w (length_warnings r)
  \/ In w (iban_warnings (iban t))
  \/ In w (account_warnings (account_number t))
  \/ In w (advisory_warnings (amount t) (currency t)).
Proof.
  unfold rule_warnings. intros Hin.
  repeat (apply in_app_or in Hin as [Hin|Hin]; [tauto|]). tauto.
Qed.

Lemma in_rule_errors (t : TransactionData) (r : str) (e : error_msg) :
  In e (rule_errors t r) ->
  In e (bound_errors (amount t) (currency t)) \/ In e (blocked_errors r)
  \/ In e (length_errors r).
Proof.
  unfold rule_errors. intros Hin.
  repeat (apply in_app_or in Hin as [Hin|Hin]; [tauto|]). tauto.
Qed.

Lemma bound_errors_exist (a : pyfloat) (c : str) :
  existsb is_exceeds_limit (bound_errors a c)
  = match lookup c max_amounts with
    | Some limit => float_gt a limit
    | None => false
    end /\
  existsb is_below_minimum (bound_errors a c)
  = match lookup c min_amounts with
    | Some minimum => float_lt a minimum
    | None => false
    end.
Proof.
  unfold bound_errors.
  destruct (bounds_parallel c) as [(limit & minimum & -> & -> & _)|[-> ->]];
    [|auto].
  destruct (float_gt a limit), (float_lt a minimum); auto.
Qed.

(** X3: the errors of a verdict, and with them its validity, depend on
    the amount, the currency and the recipient only: records that agree
    on these three fields get the same errors, whatever their IBAN,
    account number and description.  Those fields produce warnings, and
    warnings never make a record invalid. *)
Theorem errors_ignore_optional_fields (t1 t2 : TransactionData)
    (v1 v2 : Verdict) :
  amount t1 = amount t2 ->
  currency t1 = currency t2 ->
  recipient t1 = recipient t2 ->
  validate_transaction t1 = Ok v1 ->
  validate_transaction t2 = Ok v2 ->
  errors v1 = errors v2 /\ is_valid v1 = is_valid v2.
Proof.
  intros Ha Hc Hr Hv1 Hv2.
  destruct (verdict_of_rules _ _ Hv1) as (r1 & Hr1 & ->).
  destruct (verdict_of_rules _ _ Hv2) as (r2 & Hr2 & ->).
  assert (r1 = r2) as -> by congruence.
  cbn [errors is_valid]. unfold rule_errors. rewrite Ha, Hc. auto.
Qed.

(** X4: the two bound rules never fire together; an amount over the
    ceiling always comes with the large-amount advisory of its currency;
    and a record with a bound error never carries the
    unsupported-currency warning, since every currency with bounds is
    supported. *)
Theorem bound_rules_consistent (t : TransactionData) (v : Verdict) :
  validate_transaction t = Ok v ->
  (existsb is_exceeds_limit (errors v) = true ->
   existsb is_below_minimum (errors v) = false) /\
  (existsb is_exceeds_limit (errors v) = true ->
   (currency t = u "RUB" /\ In LargeTransfer (warnings v)) \/
   (currency t <> u "RUB" /\ In LargeForeignTransfer (warnings v))) /\
  (existsb is_exceeds_limit (errors v) = true \/
   existsb is_below_minimum (errors v) = true ->
   existsb is_unsupported_currency (warnings v) = false).
Proof.
  intros Hv. destruct (verdict_of_rules _ _ Hv) as (r & Hr & ->).
  cbn [errors warnings].
  destruct (bound_errors_exist (amount t) (currency t)) as (Hexc & Hbel).
  assert (Hexc' : existsb is_exceeds_limit (rule_errors t r)
                  = existsb is_exceeds_limit
                      (bound_errors (amount t) (currency t))).
  { unfold rule_errors, blocked_errors, length_errors.
    rewrite !existsb_app.
    destruct (mentions_blocked r), (length r <? 2); simpl;
      now rewrite ?orb_false_r. }
  assert (Hbel' : existsb is_below_minimum (rule_errors t r)
                  = existsb is_below_minimum
                      (bound_errors (amount t) (currency t))).
  { unfold rule_errors, blocked_errors, length_errors.
    rewrite !existsb_app.
    destruct (mentions_blocked r), (length r <? 2); simpl;
      now rewrite ?orb_false_r. }
  rewrite Hexc', Hbel', Hexc, Hbel. clear Hexc' Hbel' Hexc Hbel.
  assert (Hnone : forall l : list warning_msg,
            (forall w, In w l -> is_unsupported_currency w = false) ->
            existsb is_unsupported_currency l = false).
  { induction l as [|w l IH]; intros Hl; [reflexivity|]. simpl.
    rewrite (Hl w) by now left. apply IH. intros w' Hw'. apply Hl.
    now right. }
  assert (Hsupp : in_list (currency t) supported_currencies = true ->
            existsb is_unsupported_currency (rule_warnings t r) = false).
  { intros Hs. apply Hnone. intros w Hw.
    apply in_rule_warnings in Hw as [Hw|[Hw|[Hw|[Hw|Hw]]]].
    - apply in_currency_warnings in Hw as [_ Hw]. congruence.
    - now apply in_length_warnings in Hw as [-> _].
    - now apply in_iban_warnings in Hw as [-> _].
    - now apply in_account_warnings in Hw as [-> _].
    - now apply in_advisory_warnings in Hw as [[-> _]|[-> _]]. }
  assert (Hadv : forall w,
            In w (advisory_warnings (amount t) (currency t)) ->
            In w (rule_warnings t r)).
  { intros w Hw. unfold rule_warnings. repeat (apply in_or_app; right).
    exact Hw. }
  destruct (bounds_values (currency t))
    as [(Hc & Hmax & Hmin)|[(Hc & Hmax & Hmin)|[(Hc & Hmax & Hmin)
        |(Hmax & Hmin)]]];
    rewrite Hmax, Hmin.
  4:{ split; [discriminate 1|]. split; [discriminate 1|].
      intros [E|E]; discriminate E. }
  all: split; [|split].
  all: try (intros _; apply Hsupp; rewrite Hc; reflexivity).
  - intros Hgt. apply (float_gt_not_lt _ _ _ Hgt). lia.
  - intros Hgt. right. split; [rewrite Hc; vm_compute; discriminate|].
    apply Hadv. unfold advisory_warnings. rewrite Hc.
    change (str_eqb (u "USD") (u "RUB")) with false.
    change (in_list (u "USD") [u "USD"; u "EUR"]) with true.
    cbn [andb]. rewrite (float_gt_mono _ _ 5000 Hgt) by lia. now left.
  - intros Hgt. apply (float_gt_not_lt _ _ _ Hgt). lia.
  - intros Hgt. right. split; [rewrite Hc; vm_compute; discriminate|].
    apply Hadv. unfold advisory_warnings. rewrite Hc.
    change (str_eqb (u "EUR") (u "RUB")) with false.
    change (in_list (u "EUR") [u "USD"; u "EUR"]) with true.
    cbn [andb]. rewrite (float_gt_mono _ _ 5000 Hgt) by lia. now left.
  - intros Hgt. apply (float_gt_not_lt _ _ _ Hgt). lia.
  - intros Hgt. left. split; [exact Hc|].
    apply Hadv. unfold advisory_warnings. rewrite Hc.
    change (str_eqb (u "RUB") (u "RUB")) with true.
    cbn [andb]. rewrite (float_gt_mono _ _ 100000 Hgt) by lia. now left.
Qed.

(** X5: rule 5 on the recipient's length.  The verdict has the error
    "too short" exactly when the recipient has fewer than two characters
    and the warning "very long" exactly when it has more than a hundred;
    a name of 2 to 100 characters gets neither. *)
Theorem recipient_length_rule (t : TransactionData) (v : Verdict)
    (r : str) :
  validate_transaction t = Ok v ->
  recipient t = PStr r ->
  (In RecipientTooShort (errors v) <-> length r < 2) /\
  (In RecipientVeryLong (warnings v) <-> 100 < length r).
Proof.
  intros Hv Hr. destruct (verdict_of_rules _ _ Hv) as (r' & Hr' & ->).
  assert (r' = r) as -> by congruence. cbn [errors warnings].
  split; split.
  - intros Hin. apply in_rule_errors in Hin as [Hin|[Hin|Hin]].
    + apply in_bound_errors in Hin as (b & [E|E]); discriminate E.
    + apply in_blocked_errors in Hin. discriminate Hin.
    + now apply in_length_errors in Hin.
  - intros Hlen. unfold rule_errors, length_errors.
    apply in_or_app. right. apply in_or_app. right.
    replace (length r <? 2) with true by (symmetry; now apply Nat.ltb_lt).
    now left.
  - intros Hin. apply in_rule_warnings in Hin as [Hin|[Hin|[Hin|[Hin|Hin]]]].
    + apply in_currency_warnings in Hin as [E _]. discriminate E.
    + now apply in_length_warnings in Hin.
    + apply in_iban_warnings in Hin as [E _]. discriminate E.
    + apply in_account_warnings in Hin as [E _]. discriminate E.
    + apply in_advisory_warnings in Hin as [[E _]|[E _]]; discriminate E.
  - intros Hlen. unfold rule_warnings, length_warnings.
    apply in_or_app. right. apply in_or_app. left.
    replace (length r <? 2) with false by (symmetry; apply Nat.ltb_ge; lia).
    replace (100 <? length r) with true by (symmetry; now apply Nat.ltb_lt).
    now left.
Qed.

(** X6: rule 8, the large-amount advisory.  The verdict carries the
    advisory for rouble transfers exactly when the currency is RUB and
    the amount is above 100000, and the one for foreign-currency
    operations exactly when the currency is USD or EUR and the amount is
    above 5000; no other currency is ever advised on. *)
Theorem large_amount_advisory_rule (t : TransactionData) (v : Verdict) :
  validate_transaction t = Ok v ->
  (In LargeTransfer (warnings v) <->
   currency t = u "RUB" /\ float_above (amount t) 100000) /\
  (In LargeForeignTransfer (warnings v) <->
   (currency t = u "USD" \/ currency t = u "EUR") /\
   float_above (amount t) 5000).
Proof.
  intros Hv. destruct (verdict_of_rules _ _ Hv) as (r & Hr & ->).
  cbn [warnings].
  assert (Hadv : forall w,
            In w (rule_warnings t r) <->
            In w (advisory_warnings (amount t) (currency t)) \/
            In w (currency_warnings (currency t) ++ length_warnings r
                  ++ iban_warnings (iban t)
                  ++ account_warnings (account_number t))).
  { intros w. unfold rule_warnings. rewrite !in_app_iff. tauto. }
  assert (Hother : forall w,
            In w (currency_warnings (currency t) ++ length_warnings r
                  ++ iban_warnings (iban t)
                  ++ account_warnings (account_number t)) ->
            w <> LargeTransfer /\ w <> LargeForeignTransfer).
  { intros w Hin. rewrite !in_app_iff in Hin.
    destruct Hin as [Hin|[Hin|[Hin|Hin]]].
    - apply in_currency_warnings in Hin as [-> _]. split; discriminate.
    - apply in_length_warnings in Hin as [-> _]. split; discriminate.
    - apply in_iban_warnings in Hin as [-> _]. split; discriminate.
    - apply in_account_warnings in Hin as [-> _]. split; discriminate. }
  split; split.
  - intros Hin. apply Hadv in Hin as [Hin|Hin].
    + apply in_advisory_warnings in Hin as [(_ & Hc & Hgt)|(E & _)];
        [|discriminate E].
      split; [exact Hc|]. now apply float_gt_above.
    + apply Hother in Hin as [Hne _]. now elim Hne.
  - intros [Hc Hgt]. apply Hadv. left. apply float_gt_above in Hgt.
    unfold advisory_warnings. rewrite Hc, Hgt.
    change (str_eqb (u "RUB") (u "RUB")) with true. now left.
  - intros Hin. apply Hadv in Hin as [Hin|Hin].
    + apply in_advisory_warnings in Hin as [(E & _)|(_ & Hc & Hgt)];
        [discriminate E|].
      split; [exact Hc|]. now apply float_gt_above.
    + apply Hother in Hin as [_ Hne]. now elim Hne.
  - intros [Hc Hgt]. apply Hadv. left. apply float_gt_above in Hgt.
    unfold advisory_warnings. rewrite Hgt.
    destruct Hc as [-> | ->].
    + change (str_eqb (u "USD") (u "RUB")) with false.
      change (in_list (u "USD") [u "USD"; u "EUR"]) with true. now left.
    + change (str_eqb (u "EUR") (u "RUB")) with false.
      change (in_list (u "EUR") [u "USD"; u "EUR"]) with true. now left.
Qed.

(** X7: rule 7 on the account number.  The verdict warns about the
    account number exactly when the field holds a non-empty text that,
    with white space and hyphens deleted, is not a run of 10 to 25
    digits.  An absent or empty account number is never checked. *)
Theorem account_number_rule (t : TransactionData) (v : Verdict) :
  validate_transaction t = Ok v ->
  (In (SuspectAccount (account_number t)) (warnings v) <->
   exists s, account_number t = PStr s /\ s <> [] /\
             account_check s = false) /\
  (forall w, In w (warnings v) -> is_suspect_account w = true ->
             w = SuspectAccount (account_number t)).
Proof.
  intros Hv. destruct (verdict_of_rules _ _ Hv) as (r & Hr & ->).
  cbn [warnings]. split; [split|].
  - intros Hin. apply in_rule_warnings in Hin as [Hin|[Hin|[Hin|[Hin|Hin]]]].
    + apply in_currency_warnings in Hin as [E _]. discriminate E.
    + apply in_length_warnings in Hin as [E _]. discriminate E.
    + apply in_iban_warnings in Hin as [E _]. discriminate E.
    + apply in_account_warnings in Hin as (_ & Ht & Hc).
      destruct (account_number t) as [| | | |s| |]; try discriminate Hc.
      exists s. split; [reflexivity|].
      rewrite validate_account_number_check in Hc. injection Hc as Hc.
      split; [|exact Hc]. intros ->. discriminate Ht.
    + apply in_advisory_warnings in Hin as [[E _]|[E _]]; discriminate E.
  - intros (s & Hs & Hne & Hc). unfold rule_warnings, account_warnings.
    rewrite Hs, validate_account_number_check, Hc.
    destruct s as [|x s]; [now elim Hne|]. cbn [truthy].
    rewrite !in_app_iff. right. right. right. left. now left.
  - intros w Hin Hw.
    apply in_rule_warnings in Hin as [Hin|[Hin|[Hin|[Hin|Hin]]]].
    + apply in_currency_warnings in Hin as [-> _]. discriminate Hw.
    + apply in_length_warnings in Hin as [-> _]. discriminate Hw.
    + apply in_iban_warnings in Hin as [-> _]. discriminate Hw.
    + now apply in_account_warnings in Hin as [-> _].
    + apply in_advisory_warnings in Hin as [[-> _]|[-> _]];
        discriminate Hw.
Qed.

Lemma validate_iban_not_str (v : pyval) :
  is_str v = false -> _validate_iban v = Raise AttributeError.
Proof. destruct v; try discriminate; reflexivity. Qed.

Lemma validate_account_number_not_str (v : pyval) :
  is_str v = false -> _validate_account_number v = Raise TypeError.
Proof. destruct v; try discriminate; reflexivity. Qed.

(** X8: the validator raises exactly on ill-typed fields.  It raises
    [AttributeError] when the recipient is not a string, or when the IBAN
    counts as true and is not a string; it raises [TypeError] when the
    account number counts as true and is not a string; on every other
    record it returns a verdict.  Values that count as false in the two
    optional fields, such as 0 or an empty list, pass unnoticed. *)
Theorem validator_raises_on_ill_typed_fields (t : TransactionData) :
  match validator_failure t with
  | Some e => validate_transaction t = Raise e
  | None => exists v, validate_transaction t = Ok v
  end.
Proof.
  unfold validator_failure.
  destruct (is_str (recipient t)) eqn:Hstr; cbn [negb].
  2:{ unfold validate_transaction. unfold has_key at 1. unfold item.
      destruct (bounds_parallel (currency t))
        as [(limit & minimum & -> & -> & _)|[-> _]]; cbn [bind];
        destruct (recipient t); try discriminate Hstr; reflexivity. }
  destruct (recipient t) as [| | | |r| |] eqn:Hr; try discriminate Hstr.
  destruct (truthy (iban t) && negb (is_str (iban t))) eqn:Hi.
  { apply andb_prop in Hi as [Hti Hsi]. apply negb_true_iff in Hsi.
    unfold validate_transaction. unfold has_key at 1. unfold item.
    rewrite Hr, Hti, (validate_iban_not_str _ Hsi).
    destruct (bounds_parallel (currency t))
      as [(limit & minimum & -> & -> & _)|[-> _]]; reflexivity. }
  assert (Hiban : truthy (iban t) = true ->
                  exists ok, _validate_iban (iban t) = Ok ok).
  { intros Hti. rewrite Hti in Hi. cbn [andb] in Hi.
    apply negb_false_iff in Hi.
    destruct (iban t); try discriminate Hi. apply validate_iban_total. }
  destruct (truthy (account_number t) && negb (is_str (account_number t)))
    eqn:Ha.
  { apply andb_prop in Ha as [Hta Hsa]. apply negb_true_iff in Hsa.
    unfold validate_transaction. unfold has_key at 1. unfold item.
    rewrite Hr, Hta, (validate_account_number_not_str _ Hsa).
    destruct (bounds_parallel (currency t))
      as [(limit & minimum & -> & -> & _)|[-> _]]; cbn [bind py_lower py_len];
      (destruct (truthy (iban t));
       [destruct (Hiban eq_refl) as (ok & ->)|]); reflexivity. }
  assert (Hacct : truthy (account_number t) = true ->
                  exists ok,
                    _validate_account_number (account_number t) = Ok ok).
  { intros Hta. rewrite Hta in Ha. cbn [andb] in Ha.
    apply negb_false_iff in Ha.
    destruct (account_number t); try discriminate Ha.
    apply validate_account_number_total. }
  eexists. apply (validate_transaction_rules t r Hr). split; assumption.
Qed.

End RuleFacts.

Lemma errors_ignore_optional_fields_witness :
  exists v1 v2,
    validate_transaction (rub_transfer 800000) = Ok v1 /\
    validate_transaction (with_iban (rub_transfer 800000) (PStr (u "DE123")))
    = Ok v2 /\
    errors v1 = errors v2 /\ is_valid v1 = is_valid v2 /\
    warnings v1 <> warnings v2.
Proof.
  do 2 eexists.
  split; [vm_compute; reflexivity|]. split; [vm_compute; reflexivity|].
  split; [|split].
  - apply (@errors_ignore_optional_fields basic_unicode
             (rub_transfer 800000)
             (with_iban (rub_transfer 800000) (PStr (u "DE123"))));
      vm_compute; reflexivity.
  - apply (@errors_ignore_optional_fields basic_unicode
             (rub_transfer 800000)
             (with_iban (rub_transfer 800000) (PStr (u "DE123"))));
      vm_compute; reflexivity.
  - vm_compute. discriminate.
Defined.

Lemma bound_rules_consistent_witness :
  exists v,
    validate_transaction (rub_transfer 800000) = Ok v /\
    existsb is_below_minimum (errors v) = false /\
    In LargeTransfer (warnings v) /\
    existsb is_unsupported_currency (warnings v) = false.
Proof.
  eexists. split; [vm_compute; reflexivity|].
  destruct (@bound_rules_consistent basic_unicode (rub_transfer 800000) _
              eq_refl)
    as (Hexcl & Hadv & Hsupp).
  split; [apply Hexcl; reflexivity|]. split.
  - destruct (Hadv eq_refl) as [[_ Hin]|[Hne _]]; [exact Hin|].
    now elim Hne.
  - apply Hsupp. left. reflexivity.
Defined.

Lemma recipient_length_rule_witness :
  exists v,
    validate_transaction short_name_transfer = Ok v /\
    In RecipientTooShort (errors v) /\ ~ In RecipientVeryLong (warnings v).
Proof.
  eexists. split; [vm_compute; reflexivity|].
  destruct (@recipient_length_rule basic_unicode short_name_transfer _
              (u "Я") eq_refl eq_refl) as [[_ Hshort] [Hlong _]].
  split; [apply Hshort; vm_compute; lia|].
  intros Hin. apply Hlong in Hin. vm_compute in Hin. lia.
Defined.

Lemma large_amount_advisory_rule_witness :
  exists v,
    validate_transaction (rub_transfer 800000) = Ok v /\
    In LargeTransfer (warnings v).
Proof.
  eexists. split; [vm_compute; reflexivity|].
  destruct (@large_amount_advisory_rule basic_unicode (rub_transfer 800000)
              _ eq_refl) as [[_ Hlarge] _].
  apply Hlarge. split; reflexivity.
Defined.

Lemma account_number_rule_witness :
  exists v,
    validate_transaction short_name_transfer = Ok v /\
    In (SuspectAccount (PStr (u "123"))) (warnings v).
Proof.
  eexists. split; [vm_compute; reflexivity|].
  destruct (@account_number_rule basic_unicode short_name_transfer _ eq_refl)
    as [[_ Hsuspect] _].
  apply Hsuspect. exists (u "123").
  split; [reflexivity|]. split; [discriminate|]. vm_compute. reflexivity.
Defined.

(** An account number that is the integer 7 makes the validator raise;
    an IBAN that is the integer 0 does not. *)
Example ill_typed_fields :
  validate_transaction ill_typed_transfer = Raise TypeError /\
  exists v,
    validate_transaction
      {| amount := Finite 1200; currency := u "EUR";
         recipient := PStr (u "Hans Weber"); account_number := PNone;
         iban := PInt 0; description := PNone |} = Ok v.
Proof. split; [|eexists]; vm_compute; reflexivity. Qed.

(** ** Amounts are never negative *)

Lemma round_half_even_nonneg (n : Z) (d : positive) :
  (0 <= n)%Z -> (0 <= round_half_even n d)%Z.
Proof.
  intros Hn. unfold round_half_even.
  assert (Hq : (0 <= n / Zpos d)%Z) by (apply Z.div_pos; lia).
  destruct (2 * (n mod Zpos d) ?= Zpos d)%Z; [|lia|lia].
  destruct (Z.even (n / Zpos d)); lia.
Qed.

Lemma scale2_nonneg (a : Z) (d : positive) (k : Z) :
  (0 <= a)%Z -> (0 <= fst (scale2 a d k))%Z.
Proof.
  intros Ha. unfold scale2. destruct (0 <=? k)%Z; simpl; [|assumption].
  apply Z.mul_nonneg_nonneg; [assumption|]. apply Z.pow_nonneg. lia.
Qed.

(** Rounding to binary64 keeps the sign of a rational that is not
    negative. *)
Lemma binary64_nonneg (q : Q) :
  (0 <= Qnum q)%Z -> float_nonneg (binary64 q).
Proof.
  intros Hq. unfold binary64. cbv zeta.
  destruct (Qnum q =? 0)%Z eqn:Hz; [simpl; apply Qle_refl|].
  assert (Hneg : (Qnum q <? 0)%Z = false) by (apply Z.ltb_ge; lia).
  rewrite Hneg.
  destruct (scale2 (Z.abs (Qnum q)) (Qden q) _) as [a0 d0].
  set (ulp := Z.max _ (-1074)).
  pose proof (scale2_nonneg (Z.abs (Qnum q)) (Qden q) (- ulp)
                (Z.abs_nonneg _)) as Ha1.
  destruct (scale2 (Z.abs (Qnum q)) (Qden q) (- ulp)) as [a1 d1].
  simpl in Ha1.
  pose proof (scale2_nonneg (round_half_even a1 d1) 1 ulp
                (round_half_even_nonneg _ _ Ha1)) as Hv.
  destruct (scale2 (round_half_even a1 d1) 1 ulp) as [v w]. simpl in Hv.
  destruct (2 ^ 1024 * Z.pos w <=? v)%Z; cbn [float_nonneg]; [reflexivity|].
  rewrite Qred_correct. unfold Qle. simpl. lia.
Qed.

Section AmountFacts.
Context `{Unicode}.

Lemma digits_value_nonneg (ds : str) :
  digits_regular ->
  forallb is_decimal ds = true -> (0 <= digits_value ds)%Z.
Proof.
  intros Hreg. unfold digits_value.
  assert (Hgen : forall acc, (0 <= acc)%Z ->
            forallb is_decimal ds = true ->
            (0 <= fold_left (fun acc c => (acc * 10 + decimal_value c)%Z)
                            ds acc)%Z).
  { induction ds as [|d ds IH]; intros acc Hacc Hds; [assumption|].
    simpl in Hds. apply andb_prop in Hds as [Hd Hds]. simpl.
    apply IH; [|assumption]. destruct (Hreg d Hd) as (_ & _ & Hv). lia. }
  apply Hgen. lia.
Qed.

(** The value of a decimal literal is not negative. *)
Lemma decimal_literal_nonneg (s : str) (q : Q) :
  digits_regular -> decimal_literal s = Some q -> (0 <= Qnum q)%Z.
Proof.
  intros Hreg. unfold decimal_literal.
  pose proof (span_prefix is_decimal s) as Hip.
  destruct (span is_decimal s) as [ip r]. simpl in Hip.
  destruct ip as [|d ip]; [discriminate|].
  destruct r as [|c fp].
  - intros E. injection E as <-. simpl. now apply digits_value_nonneg.
  - destruct (_ && _) eqn:Hc; [|discriminate].
    apply andb_prop in Hc as [Hc _]. apply andb_prop in Hc as [_ Hfp].
    intros E. injection E as <-. cbn [Qnum].
    apply digits_value_nonneg; auto.
    change (forallb is_decimal ((d :: ip) ++ fp) = true).
    rewrite forallb_app. now rewrite Hip, Hfp.
Qed.

End AmountFacts.

(** ** What the extractor captures, and what becomes of it *)

(** A successful search of a pattern that ends with its group:
    [group(1)] is a word of the group's pattern. *)
Lemma search_group_last (r1 r2 g : regex) (text : str) (m : rmatch) :
  search (Cat r1 (Cat r2 (Grp g))) text = Some m ->
  exists w, group1 m = Some w /\ lang g w.
Proof.
  intros Hs. apply search_from_sound in Hs as (pre & s0 & -> & Hrun).
  change (run (Cat r1 (Cat r2 (Grp g))) ?k ?st)
    with (run r1 (run r2 (run (Grp g) k)) st) in Hrun.
  destruct (run_sound _ _ _ _ _ Hrun) as (w1 & st1 & _ & _ & _ & Hk1 & _).
  destruct (run_sound _ _ _ _ _ Hk1) as (w2 & st2 & _ & _ & _ & Hk2 & _).
  apply run_group_sound in Hk2 as (w & st3 & _ & _ & Hl & Hg & Hk3).
  unfold finish in Hk3. injection Hk3 as <-. simpl. eauto.
Qed.

Lemma filter_all {A : Type} (p : A -> bool) (l : list A) :
  forallb p l = true -> filter p l = l.
Proof.
  induction l as [|x l IH]; simpl; [reflexivity|].
  intros Hl. apply andb_prop in Hl as [Hx Hl]. rewrite Hx. f_equal. auto.
Qed.

Lemma forallb_impl {A : Type} (p q : A -> bool) (l : list A) :
  (forall x, p x = true -> q x = true) ->
  forallb p l = true -> forallb q l = true.
Proof.
  intros Hpq. induction l as [|x l IH]; simpl; [reflexivity|].
  intros Hl. apply andb_prop in Hl as [Hx Hl]. now rewrite (Hpq x Hx), IH.
Qed.

Section CaptureFacts.
Context `{Unicode}.

Lemma account_search_digits (text : str) (m : rmatch) :
  search account_pattern text = Some m ->
  exists w, group m = PStr w /\ forallb is_decimal w = true /\
            10 <= length w <= 20.
Proof.
  intros Hs. apply search_group_last in Hs as (w & Hg & Hw & Hlo & Hhi).
  exists w. unfold group. rewrite Hg. simpl in Hhi. auto.
Qed.

Lemma iban_search_length (text : str) (m : rmatch) :
  search iban_pattern text = Some m ->
  exists w, group m = PStr w /\ 8 <= length w <= 34.
Proof.
  intros Hs. apply search_group_last in Hs as (w & Hg & Hl).
  exists w. unfold group. rewrite Hg. split; [reflexivity|].
  destruct Hl as (w1 & w23 & -> & (_ & Hlo1 & Hhi1) & w2 & w3 & -> &
                  (_ & Hlo2 & Hhi2) & (_ & Hlo3 & Hhi3)).
  simpl in Hhi1, Hhi2, Hhi3. rewrite !length_app. lia.
Qed.

(** A run of 10 to 25 decimal digits passes the account check. *)
Lemma digits_pass_account_check (w : str) :
  digits_regular ->
  forallb is_decimal w = true -> 10 <= length w <= 25 ->
  account_check w = true.
Proof.
  intros Hreg Hw Hlen. unfold account_check.
  assert (Hclean : forallb (fun c => negb (is_space c || (c =? chr "-")%N)) w
                   = true).
  { apply (forallb_impl is_decimal); [|assumption].
    intros c Hc. destruct (Hreg c Hc) as (_ & -> & _). cbn [orb].
    destruct (N.eqb_spec c (chr "-")) as [->|]; [|reflexivity].
    now rewrite is_decimal_ascii in Hc. }
  rewrite (filter_all _ _ Hclean).
  replace (10 <=? length w) with true by (symmetry; apply Nat.leb_le; lia).
  replace (length w <=? 25) with true by (symmetry; apply Nat.leb_le; lia).
  rewrite !andb_true_r. unfold isdigit.
  destruct w as [|c w]; [simpl in Hlen; lia|].
  apply (forallb_impl is_decimal); [|assumption].
  intros x Hx. now destruct (Hreg x Hx).
Qed.

(** X9: whatever the account pattern captures passes the account check
    of the validator: the capture is a run of 10 to 20 decimal digits,
    and the check accepts runs of 10 to 25.  (The hypothesis states what
    is true of Unicode's decimal digits.) *)
Theorem extracted_account_passes_check (text : str) (m : rmatch) :
  digits_regular ->
  search account_pattern text = Some m ->
  exists w,
    group m = PStr w /\ forallb is_decimal w = true /\
    10 <= length w <= 20 /\
    _validate_account_number (PStr w) = Ok true.
Proof.
  intros Hreg Hs.
  destruct (account_search_digits _ _ Hs) as (w & Hg & Hw & Hlen).
  exists w. repeat split; try assumption; try lia.
  rewrite validate_account_number_check. f_equal.
  apply digits_pass_account_check; auto. lia.
Qed.

Lemma account_of_shape (text : str) :
  account_of text = PNone \/
  exists w, account_of text = PStr w /\ forallb is_decimal w = true /\
            10 <= length w <= 20.
Proof.
  unfold account_of. destruct (search account_pattern text) as [m|] eqn:Hs;
    [right|now left].
  exact (account_search_digits _ _ Hs).
Qed.

Lemma iban_of_shape (text : str) :
  iban_of text = PNone \/
  exists w, iban_of text = PStr w /\ 8 <= length w <= 34.
Proof.
  unfold iban_of. destruct (search iban_pattern text) as [m|] eqn:Hs;
    [right|now left].
  exact (iban_search_length _ _ Hs).
Qed.

(** No warning about a currency that is supported. *)
Lemma supported_not_flagged (t : TransactionData) (r : str) :
  in_list (currency t) supported_currencies = true ->
  existsb is_unsupported_currency (rule_warnings t r) = false.
Proof.
  intros Hs. apply not_true_is_false. intros Hex.
  apply existsb_exists in Hex as (w & Hw & Hu).
  apply in_rule_warnings in Hw as [Hw|[Hw|[Hw|[Hw|Hw]]]].
  - apply in_currency_warnings in Hw as [_ Hw]. congruence.
  - apply in_length_warnings in Hw as [-> _]. discriminate Hu.
  - apply in_iban_warnings in Hw as [-> _]. discriminate Hu.
  - apply in_account_warnings in Hw as [-> _]. discriminate Hu.
  - apply in_advisory_warnings in Hw as [[-> _]|[-> _]]; discriminate Hu.
Qed.

(** No warning about an account number that passes the check. *)
Lemma checked_account_not_flagged (t : TransactionData) (r : str) :
  account_warnings (account_number t) = [] ->
  existsb is_suspect_account (rule_warnings t r) = false.
Proof.
  intros Hs. apply not_true_is_false. intros Hex.
  apply existsb_exists in Hex as (w & Hw & Hu).
  apply in_rule_warnings in Hw as [Hw|[Hw|[Hw|[Hw|Hw]]]].
  - apply in_currency_warnings in Hw as [-> _]. discriminate Hu.
  - apply in_length_warnings in Hw as [-> _]. discriminate Hu.
  - apply in_iban_warnings in Hw as [-> _]. discriminate Hu.
  - rewrite Hs in Hw. contradiction.
  - apply in_advisory_warnings in Hw as [[-> _]|[-> _]]; discriminate Hu.
Qed.

End CaptureFacts.

Section PipelineMore.
Context `{Unicode} `{Library}.

(** The two optional fields of the field map are what the two patterns
    capture. *)
Lemma extract_optional_fields (text : str) (d : dict) :
  _extract_with_regex text = Ok d ->
  exists a c r desc,
    d = [(u "amount", PFloat a); (u "currency", PStr c);
         (u "recipient", PStr r); (u "account_number", account_of text);
         (u "iban", iban_of text); (u "description", desc)].
Proof.
  unfold _extract_with_regex. intros Hex.
  apply bind_ok in Hex as (f1 & _ & Hex).
  apply bind_ok in Hex as (f2 & _ & Hex).
  destruct f2 as [[a c]|]; [|discriminate].
  apply bind_ok in Hex as (r & _ & Hex).
  apply bind_ok in Hex as (desc & _ & Hex).
  injection Hex as <-. do 4 eexists. reflexivity.
Qed.

(** The record [parse] builds from a text with a digit and no JSON
    block. *)
Lemma parse_pattern_record (text : str) :
  digits_regular ->
  has_json_block text = false ->
  existsb is_decimal text = true ->
  exists t r,
    parse text = Ok t /\ float_nonneg (amount t) /\
    In (currency t) [u "RUB"; u "USD"; u "EUR"] /\
    recipient t = PStr r /\ account_number t = account_of text /\
    iban t = iban_of text.
Proof.
  intros Hreg Hj Hd.
  destruct (parse_with_digit _ Hj Hd)
    as (tok & q & c & r & acct & ib & desc & Hq & Hc & _ & _ & Hex & Hb).
  destruct (extract_optional_fields _ _ Hex) as (a' & c' & r' & desc' & E).
  injection E as _ _ _ -> -> _.
  eexists. exists r. split; [apply parse_of_body, Hb|]. cbn.
  repeat split; auto.
  apply binary64_nonneg. now apply (decimal_literal_nonneg tok).
Qed.

(** X10: the pattern path end to end.  Without a text-generation
    service, a text with a decimal digit and no braces is always
    processed successfully: the result carries the parsed record and its
    verdict, no error, and the method label Regex.  The amount is a
    number that is not negative, and the verdict never warns about the
    currency or about the account number: the extractor produces no
    currency outside RUB, USD and EUR and no account number that fails
    the check. *)
Theorem pattern_path_end_to_end (p : TransactionProcessor) (text : str) :
  digits_regular ->
  llm p = None ->
  has_json_block text = false ->
  existsb is_decimal text = true ->
  exists t v,
    process_transaction p text =
      {| transaction_data := Some t; validation_result := Some v;
         error := None; processing_method := Regex |} /\
    parse text = Ok t /\ validate_transaction t = Ok v /\
    transaction v = t /\ float_nonneg (amount t) /\
    existsb is_unsupported_currency (warnings v) = false /\
    existsb is_suspect_account (warnings v) = false.
Proof.
  intros Hreg Hllm Hj Hd.
  destruct (parse_pattern_record _ Hreg Hj Hd)
    as (t & r & Hparse & Hamount & Hc & Hr & Hacct & Hiban).
  assert (Hsi : str_or_none (iban t) = true).
  { rewrite Hiban. destruct (iban_of_shape text) as [->|(w & -> & _)];
      reflexivity. }
  assert (Hsa : str_or_none (account_number t) = true).
  { rewrite Hacct. destruct (account_of_shape text) as [->|(w & -> & _)];
      reflexivity. }
  pose proof (validate_transaction_typed t r Hr Hsi Hsa) as Hv.
  eexists t, _. split; [|split; [exact Hparse|split; [exact Hv|]]].
  { unfold process_transaction, extract. rewrite Hllm, Hparse. cbn [bind].
    rewrite Hv. reflexivity. }
  cbn [transaction warnings]. split; [reflexivity|].
  split; [exact Hamount|]. split.
  - apply supported_not_flagged.
    destruct Hc as [<-|[<-|[<-|[]]]]; reflexivity.
  - apply checked_account_not_flagged. unfold account_warnings.
    rewrite Hacct.
    destruct (account_of_shape text) as [->|(w & -> & Hw & Hlen)];
      [reflexivity|].
    rewrite validate_account_number_check.
    rewrite digits_pass_account_check by (auto; lia).
    now destruct (truthy (PStr w)).
Qed.

End PipelineMore.

Section ProcessorMore.
Context `{Unicode} `{Library}.

(** The two shapes of a result. *)
Lemma process_transaction_cases (p : TransactionProcessor) (text : str) :
  (exists t v,
      extract p text = Ok t /\ validate_transaction t = Ok v /\
      process_transaction p text =
        {| transaction_data := Some t; validation_result := Some v;
           error := None;
           processing_method :=
             match llm p with Some _ => LLM | None => Regex end |})
  \/
  (exists e,
      (extract p text = Raise e \/
       exists t, extract p text = Ok t /\ validate_transaction t = Raise e) /\
      process_transaction p text = failed e).
Proof.
  unfold process_transaction.
  destruct (extract p text) as [t|e] eqn:He; cbn [bind].
  - destruct (validate_transaction t) as [v|e] eqn:Hv; cbn [bind].
    + left. exists t, v. auto.
    + right. exists e. split; [right; eauto|reflexivity].
  - right. exists e. split; [now left|reflexivity].
Qed.


(** X12: the fallback of [_extract_with_llm].  When the service raises,
    or when its answer cannot be parsed, the record is the one the
    patterns read from the original text, and [process_transaction] gives
    the result of pattern mode - except that a successful result is
    labelled LLM although the service contributed nothing.  So with any
    service at all, a text with a digit and no braces yields a record. *)
Theorem llm_failure_falls_back (service : str -> result str) (text : str) :
  (forall e,
      (response <- service (prompt text) ;; parse response) = Raise e ->
      _extract_with_llm service text = parse text /\
      transaction_data (process_transaction (llm_mode service) text)
      = transaction_data (process_transaction regex_mode text) /\
      validation_result (process_transaction (llm_mode service) text)
      = validation_result (process_transaction regex_mode text) /\
      error (process_transaction (llm_mode service) text)
      = error (process_transaction regex_mode text) /\
      processing_method (process_transaction (llm_mode service) text)
      = match processing_method (process_transaction regex_mode text) with
        | Regex => LLM
        | other => other
        end) /\
  (has_json_block text = false -> existsb is_decimal text = true ->
   exists t, _extract_with_llm service text = Ok t).
Proof.
  split.
  - intros e He.
    assert (Hx : _extract_with_llm service text = parse text).
    { unfold _extract_with_llm. now rewrite He. }
    split; [exact Hx|].
    unfold process_transaction, extract, llm_mode, regex_mode. cbn [llm].
    rewrite Hx. destruct (parse text) as [t|e']; cbn [bind]; auto.
    destruct (validate_transaction t) as [v|e']; cbn; auto.
  - intros Hj Hd.
    destruct (parse_with_digit _ Hj Hd)
      as (tok & q & c & r & acct & ib & desc & _ & _ & _ & _ & _ & Hb).
    apply parse_of_body in Hb. unfold _extract_with_llm.
    destruct (response <- service (prompt text) ;; parse response)
      as [t|e]; eauto.
Qed.

End ProcessorMore.

(** ** The sample character database is regular *)

Lemma basic_digits_regular : @digits_regular basic_unicode.
Proof.
  intros c Hc. cbn in Hc. cbn [is_digit decimal_value basic_unicode].
  split; [exact Hc|].
  unfold is_ascii_digit, in_range in Hc.
  apply andb_prop in Hc as [Hlo Hhi].
  apply N.leb_le in Hlo. apply N.leb_le in Hhi.
  split; [|lia].
  assert (Hcases : (c = 48 \/ c = 49 \/ c = 50 \/ c = 51 \/ c = 52
                    \/ c = 53 \/ c = 54 \/ c = 55 \/ c = 56 \/ c = 57)%N)
    by lia.
  repeat (destruct Hcases as [->|Hcases]; [reflexivity|]).
  now subst c.
Qed.

Lemma extracted_account_passes_check_witness :
  exists w,
    account_of account_text = PStr w /\
    _validate_account_number (PStr w) = Ok true.
Proof.
  unfold account_of.
  destruct (search account_pattern account_text) as [m|] eqn:Hs;
    [|vm_compute in Hs; discriminate Hs].
  destruct (@extracted_account_passes_check basic_unicode account_text m
              basic_digits_regular Hs) as (w & Hg & _ & _ & Hok).
  exists w. split; assumption.
Defined.

Lemma pattern_path_end_to_end_witness :
  exists t v,
    process_transaction regex_mode account_text =
      {| transaction_data := Some t; validation_result := Some v;
         error := None; processing_method := Regex |} /\
    existsb is_suspect_account (warnings v) = false.
Proof.
  destruct (@pattern_path_end_to_end basic_unicode no_library regex_mode
              account_text basic_digits_regular eq_refl)
    as (t & v & Hp & _ & _ & _ & _ & _ & Ha);
    [vm_compute; reflexivity|vm_compute; reflexivity|].
  exists t, v. split; assumption.
Defined.

Lemma llm_failure_falls_back_witness :
  _extract_with_llm service_down euro_text = parse euro_text /\
  processing_method (process_transaction (llm_mode service_down) euro_text)
  = LLM.
Proof.
  destruct (@llm_failure_falls_back basic_unicode no_library service_down
              euro_text) as (Hfall & _).
  destruct (Hfall OtherError eq_refl) as (Hx & _ & _ & _ & Hm).
  split; [exact Hx|]. rewrite Hm. vm_compute. reflexivity.
Defined.

(** ** Statistics *)

Lemma count_if_filter {A : Type} (test : A -> bool) (l : list A) :
  count_if test l = length (filter test l).
Proof.
  unfold count_if.
  assert (Hgen : forall n,
            fold_left (fun n r => if test r then n + 1 else n) l n
            = n + length (filter test l)).
  { induction l as [|x l IH]; intros n; simpl; [lia|].
    rewrite IH. destruct (test x); simpl; lia. }
  apply (Hgen 0).
Qed.

Lemma filter_length_le {A : Type} (test : A -> bool) (l : list A) :
  length (filter test l) <= length l.
Proof.
  induction l as [|x l IH]; simpl; [lia|]. destruct (test x); simpl; lia.
Qed.

Lemma scale2_up (a : Z) (d : positive) (k : Z) :
  (0 <= k)%Z -> scale2 a d k = ((a * 2 ^ k)%Z, d).
Proof.
  intros Hk. unfold scale2.
  now replace (0 <=? k)%Z with true by (symmetry; now apply Z.leb_le).
Qed.

Lemma scale2_down (a : Z) (d : positive) (k : Z) :
  (k < 0)%Z -> scale2 a d k = (a, (d * Z.to_pos (2 ^ (- k)))%positive).
Proof.
  intros Hk. unfold scale2.
  now replace (0 <=? k)%Z with false by (symmetry; now apply Z.leb_gt).
Qed.

Lemma round_half_even_le (n : Z) (d : positive) :
  (round_half_even n d <= n / Zpos d + 1)%Z.
Proof.
  unfold round_half_even.
  destruct (2 * (n mod Zpos d) ?= Zpos d)%Z; [|lia|lia].
  destruct (Z.even (n / Zpos d)); lia.
Qed.

(** A ratio between 0 and 1 rounds to a finite float. *)
Lemma binary64_ratio_finite (a : Z) (d : positive) :
  (0 <= a <= Zpos d)%Z -> exists q, binary64 (Qmake a d) = Finite q.
Proof.
  intros Ha. unfold binary64. cbv zeta. cbn [Qnum Qden].
  destruct (a =? 0)%Z eqn:Hz; [eauto|].
  apply Z.eqb_neq in Hz. rewrite (Z.abs_eq a) by lia.
  assert (He0 : (Z.log2 a - Z.log2 (Zpos d) <= 0)%Z).
  { pose proof (Z.log2_le_mono a (Zpos d)). lia. }
  destruct (scale2 a d (- (Z.log2 a - Z.log2 (Zpos d)))) as [a0 d0].
  set (e := if (a0 <? Zpos d0)%Z
            then (Z.log2 a - Z.log2 (Z.pos d) - 1)%Z
            else (Z.log2 a - Z.log2 (Z.pos d))%Z).
  assert (He : (e <= 0)%Z) by (unfold e; destruct (a0 <? Zpos d0)%Z; lia).
  set (ulp := Z.max (e - 52) (-1074)).
  assert (Hulp : (-1074 <= ulp <= -52)%Z) by (unfold ulp; lia).
  clearbody ulp. clear e He.
  rewrite (scale2_up a d (- ulp)) by lia.
  rewrite (scale2_down _ 1 ulp) by lia.
  set (K := (2 ^ (- ulp))%Z).
  assert (HK : (0 < K)%Z) by (apply Z.pow_pos_nonneg; lia).
  assert (Hm : (round_half_even (a * K) d <= K + 1)%Z).
  { pose proof (round_half_even_le (a * K) d) as Hle.
    assert ((a * K / Zpos d <= K)%Z); [|lia].
    apply Z.div_le_upper_bound; [lia|]. nia. }
  assert (Hbig : (2 <= 2 ^ 1024)%Z).
  { change 2%Z with (2 ^ 1)%Z at 1. apply Z.pow_le_mono_r; lia. }
  replace (2 ^ 1024 * Zpos (1 * Z.to_pos K) <=? round_half_even (a * K) d)%Z
    with false; [eauto|].
  symmetry. apply Z.leb_gt.
  rewrite Pos.mul_1_l, Z2Pos.id by assumption.
  assert (HK2 : (2 <= K)%Z).
  { unfold K. change 2%Z with (2 ^ 1)%Z at 1. apply Z.pow_le_mono_r; lia. }
  set (P := (2 ^ 1024)%Z) in *. clearbody P.
  set (m := round_half_even (a * K) d) in *. clearbody m. nia.
Qed.

(** A ratio of a positive number to itself rounds to 1.0. *)
Lemma binary64_unit_ratio (d : positive) :
  binary64 (Qmake (Zpos d) d) = Finite 1.
Proof.
  unfold binary64. cbv zeta. cbn [Qnum Qden].
  change (Zpos d =? 0)%Z with false. cbv iota.
  change (Z.abs (Zpos d)) with (Zpos d).
  rewrite Z.sub_diag. change (- 0)%Z with 0%Z.
  rewrite (scale2_up _ d 0) by lia.
  replace (Zpos d * 2 ^ 0 <? Zpos d)%Z with false
    by (symmetry; apply Z.ltb_ge; lia).
  change (Z.max (0 - 52) (-1074)) with (-52)%Z.
  rewrite (scale2_up _ d (- -52)) by lia.
  assert (Hm : round_half_even (Zpos d * 2 ^ (- -52)) d = (2 ^ 52)%Z).
  { unfold round_half_even. change (- -52)%Z with 52%Z.
    rewrite (Z.mul_comm (Zpos d)), Z.div_mul, Z.mod_mul by lia.
    now replace (2 * 0 ?= Zpos d)%Z with Lt. }
  rewrite Hm. vm_compute. reflexivity.
Qed.

Lemma percentage_returns (count total : nat) :
  count <= total ->
  exists v, percentage count total = Ok v /\
            is_float v = negb (total =? 0).
Proof.
  intros Hle. unfold percentage.
  destruct (Nat.ltb_spec 0 total) as [Hpos|Hzero].
  - unfold int_truediv.
    replace (Z.of_nat total =? 0)%Z with false
      by (symmetry; apply Z.eqb_neq; lia).
    rewrite Z.sgn_pos, Z.abs_eq, Z.mul_1_r by lia.
    destruct (binary64_ratio_finite (Z.of_nat count)
                (Z.to_pos (Z.of_nat total))) as (q & ->).
    { rewrite Z2Pos.id by lia. lia. }
    cbn [bind]. eexists. split; [reflexivity|].
    destruct total; [lia|reflexivity].
  - eexists. split; [reflexivity|].
    replace total with 0 by lia. reflexivity.
Qed.

Lemma percentage_full (total : nat) :
  0 < total -> percentage total total = Ok (PFloat (Finite 100)).
Proof.
  intros Hpos. unfold percentage, int_truediv.
  replace (0 <? total) with true by (symmetry; now apply Nat.ltb_lt).
  replace (Z.of_nat total =? 0)%Z with false
    by (symmetry; apply Z.eqb_neq; lia).
  rewrite Z.sgn_pos, Z.abs_eq, Z.mul_1_r by lia.
  rewrite <- (Z2Pos.id (Z.of_nat total)) at 1 by lia.
  rewrite binary64_unit_ratio. vm_compute. reflexivity.
Qed.

Lemma lookup_assign {V : Type} (c k : str) (v : V) (d : list (str * V)) :
  lookup k (assign c v d) = if str_eqb c k then Some v else lookup k d.
Proof.
  induction d as [|[k0 x] d IH]; simpl.
  - destruct (str_eqb c k); reflexivity.
  - destruct (str_eqb k0 c) eqn:E0; simpl.
    + apply str_eqb_eq in E0. subst k0. destruct (str_eqb c k); reflexivity.
    + rewrite IH. destruct (str_eqb k0 k) eqn:E1; [|reflexivity].
      destruct (str_eqb c k) eqn:E2; [|reflexivity].
      apply str_eqb_eq in E1. apply str_eqb_eq in E2. subst.
      rewrite str_eqb_refl in E0. discriminate.
Qed.

Lemma assign_same_keys {V W : Type} (c : str) (v : V) (w : W)
    (d1 : list (str * V)) (d2 : list (str * W)) :
  map fst d1 = map fst d2 ->
  map fst (assign c v d1) = map fst (assign c w d2).
Proof.
  revert d2. induction d1 as [|[k1 x1] d1 IH]; intros [|[k2 x2] d2] Hk;
    try discriminate Hk; [reflexivity|].
  simpl in Hk. injection Hk as <- Hk. simpl.
  destruct (str_eqb k1 c); simpl; f_equal; auto.
Qed.

Lemma sum_assign (c : str) (d : list (str * nat)) :
  list_sum
    (map snd
       (assign c (match lookup c d with Some n => n | None => 0 end + 1) d))
  = list_sum (map snd d) + 1.
Proof.
  induction d as [|[k0 x] d IH]; simpl; [reflexivity|].
  destruct (str_eqb k0 c); simpl; [lia|]. rewrite IH. lia.
Qed.

(** The loop of [get_statistics], currency by currency. *)
Lemma tally_fold (results : list ProcessingResult) :
  forall (cs : list (str * nat)) (ts : list (str * pyfloat))
         (n : str -> nat),
    (forall k, lookup k cs = if n k =? 0 then None else Some (n k)) ->
    map fst ts = map fst cs ->
    (forall k,
        lookup k (fst (fold_left tally results (cs, ts)))
        = if n k + currency_count k results =? 0 then None
          else Some (n k + currency_count k results)) /\
    map fst (snd (fold_left tally results (cs, ts)))
    = map fst (fst (fold_left tally results (cs, ts))) /\
    list_sum (map snd (fst (fold_left tally results (cs, ts))))
    = list_sum (map snd cs) + length (filter has_record results).
Proof.
  induction results as [|r results IH]; intros cs ts n Hn Hk.
  - simpl. split; [|split; [assumption|lia]].
    intros k. unfold currency_count. simpl. now rewrite Nat.add_0_r.
  - assert (Hcc : forall k,
              currency_count k (r :: results)
              = (if has_currency k r then 1 else 0)
                + currency_count k results).
    { intros k. unfold currency_count. simpl.
      now destruct (has_currency k r). }
    assert (Hrec : length (filter has_record (r :: results))
                   = (if has_record r then 1 else 0)
                     + length (filter has_record results)).
    { simpl. now destruct (has_record r). }
    rewrite Hrec. cbn [fold_left]. unfold has_record at 1.
    destruct (transaction_data r) as [t|] eqn:Ht.
    + assert (Hcur : forall k, has_currency k r = str_eqb (currency t) k).
      { intros k. unfold has_currency. now rewrite Ht. }
      set (cs' := assign (currency t)
                    (match lookup (currency t) cs with
                     | Some m => m
                     | None => 0
                     end + 1) cs).
      set (ts' := assign (currency t)
                    (float_add
                       (match lookup (currency t) ts with
                        | Some f => f
                        | None => Finite 0
                        end) (amount t)) ts).
      assert (Hstep : tally (cs, ts) r = (cs', ts')).
      { unfold tally. now rewrite Ht. }
      rewrite Hstep.
      destruct (IH cs' ts'
                  (fun k => n k + if str_eqb (currency t) k then 1 else 0))
        as (Hl & Hkeys & Hsum).
      * intros k. unfold cs'. rewrite lookup_assign, (Hn k).
        destruct (str_eqb (currency t) k) eqn:E.
        -- apply str_eqb_eq in E. subst k. rewrite (Hn (currency t)).
           destruct (n (currency t)) as [|m]; simpl.
           ++ reflexivity.
           ++ replace (m + 1 =? 0) with false
                by (symmetry; apply Nat.eqb_neq; lia).
              reflexivity.
        -- now rewrite Nat.add_0_r.
      * unfold cs', ts'. now apply assign_same_keys.
      * split; [|split; [exact Hkeys|]].
        -- intros k. rewrite Hl, Hcc, Hcur, Nat.add_assoc. reflexivity.
        -- rewrite Hsum. unfold cs'. rewrite sum_assign. lia.
    + assert (Hcur : forall k, has_currency k r = false).
      { intros k. unfold has_currency. now rewrite Ht. }
      assert (Hstep : tally (cs, ts) r = (cs, ts)).
      { unfold tally. now rewrite Ht. }
      rewrite Hstep. destruct (IH cs ts n Hn Hk) as (Hl & Hkeys & Hsum).
      split; [|split; [exact Hkeys|exact Hsum]].
      intros k. now rewrite Hl, Hcc, Hcur.
Qed.

Lemma get_statistics_spec (results : list ProcessingResult) :
  exists st,
    get_statistics results = Ok st /\
    total_transactions st = length results /\
    successful_extractions st = length (filter has_record results) /\
    valid_transactions st = length (filter has_valid_verdict results) /\
    percentage (successful_extractions st) (total_transactions st)
    = Ok (success_rate st) /\
    percentage (valid_transactions st) (total_transactions st)
    = Ok (validation_rate st) /\
    (forall c,
        lookup c (currencies st)
        = if currency_count c results =? 0 then None
          else Some (currency_count c results)) /\
    map fst (total_amounts st) = map fst (currencies st) /\
    list_sum (map snd (currencies st)) = successful_extractions st.
Proof.
  unfold get_statistics. rewrite !count_if_filter.
  change (fun r : ProcessingResult =>
            match transaction_data r with
            | Some _ => true
            | None => false
            end) with has_record.
  change (fun r : ProcessingResult =>
            match validation_result r with
            | Some v => is_valid v
            | None => false
            end) with has_valid_verdict.
  destruct (tally_fold results [] [] (fun _ => 0)) as (Hl & Hk & Hsum);
    [reflexivity|reflexivity|].
  destruct (fold_left tally results ([], [])) as [cs ts]. simpl in Hl, Hk, Hsum.
  destruct (percentage_returns (length (filter has_record results))
              (length results) (filter_length_le _ _)) as (v1 & Hv1 & _).
  destruct (percentage_returns (length (filter has_valid_verdict results))
              (length results) (filter_length_le _ _)) as (v2 & Hv2 & _).
  rewrite Hv1, Hv2. cbn [bind]. eexists. split; [reflexivity|].
  cbn. repeat split; auto.
Qed.

(** X13: [get_statistics] returns on every list of results: it never
    divides by zero and never overflows.  It counts the results, those
    with a record and those with a verdict "valid"; neither count exceeds
    the total.  Both rates are the integer 0 for the empty list and floats
    otherwise.  The entry of a currency in [currencies] is the number of
    records with that currency, and a currency without records has no
    entry; the entries add up to the number of records; and
    [total_amounts] has the same keys in the same order. *)
Theorem statistics_of_any_results (results : list ProcessingResult) :
  exists st,
    get_statistics results = Ok st /\
    total_transactions st = length results /\
    successful_extractions st = length (filter has_record results) /\
    valid_transactions st = length (filter has_valid_verdict results) /\
    successful_extractions st <= total_transactions st /\
    valid_transactions st <= total_transactions st /\
    (results = [] ->
     success_rate st = PInt 0 /\ validation_rate st = PInt 0) /\
    (results <> [] ->
     is_float (success_rate st) = true /\
     is_float (validation_rate st) = true) /\
    (forall c,
        lookup c (currencies st)
        = if currency_count c results =? 0 then None
          else Some (currency_count c results)) /\
    map fst (total_amounts st) = map fst (currencies st) /\
    list_sum (map snd (currencies st)) = successful_extractions st.
Proof.
  destruct (get_statistics_spec results)
    as (st & Hst & Ht & Hs & Hv & Hsr & Hvr & Hc & Hk & Hsum).
  exists st. split; [exact Hst|].
  assert (Hs_le : successful_extractions st <= total_transactions st).
  { rewrite Hs, Ht. apply filter_length_le. }
  assert (Hv_le : valid_transactions st <= total_transactions st).
  { rewrite Hv, Ht. apply filter_length_le. }
  destruct (percentage_returns _ _ Hs_le) as (v1 & Hv1 & Hf1).
  destruct (percentage_returns _ _ Hv_le) as (v2 & Hv2 & Hf2).
  rewrite Hsr in Hv1. injection Hv1 as <-.
  rewrite Hvr in Hv2. injection Hv2 as <-.
  repeat split; auto.
  - subst results. rewrite Ht in Hsr. cbn in Hsr. now injection Hsr.
  - subst results. rewrite Ht in Hvr. cbn in Hvr. now injection Hvr.
  - rewrite Hf1, Ht. destruct results; [contradiction|reflexivity].
  - rewrite Hf2, Ht. destruct results; [contradiction|reflexivity].
Qed.

Lemma filter_length_mono {A : Type} (p q : A -> bool) (l : list A) :
  (forall x, In x l -> p x = true -> q x = true) ->
  length (filter p l) <= length (filter q l).
Proof.
  induction l as [|x l IH]; intros Hpq; simpl; [lia|].
  assert (Hl : length (filter p l) <= length (filter q l)).
  { apply IH. intros y Hy. apply Hpq. now right. }
  destruct (p x) eqn:Hp.
  - rewrite (Hpq x (or_introl eq_refl) Hp). simpl. lia.
  - destruct (q x); simpl; lia.
Qed.

Section BatchStatistics.
Context `{Unicode} `{Library}.

(** X14: the statistics of a batch.  On the results of [batch_process]
    the total is the number of texts, and the number of valid
    transactions never exceeds the number of extracted ones, since a
    result has a verdict only together with a record.  When every text of
    a non-empty batch was extracted the success rate is exactly 100.0,
    and likewise the validation rate when every text was found valid:
    the division and the multiplication by 100 lose nothing. *)
Theorem statistics_of_a_batch (p : TransactionProcessor)
    (texts : list str) :
  exists st,
    get_statistics (batch_process p texts) = Ok st /\
    total_transactions st = length texts /\
    valid_transactions st <= successful_extractions st /\
    (texts <> [] -> successful_extractions st = length texts ->
     success_rate st = PFloat (Finite 100)) /\
    (texts <> [] -> valid_transactions st = length texts ->
     validation_rate st = PFloat (Finite 100)).
Proof.
  destruct (get_statistics_spec (batch_process p texts))
    as (st & Hst & Ht & Hs & Hv & Hsr & Hvr & _).
  exists st. split; [exact Hst|].
  assert (Hlen : total_transactions st = length texts).
  { rewrite Ht, batch_process_map. apply length_map. }
  assert (Hfull : texts <> [] -> 0 < length texts).
  { destruct texts; [contradiction|simpl; lia]. }
  split; [exact Hlen|]. split; [|split].
  - rewrite Hv, Hs. apply filter_length_mono. intros r Hin Hvalid.
    rewrite batch_process_map in Hin.
    apply in_map_iff in Hin as (text & <- & _).
    unfold has_valid_verdict in Hvalid. unfold has_record.
    destruct (process_transaction_cases p text)
      as [(t & v & _ & _ & Hp)|(e & _ & Hp)]; rewrite Hp in *;
      [reflexivity|discriminate Hvalid].
  - intros Hne Hall. rewrite Hlen, Hall, percentage_full in Hsr by auto.
    now injection Hsr.
  - intros Hne Hall. rewrite Hlen, Hall, percentage_full in Hvr by auto.
    now injection Hvr.
Qed.

End BatchStatistics.

Lemma statistics_of_a_batch_witness :
  exists st,
    get_statistics (batch_process regex_mode [euro_text; account_text])
    = Ok st /\
    success_rate st = PFloat (Finite 100) /\
    validation_rate st = PFloat (Finite 100).
Proof.
  destruct (@statistics_of_a_batch basic_unicode no_library regex_mode
              [euro_text; account_text])
    as (st & Hst & _ & _ & Hs & Hv).
  exists st. split; [exact Hst|].
  vm_compute in Hst. injection Hst as <-.
  split; [apply Hs|apply Hv]; try discriminate; reflexivity.
Defined.

(** ** Masking *)

Lemma slice_head (s : str) (n : nat) :
  n <= length s -> slice s 0 (Z.of_nat n) = firstn n s.
Proof.
  intros Hn. unfold slice, clamp_index.
  replace (Z.of_nat n <? 0)%Z with false by (symmetry; apply Z.ltb_ge; lia).
  change (0 <? 0)%Z with false. cbv iota.
  rewrite Z.min_l, Z.min_l by lia.
  rewrite Z.sub_0_r, Nat2Z.id. reflexivity.
Qed.

Lemma slice_tail (s : str) (n : nat) :
  0 < n <= length s ->
  slice s (- Z.of_nat n) (Z.of_nat (length s)) = skipn (length s - n) s.
Proof.
  intros Hn. unfold slice, clamp_index.
  replace (- Z.of_nat n <? 0)%Z with true by (symmetry; apply Z.ltb_lt; lia).
  replace (Z.of_nat (length s) <? 0)%Z with false
    by (symmetry; apply Z.ltb_ge; lia).
  rewrite Z.max_l, Z.min_l by lia.
  replace (Z.to_nat (- Z.of_nat n + Z.of_nat (length s)))
    with (length s - n) by lia.
  apply firstn_all2. rewrite length_skipn. lia.
Qed.

Lemma stars_length (n : nat) : length (stars n) = n.
Proof. apply repeat_length. Qed.

Lemma mask_middle_shape (data : str) :
  length (mask_middle data) = length data /\
  (8 < length data ->
   mask_middle data =
   firstn 4 data ++ stars (length data - 8)
   ++ skipn (length data - 4) data) /\
  (length data <= 8 -> mask_middle data = stars (length data)).
Proof.
  unfold mask_middle.
  destruct (Nat.ltb_spec 8 (length data)) as [Hlong|Hshort].
  - change (slice data 0 4) with (slice data 0 (Z.of_nat 4)).
    change (slice data (-4)) with (slice data (- Z.of_nat 4)).
    rewrite (slice_head data 4), (slice_tail data 4) by lia.
    split; [|split; [reflexivity|lia]].
    rewrite !length_app, stars_length, length_firstn, length_skipn. lia.
  - split; [apply stars_length|]. split; [lia|reflexivity].
Qed.

(** X15: masking of an account number or an IBAN keeps the length of the
    text.  A text of more than eight characters keeps its first four and
    its last four characters and has every character between them
    replaced by a star; a text of up to eight characters is replaced by
    stars altogether; the empty text is returned as it is. *)
Theorem mask_keeps_ends (data field_type : str) :
  field_type = u "account" \/ field_type = u "iban" ->
  exists masked,
    mask_sensitive_data data field_type = Ok masked /\
    length masked = length data /\
    (8 < length data ->
     masked = firstn 4 data ++ stars (length data - 8)
              ++ skipn (length data - 4) data) /\
    (length data <= 8 -> masked = stars (length data)).
Proof.
  intros Hft. destruct (mask_middle_shape data) as (Hlen & Hlong & Hshort).
  destruct data as [|c data].
  { exists []. repeat split; auto. }
  exists (mask_middle (c :: data)). split; [|auto].
  unfold mask_sensitive_data. destruct Hft as [-> | ->]; reflexivity.
Qed.

Lemma mask_keeps_ends_witness :
  mask_sensitive_data (u "40817810123456789012") (u "account")
  = Ok (u "4081************9012").
Proof.
  destruct (mask_keeps_ends (u "40817810123456789012") (u "account")
              (or_introl eq_refl)) as (masked & -> & _ & Hlong & _).
  rewrite Hlong by (vm_compute; lia). vm_compute. reflexivity.
Defined.



(** ** All the numbers of a text *)

(** Every match [findall] lists is a word of the pattern, and a piece of
    the text. *)
Lemma findall_sound (r : regex) (s : str) :
  forall skip i,
    Forall (fun w => lang r w /\ exists pre post, s = pre ++ w ++ post)
           (findall_from r skip i s).
Proof.
  assert (Hcons : forall (c : cp) (s' : str) (l : list str),
             Forall (fun w => lang r w /\
                              exists pre post, s' = pre ++ w ++ post) l ->
             Forall (fun w => lang r w /\
                              exists pre post, c :: s' = pre ++ w ++ post) l).
  { intros c s' l. apply Forall_impl.
    intros w (Hl & pre & post & ->). split; [exact Hl|].
    now exists (c :: pre), post. }
  induction s as [|c s IH]; intros skip i.
  - destruct skip as [|skip]; cbn [findall_from]; [|constructor].
    destruct (run r (finish i) (MState i [] None)) as [m|] eqn:Hrun;
      [|constructor].
    constructor; [|constructor].
    destruct (run_sound _ _ _ _ _ Hrun) as (w & st' & Hr & Hp & Hl & Hk & _).
    simpl in Hr, Hp. unfold finish in Hk. injection Hk as <-. simpl.
    destruct w; [|discriminate Hr]. simpl. rewrite firstn_nil.
    split; [exact Hl|]. now exists [], [].
  - destruct skip as [|skip]; cbn [findall_from]; [|apply Hcons, IH].
    destruct (run r (finish i) (MState i (c :: s) None)) as [m|] eqn:Hrun;
      [|apply Hcons, IH].
    constructor; [|apply Hcons, IH].
    destruct (run_sound _ _ _ _ _ Hrun) as (w & st' & Hr & Hp & Hl & Hk & _).
    simpl in Hr, Hp. unfold finish in Hk. injection Hk as <-. cbn [m_end].
    rewrite Hp, Hr. replace (i + length w - i) with (length w) by lia.
    rewrite firstn_app, Nat.sub_diag, firstn_all. simpl firstn.
    rewrite app_nil_r. split; [exact Hl|]. now exists [], (rest st').
Qed.

Section NumberFacts.
Context `{Unicode} `{Library}.

Lemma run_number_finish (i : nat) (s : str) :
  run number (finish i) (MState i s None) =
  match number_at s with
  | Some (tok, _) => Some (RMatch i (i + length tok) None)
  | None => None
  end.
Proof.
  rewrite run_number_total by discriminate. simpl.
  now destruct (number_at s) as [[tok s']|].
Qed.

(** The first match of [findall] is the first numeric token. *)
Lemma findall_number_head (s : str) :
  forall i, hd_error (findall_from number 0 i s) = first_numeric_token s.
Proof.
  induction s as [|c s IH]; intros i; cbn [findall_from first_numeric_token];
    rewrite run_number_finish.
  - reflexivity.
  - destruct (number_at (c :: s)) as [[tok s']|] eqn:Hn; [|apply IH].
    cbn [hd_error m_end]. apply number_at_split in Hn. rewrite Hn.
    replace (i + length tok - i) with (length tok) by lia.
    rewrite firstn_app, Nat.sub_diag, firstn_all. simpl firstn.
    now rewrite app_nil_r.
Qed.

Lemma floats_of_numbers (l : list str) :
  Forall (lang number) l ->
  exists fs,
    floats l = Ok fs /\
    Forall2 (fun tok f => exists q, decimal_literal tok = Some q /\
                                    f = binary64 q) l fs.
Proof.
  induction 1 as [|tok l Htok Hl (fs & IH & Hfs)].
  - exists []. split; [reflexivity|constructor].
  - destruct (py_float_number _ Htok) as (q & Hq & Hf).
    exists (binary64 q :: fs). cbn [floats]. rewrite Hf, IH.
    split; [reflexivity|]. constructor; eauto.
Qed.

(** X17: [extract_numbers] returns on every text, and its handler for
    [ValueError] is never entered: every match of the number pattern is a
    decimal literal, and the list holds the float of each.  The list is
    empty exactly when the text has no decimal digit; otherwise its first
    element is the amount the extractor falls back to when no currency
    pattern is found. *)
Theorem extract_numbers_total (text : str) :
  exists fs,
    extract_numbers text = Ok fs /\
    floats (findall number text) = Ok fs /\
    Forall2 (fun tok f => exists q, decimal_literal tok = Some q /\
                                    f = binary64 q)
            (findall number text) fs /\
    (fs = [] <-> existsb is_decimal text = false) /\
    (forall m, search bare_number text = Some m ->
               exists more, py_float (group m) = Ok (hd NaN fs) /\
                            fs = hd NaN fs :: more).
Proof.
  pose proof (findall_sound number text 0 0) as Hall.
  fold (findall number text) in Hall.
  destruct (floats_of_numbers (findall number text)) as (fs & Hfs & Hrel).
  { revert Hall. apply Forall_impl. now intros w [Hw _]. }
  pose proof (findall_number_head text 0) as Hhead.
  fold (findall number text) in Hhead.
  exists fs. split; [|split; [exact Hfs|split; [exact Hrel|split]]].
  - unfold extract_numbers. now rewrite Hfs.
  - remember (findall number text) as toks eqn:Htoks. split.
    + intros ->. inversion Hrel; subst toks.
      destruct (existsb is_decimal text) eqn:Hd; [|reflexivity].
      destruct (first_numeric_token_exists _ Hd) as (tok & Htok).
      rewrite Htok in Hhead. match goal with E : [] = _ |- _ =>
        rewrite <- E in Hhead end. discriminate Hhead.
    + intros Hno. destruct Hrel as [|tok f l fs' _ _]; [reflexivity|].
      exfalso. apply Forall_inv in Hall as (Hw & pre & post & Htext).
      destruct (lang_number_head _ Hw) as (d & t & -> & Hd).
      rewrite Htext, existsb_app in Hno. simpl in Hno.
      rewrite Hd in Hno. simpl in Hno. now rewrite orb_true_r in Hno.
  - remember (findall number text) as toks eqn:Htoks.
    intros m Hs. pose proof (search_bare_number text 0) as Hbare.
    fold (search bare_number text) in Hbare. rewrite Hs in Hbare.
    simpl in Hbare.
    destruct (first_numeric_token text) as [tok|] eqn:Htok;
      [|discriminate Hbare].
    injection Hbare as Hg.
    destruct Hrel as [|tok' f l fs' (q & Hq & ->) _];
      [discriminate Hhead|].
    simpl in Hhead. injection Hhead as ->.
    exists fs'. split; [|reflexivity]. unfold group. rewrite Hg.
    simpl. unfold float_of_str. now rewrite Hq.
Qed.

End NumberFacts.

(** ** Masking of e-mail addresses *)

Lemma split_on_count (c : cp) (s : str) :
  length (split_on c s) = S (occurrences c s).
Proof.
  unfold occurrences. induction s as [|x s IH]; [reflexivity|].
  cbn [split_on filter]. rewrite (N.eqb_sym c x).
  destruct (x =? c)%N; cbn [length]; [now rewrite IH|].
  destruct (split_on c s) as [|part parts]; [discriminate IH|].
  exact IH.
Qed.

Lemma split_on_single (c : cp) (s part : str) :
  split_on c s = [part] -> s = part.
Proof.
  revert part. induction s as [|x s IH]; intros part; cbn [split_on].
  - now intros [= <-].
  - destruct (x =? c)%N.
    + intros E. assert (E2 : split_on c s = []) by congruence.
      pose proof (split_on_count c s) as Hn. rewrite E2 in Hn.
      discriminate Hn.
    + destruct (split_on c s) as [|p ps] eqn:Hs; intros E.
      * pose proof (split_on_count c s) as Hn. rewrite Hs in Hn.
        discriminate Hn.
      * assert (E1 : part = x :: p) by congruence.
        assert (E2 : ps = []) by congruence. subst.
        f_equal. now apply IH.
Qed.

Lemma split_on_pair (c : cp) (s a b : str) :
  split_on c s = [a; b] -> s = a ++ c :: b.
Proof.
  revert a. induction s as [|x s IH]; intros a; cbn [split_on];
    [discriminate|].
  destruct (N.eqb_spec x c) as [->|Hne].
  - intros E. assert (E1 : a = []) by congruence.
    assert (E2 : split_on c s = [b]) by congruence. subst a. simpl.
    f_equal. now apply split_on_single in E2.
  - destruct (split_on c s) as [|p ps] eqn:Hs; [discriminate|].
    intros E. assert (E1 : a = x :: p) by congruence.
    assert (E2 : ps = [b]) by congruence. subst. simpl. f_equal.
    now apply IH.
Qed.

Lemma has_char_occurrences (c : cp) (s : str) :
  has_char c s = negb (occurrences c s =? 0).
Proof.
  unfold has_char, occurrences. induction s as [|x s IH]; [reflexivity|].
  simpl. destruct (c =? x)%N; simpl; [reflexivity|exact IH].
Qed.

(** X18: masking of an e-mail address.  A text without the sign is
    returned unmasked.  A text with exactly one sign keeps the first
    character of the part before it, has the rest of that part replaced
    by stars, and keeps the sign and the whole domain.  A text with two
    or more signs makes [mask_sensitive_data] raise [ValueError]: the
    unpacking of the two parts fails, and nothing in the function catches
    it. *)
Theorem mask_email_outcomes (data : str) :
  (occurrences (chr "@") data = 0 ->
   mask_sensitive_data data (u "email") = Ok data) /\
  (occurrences (chr "@") data = 1 ->
   exists username domain,
     data = username ++ chr "@" :: domain /\
     mask_sensitive_data data (u "email") =
     Ok ((if 1 <? length username
          then firstn 1 username ++ stars (length username - 1)
          else username) ++ chr "@" :: domain)) /\
  (2 <= occurrences (chr "@") data ->
   exists msg, mask_sensitive_data data (u "email") = Raise (ValueError msg)).
Proof.
  pose proof (split_on_count (chr "@") data) as Hn.
  pose proof (has_char_occurrences (chr "@") data) as Hc.
  assert (Hmask : data <> [] ->
            mask_sensitive_data data (u "email") =
            if has_char (chr "@") data then
              match split_on (chr "@") data with
              | [username; domain] =>
                  Ok ((if 1 <? length username
                       then slice username 0 1 ++ stars (length username - 1)
                       else username) ++ u "@" ++ domain)
              | _ => Raise (ValueError
                              (u "too many values to unpack (expected 2)"))
              end
            else Ok data).
  { destruct data; [contradiction|reflexivity]. }
  split; [|split]; intros Hocc.
  - destruct data as [|c data]; [reflexivity|].
    rewrite Hmask by discriminate. now rewrite Hc, Hocc.
  - assert (Hne : data <> []) by (intros ->; discriminate Hocc).
    rewrite (Hmask Hne), Hc, Hocc. cbn [Nat.eqb negb].
    rewrite Hocc in Hn.
    destruct (split_on (chr "@") data) as [|a [|b [|x l]]] eqn:Hs;
      try discriminate Hn.
    exists a, b. split; [now apply split_on_pair|].
    destruct (Nat.ltb_spec 1 (length a)) as [Hlong|Hshort]; [|reflexivity].
    change (slice a 0 1) with (slice a 0 (Z.of_nat 1)).
    rewrite slice_head by lia. reflexivity.
  - assert (Hne : data <> []).
    { intros ->. unfold occurrences in Hocc. simpl in Hocc. lia. }
    rewrite (Hmask Hne), Hc.
    replace (occurrences (chr "@") data =? 0) with false
      by (symmetry; apply Nat.eqb_neq; lia).
    cbn [negb].
    destruct (split_on (chr "@") data) as [|a [|b [|x l]]] eqn:Hs;
      simpl in Hn; try lia; eauto.
Qed.

Lemma mask_email_outcomes_witness :
  mask_sensitive_data (u "ivan.bank.ru") (u "email") = Ok (u "ivan.bank.ru")
  /\ exists msg,
       mask_sensitive_data (u "a@b@c") (u "email") = Raise (ValueError msg).
Proof.
  split.
  - destruct (mask_email_outcomes (u "ivan.bank.ru")) as (Hnone & _).
    apply Hnone. reflexivity.
  - destruct (mask_email_outcomes (u "a@b@c")) as (_ & _ & Hmany).
    apply Hmany. vm_compute. lia.
Defined.

Example mask_email_sample :
  mask_sensitive_data (u "ivan@bank.ru") (u "email") = Ok (u "i***@bank.ru").
Proof. vm_compute. reflexivity. Qed.

(** ** Texts with braces *)

Lemma find_spec (c : cp) (s : str) :
  has_char c s = true ->
  exists pre post,
    s = pre ++ c :: post /\ has_char c pre = false /\
    find c s = Z.of_nat (length pre).
Proof.
  unfold has_char. induction s as [|x s IH]; [discriminate|].
  cbn [existsb find]. rewrite (N.eqb_sym c x).
  destruct (N.eqb_spec x c) as [->|Hne].
  - intros _. now exists [], s.
  - cbn [orb]. intros Hs. destruct (IH Hs) as (pre & post & -> & Hpre & Hf).
    exists (x :: pre), post. rewrite Hf. cbn [existsb length app].
    replace (c =? x)%N with false by (symmetry; apply N.eqb_neq; congruence).
    replace (Z.of_nat (length pre) <? 0)%Z with false
      by (symmetry; apply Z.ltb_ge; lia).
    repeat split; auto. lia.
Qed.

Lemma rfind_none (c : cp) (s : str) :
  has_char c s = false -> rfind c s = (-1)%Z.
Proof.
  unfold has_char. induction s as [|x s IH]; [reflexivity|].
  cbn [existsb rfind]. intros Hs. apply orb_false_elim in Hs as [Hx Hs].
  rewrite (IH Hs). rewrite N.eqb_sym in Hx. now rewrite Hx.
Qed.

Lemma rfind_spec (c : cp) (s : str) :
  has_char c s = true ->
  exists pre post,
    s = pre ++ c :: post /\ has_char c post = false /\
    rfind c s = Z.of_nat (length pre).
Proof.
  induction s as [|x s IH]; [discriminate|].
  cbn [rfind]. destruct (has_char c s) eqn:Hs.
  - intros _. destruct (IH eq_refl) as (pre & post & -> & Hpost & Hf).
    exists (x :: pre), post. rewrite Hf. cbn [length app].
    replace (0 <=? Z.of_nat (length pre))%Z with true
      by (symmetry; apply Z.leb_le; lia).
    repeat split; auto. lia.
  - unfold has_char. cbn [existsb]. fold (has_char c s). rewrite Hs, orb_false_r.
    intros Hx. apply N.eqb_eq in Hx. subst x.
    rewrite (rfind_none _ _ Hs), N.eqb_refl. now exists [], s.
Qed.

Lemma app_split_lt {A : Type} (pre1 pre2 r1 r2 : list A) (x y : A) :
  pre1 ++ x :: r1 = pre2 ++ y :: r2 ->
  length pre1 < length pre2 ->
  exists mid, pre2 = pre1 ++ x :: mid /\ r1 = mid ++ y :: r2.
Proof.
  revert pre2. induction pre1 as [|a pre1 IH]; intros [|b pre2] E Hlen;
    simpl in Hlen; try lia.
  - simpl in E. injection E as <- ->. now exists pre2.
  - simpl in E. injection E as <- E.
    destruct (IH pre2 E) as (mid & -> & ->); [lia|]. now exists mid.
Qed.

(** X19: the block cut out for [json.loads] when the text has both
    braces.  When the first opening brace comes before the last closing
    one, the block runs from the one to the other, both included.  When
    the last closing brace comes first, the block is the empty text. *)
Theorem json_block_shape (text : str) :
  has_json_block text = true ->
  (exists pre mid post,
      text = pre ++ chr "{" :: mid ++ chr "}" :: post /\
      has_char (chr "{") pre = false /\ has_char (chr "}") post = false /\
      json_block text = chr "{" :: mid ++ [chr "}"])
  \/
  (exists pre mid post,
      text = pre ++ chr "}" :: mid ++ chr "{" :: post /\
      has_char (chr "{") (pre ++ chr "}" :: mid) = false /\
      has_char (chr "}") (mid ++ chr "{" :: post) = false /\
      json_block text = []).
Proof.
  unfold has_json_block. intros Hj. apply andb_prop in Hj as [Ho Hc].
  destruct (find_spec _ _ Ho) as (pre1 & post1 & E1 & Hpre1 & Hf).
  destruct (rfind_spec _ _ Hc) as (pre2 & post2 & E2 & Hpost2 & Hr).
  unfold json_block, slice, clamp_index. rewrite Hf, Hr.
  assert (Hlen1 : length text = length pre1 + S (length post1)).
  { rewrite E1 at 1. rewrite length_app. reflexivity. }
  assert (Hlen2 : length text = length pre2 + S (length post2)).
  { rewrite E2 at 1. rewrite length_app. reflexivity. }
  replace (Z.of_nat (length pre1) <? 0)%Z with false
    by (symmetry; apply Z.ltb_ge; lia).
  replace (Z.of_nat (length pre2) + 1 <? 0)%Z with false
    by (symmetry; apply Z.ltb_ge; lia).
  rewrite !Z.min_l by lia. rewrite Nat2Z.id.
  destruct (Nat.lt_trichotomy (length pre1) (length pre2)) as [Hlt|[Heq|Hgt]].
  - left. pose proof E2 as E. rewrite E1 in E.
    destruct (app_split_lt _ _ _ _ _ _ E Hlt) as (mid & Hp2 & Hp1).
    exists pre1, mid, post2. subst post1.
    split; [exact E1|]. split; [exact Hpre1|]. split; [exact Hpost2|].
    rewrite E1 at 1. rewrite skipn_app, Nat.sub_diag, skipn_all. simpl.
    replace (Z.to_nat (Z.of_nat (length pre2) + 1 - Z.of_nat (length pre1)))
      with (S (length mid + 1)).
    2:{ rewrite Hp2, length_app. simpl. lia. }
    cbn [firstn]. f_equal.
    change (chr "}" :: post2) with ([chr "}"] ++ post2).
    rewrite app_assoc, firstn_app, length_app. simpl length.
    rewrite Nat.sub_diag, firstn_all2 by (rewrite length_app; simpl; lia).
    simpl. now rewrite app_nil_r.
  - exfalso. pose proof E2 as E. rewrite E1 in E.
    apply (f_equal (fun l => nth_error l (length pre1))) in E.
    rewrite nth_error_app2, Nat.sub_diag in E by lia.
    rewrite Heq, nth_error_app2, Nat.sub_diag in E by lia.
    simpl in E. discriminate E.
  - right. pose proof E1 as E. rewrite E2 in E.
    destruct (app_split_lt _ _ _ _ _ _ E Hgt) as (mid & Hp1 & Hp2).
    exists pre2, mid, post1. subst pre1 post2.
    split; [exact E2|]. split; [exact Hpre1|]. split; [exact Hpost2|].
    replace (Z.to_nat (Z.of_nat (length pre2) + 1
                       - Z.of_nat (length (pre2 ++ chr "}" :: mid))))
      with 0 by (rewrite length_app; simpl; lia).
    reflexivity.
Qed.

Lemma json_block_shape_witness :
  (exists mid, json_block braces_text = chr "{" :: mid ++ [chr "}"]) /\
  json_block (u "} 5 EUR {") = [].
Proof.
  split.
  - destruct (json_block_shape braces_text eq_refl)
      as [(pre & mid & post & _ & _ & _ & E)
         |(pre & mid & post & _ & _ & _ & E)].
    + exists mid. exact E.
    + vm_compute in E. discriminate E.
  - destruct (json_block_shape (u "} 5 EUR {") eq_refl)
      as [(pre & mid & post & _ & _ & _ & E)
         |(pre & mid & post & _ & _ & _ & E)].
    + vm_compute in E. destruct mid; discriminate E.
    + exact E.
Defined.

Lemma validate_needs_str_recipient `{Unicode} (t : TransactionData) :
  is_str (recipient t) = false ->
  validate_transaction t = Raise AttributeError.
Proof.
  intros Hstr. unfold validate_transaction. unfold has_key at 1. unfold item.
  destruct (bounds_parallel (currency t))
    as [(limit & minimum & -> & -> & _)|[-> _]]; cbn [bind];
    destruct (recipient t); try discriminate Hstr; reflexivity.
Qed.

Section BracesFacts.
Context `{Unicode} `{Library}.

(** X20: a text with both braces never reaches the patterns.  In pattern
    mode, when the decoder rejects the block, or when the decoded object
    lacks one of amount, currency and recipient, the result is the failed
    one with the [ValueError] of [parse], whatever amounts the text holds.
    A decoded amount that is null makes [parse] raise [TypeError], not
    the [ValueError] it documents; [process_transaction] contains that
    too.  And of a decoded object with a float amount and a string
    currency [parse] builds a record, upper-casing the currency and
    taking the recipient as it comes: a recipient that is not a string
    fails later, in the validator, with [AttributeError]. *)
Theorem braces_bypass_patterns (p : TransactionProcessor) (text : str) :
  llm p = None ->
  has_json_block text = true ->
  (forall e,
      json_loads (json_block text) = Raise e ->
      e = JSONDecodeError \/ (exists msg, e = ValueError msg)
      \/ e = KeyError ->
      process_transaction p text
      = failed (ValueError (parse_failed_msg text))) /\
  (forall d,
      json_loads (json_block text) = Ok d ->
      (has_key (u "amount") d && has_key (u "currency") d
       && has_key (u "recipient") d = false ->
       process_transaction p text
       = failed (ValueError (parse_failed_msg text))) /\
      (forall c r,
          lookup (u "amount") d = Some PNone ->
          lookup (u "currency") d = Some c ->
          lookup (u "recipient") d = Some r ->
          parse text = Raise TypeError /\
          process_transaction p text = failed TypeError) /\
      (forall a c r,
          lookup (u "amount") d = Some (PFloat a) ->
          lookup (u "currency") d = Some (PStr c) ->
          lookup (u "recipient") d = Some r ->
          parse text =
            Ok {| amount := a; currency := str_upper c; recipient := r;
                  account_number := dict_get (u "account_number") d;
                  iban := dict_get (u "iban") d;
                  description := dict_get (u "description") d |} /\
          (is_str r = false ->
           process_transaction p text = failed AttributeError))).
Proof.
  intros Hllm Hj.
  assert (Hfail : forall e, parse text = Raise e ->
                            process_transaction p text = failed e).
  { intros e He. apply process_transaction_failure. unfold extract.
    now rewrite Hllm. }
  assert (Hbody : parse_body text =
            (data <- json_loads (json_block text) ;;
             if negb (has_key (u "amount") data)
                || negb (has_key (u "currency") data)
                || negb (has_key (u "recipient") data)
             then Raise (ValueError missing_fields_msg)
             else
               a <- item (u "amount") data ;;
               a <- py_float a ;;
               c <- item (u "currency") data ;;
               c <- py_upper c ;;
               r <- item (u "recipient") data ;;
               Ok {| amount := a; currency := c; recipient := r;
                     account_number := dict_get (u "account_number") data;
                     iban := dict_get (u "iban") data;
                     description := dict_get (u "description") data |})).
  { unfold parse_body. now rewrite Hj. }
  split.
  - intros e He Hcaught. apply Hfail. unfold parse. rewrite Hbody, He.
    cbn [bind]. destruct Hcaught as [->|[(msg & ->)| ->]]; reflexivity.
  - intros d Hd. split; [|split].
    + intros Hmiss. apply Hfail. unfold parse. rewrite Hbody, Hd.
      cbn [bind].
      destruct (has_key (u "amount") d), (has_key (u "currency") d),
        (has_key (u "recipient") d); try discriminate Hmiss; reflexivity.
    + intros c r Ha Hc Hr.
      assert (Hp : parse text = Raise TypeError).
      { unfold parse. rewrite Hbody, Hd. cbn [bind].
        unfold has_key, item. rewrite Ha, Hc, Hr. reflexivity. }
      split; [exact Hp|now apply Hfail].
    + intros a c r Ha Hc Hr.
      assert (Hp : parse text =
                Ok {| amount := a; currency := str_upper c; recipient := r;
                      account_number := dict_get (u "account_number") d;
                      iban := dict_get (u "iban") d;
                      description := dict_get (u "description") d |}).
      { unfold parse. rewrite Hbody, Hd. cbn [bind].
        unfold has_key, item. rewrite Ha, Hc, Hr. reflexivity. }
      split; [exact Hp|]. intros Hstr.
      unfold process_transaction, extract. rewrite Hllm, Hp. cbn [bind].
      now rewrite validate_needs_str_recipient.
Qed.

End BracesFacts.

Lemma braces_bypass_patterns_witness :
  process_transaction regex_mode braces_text
  = failed (ValueError (parse_failed_msg braces_text)) /\
  @process_transaction basic_unicode (canned_library null_amount_object)
    regex_mode braces_text
  = failed TypeError.
Proof.
  split.
  - destruct (@braces_bypass_patterns basic_unicode no_library regex_mode
                braces_text eq_refl eq_refl) as (Hreject & _).
    apply (Hreject JSONDecodeError); [reflexivity|now left].
  - destruct (@braces_bypass_patterns basic_unicode
                (canned_library null_amount_object) regex_mode
                braces_text eq_refl eq_refl) as (_ & Hobject).
    destruct (Hobject null_amount_object eq_refl) as (_ & Hnull & _).
    apply (Hnull (PStr (u "EUR")) (PStr (u "Bob"))); reflexivity.
Defined.

(** The patterns would have found an amount in that text. *)
Example braces_text_has_an_amount :
  option_map (dict_get (u "amount"))
    (match _extract_with_regex braces_text with
     | Ok d => Some d
     | Raise _ => None
     end)
  = Some (PFloat (Finite 5)).
Proof. vm_compute. reflexivity. Qed.

(** ** Amounts that are not numbers *)

Section NanFacts.
Context `{Unicode}.

(** X21: an amount that is not a number passes every amount rule.  Both
    comparisons with the bounds are false on NaN, and so is the one of
    the advisory: the verdict has no bound error and no large-amount
    advisory, whatever the currency, and the record is valid as soon as
    its recipient is.  (The pattern path never produces NaN; a decoded
    JSON object can.) *)
Theorem nan_amount_passes (t : TransactionData) (v : Verdict) :
  amount t = NaN ->
  validate_transaction t = Ok v ->
  existsb is_exceeds_limit (errors v) = false /\
  existsb is_below_minimum (errors v) = false /\
  ~ In LargeTransfer (warnings v) /\
  ~ In LargeForeignTransfer (warnings v) /\
  (forall r, recipient t = PStr r ->
             is_valid v = negb (mentions_blocked r) && (2 <=? length r)).
Proof.
  intros Hnan Hv. destruct (verdict_of_rules _ _ Hv) as (r & Hr & ->).
  cbn [errors warnings is_valid].
  assert (Hbound : bound_errors (amount t) (currency t) = []).
  { unfold bound_errors. rewrite Hnan.
    destruct (lookup (currency t) max_amounts); [|reflexivity].
    destruct (lookup (currency t) min_amounts); reflexivity. }
  assert (Hadv : advisory_warnings (amount t) (currency t) = []).
  { unfold advisory_warnings. rewrite Hnan. cbn [float_gt].
    now rewrite !andb_false_r. }
  assert (Hno : forall w, In w (rule_warnings t r) ->
                          w <> LargeTransfer /\ w <> LargeForeignTransfer).
  { intros w Hin. apply in_rule_warnings in Hin as [Hin|[Hin|[Hin|[Hin|Hin]]]].
    - apply in_currency_warnings in Hin as [-> _]. split; discriminate.
    - apply in_length_warnings in Hin as [-> _]. split; discriminate.
    - apply in_iban_warnings in Hin as [-> _]. split; discriminate.
    - apply in_account_warnings in Hin as [-> _]. split; discriminate.
    - rewrite Hadv in Hin. contradiction. }
  unfold rule_errors. rewrite Hbound. cbn [app].
  unfold blocked_errors, length_errors.
  split; [|split; [|split; [|split]]].
  - destruct (mentions_blocked r), (length r <? 2); reflexivity.
  - destruct (mentions_blocked r), (length r <? 2); reflexivity.
  - intros Hin. now destruct (Hno _ Hin).
  - intros Hin. now destruct (Hno _ Hin).
  - intros r' Hr'. assert (r' = r) as -> by congruence.
    destruct (mentions_blocked r); [reflexivity|].
    destruct (length r) as [|[|n]]; reflexivity.
Qed.

End NanFacts.

Lemma nan_amount_passes_witness :
  exists t v,
    @parse basic_unicode (canned_library nan_amount_object) braces_text
    = Ok t /\
    validate_transaction t = Ok v /\ amount t = NaN /\ is_valid v = true.
Proof.
  do 2 eexists. split; [vm_compute; reflexivity|].
  split; [vm_compute; reflexivity|]. split; [reflexivity|].
  match goal with
  | |- is_valid ?v = true =>
      destruct (@nan_amount_passes basic_unicode (transaction v) v eq_refl
                  eq_refl) as (_ & _ & _ & _ & Hvalid)
  end.
  rewrite (Hvalid (u "Bob") eq_refl). vm_compute. reflexivity.
Defined.

(** ** The alphabet of the extracted texts *)

(** A successful search of a pattern with its group before a tail without
    group: [group(1)] is a word of the group's pattern. *)
Lemma search_group_inner (r1 r2 g r3 : regex) (text : str) (m : rmatch) :
  has_group r3 = false ->
  search (Cat r1 (Cat r2 (Cat (Grp g) r3))) text = Some m ->
  exists w, group1 m = Some w /\ lang g w.
Proof.
  intros Hng Hs. apply search_from_sound in Hs as (pre & s0 & -> & Hrun).
  change (run (Cat r1 (Cat r2 (Cat (Grp g) r3))) ?k ?st)
    with (run r1 (run r2 (run (Grp g) (run r3 k))) st) in Hrun.
  destruct (run_sound _ _ _ _ _ Hrun) as (w1 & st1 & _ & _ & _ & Hk1 & _).
  destruct (run_sound _ _ _ _ _ Hk1) as (w2 & st2 & _ & _ & _ & Hk2 & _).
  apply run_group_sound in Hk2 as (w & st3 & _ & _ & Hl & Hg & Hk3).
  destruct (run_sound _ _ _ _ _ Hk3) as (w4 & st4 & _ & _ & _ & Hk4 & Hg4 & _).
  unfold finish in Hk4. injection Hk4 as <-. simpl.
  rewrite (Hg4 Hng). eauto.
Qed.

(** The characters of a substitution come from the text or from the
    replacement. *)
Lemma sub_from_forallb (r : regex) (repl : str) (p : cp -> bool) (s : str) :
  forallb p repl = true ->
  forallb p s = true ->
  forall skip i, forallb p (sub_from r repl skip i s) = true.
Proof.
  intros Hrepl. induction s as [|c s IH]; intros Hs skip i.
  - destruct skip; cbn [sub_from]; [|reflexivity].
    destruct (run r (finish i) (MState i [] None)); [|reflexivity].
    now rewrite app_nil_r.
  - simpl in Hs. apply andb_prop in Hs as [Hc Hs].
    destruct skip as [|skip]; cbn [sub_from]; [|now apply IH].
    destruct (run r (finish i) (MState i (c :: s) None)) as [m|].
    + rewrite forallb_app, Hrepl. cbn [andb].
      destruct (m_end m - i); [|now apply IH].
      simpl. rewrite Hc. now apply IH.
    + simpl. rewrite Hc. now apply IH.
Qed.

Lemma lstrip_forallb (q p : cp -> bool) (s : str) :
  forallb p s = true -> forallb p (lstrip q s) = true.
Proof.
  induction s as [|c s IH]; [reflexivity|]. intros Hs. cbn [lstrip].
  destruct (q c); [|exact Hs].
  simpl in Hs. apply andb_prop in Hs as [_ Hs]. auto.
Qed.

Lemma forallb_rev (p : cp -> bool) (s : str) :
  forallb p s = true -> forallb p (rev s) = true.
Proof.
  rewrite !forallb_forall. intros Hs c Hc. apply Hs. now apply in_rev.
Qed.

Lemma strip_forallb (q p : cp -> bool) (s : str) :
  forallb p s = true -> forallb p (strip q s) = true.
Proof.
  intros Hs. unfold strip, rstrip.
  apply forallb_rev, lstrip_forallb, forallb_rev, lstrip_forallb, Hs.
Qed.

Section AlphabetFacts.
Context `{Unicode} `{Library}.

(** X22: the alphabet of the two free-text fields of the extractor.
    The recipient is the sentinel for an unknown recipient, when the
    recipient pattern is not found, or a text all of whose characters
    belong to the class of the pattern's group, Cyrillic and Latin
    letters and white space under case-insensitive matching: the cleaning
    steps add nothing but single spaces, and a name is cut at its first
    character outside the class.  The description, when there is one,
    contains no comma and no line feed: it is cut at the first comma. *)
Theorem extracted_text_alphabet (text : str) (d : dict) :
  _extract_with_regex text = Ok d ->
  (exists r,
      dict_get (u "recipient") d = PStr r /\
      (search recipient_pattern text = None /\ r = unknown_recipient \/
       forallb name_char r = true)) /\
  (dict_get (u "description") d = PNone \/
   exists s,
     dict_get (u "description") d = PStr s /\
     forallb not_comma_or_newline s = true).
Proof.
  unfold _extract_with_regex. intros Hex.
  apply bind_ok in Hex as (f1 & _ & Hex).
  apply bind_ok in Hex as (f2 & _ & Hex).
  destruct f2 as [[a c]|]; [|discriminate].
  apply bind_ok in Hex as (r & Hr & Hex).
  apply bind_ok in Hex as (desc & Hdesc & Hex).
  injection Hex as <-.
  change (dict_get (u "recipient") _)
    with (PStr (strip (one_of (u ".,!?;:"))
                  (sub (Rep true is_space 1 None) (u " ") r))).
  change (dict_get (u "description") _) with desc.
  split.
  - eexists. split; [reflexivity|].
    destruct (search recipient_pattern text) as [m|] eqn:Hs.
    + right.
      pose proof Hs as Hs'. unfold recipient_pattern in Hs'.
      apply search_group_inner in Hs' as (w & Hg & Hw & _); [|reflexivity].
      unfold group in Hr. rewrite Hg in Hr. cbn [py_strip] in Hr.
      injection Hr as <-.
      apply strip_forallb. unfold sub. apply sub_from_forallb.
      * change (u " ") with [32%N]. cbn [forallb]. unfold name_char.
        change (is_space 32) with true. now rewrite orb_true_r.
      * now apply strip_forallb.
    + left. injection Hr as <-. split; [reflexivity|].
      apply unknown_recipient_clean.
  - destruct (search description_pattern text) as [m|] eqn:Hs.
    + right.
      pose proof Hs as Hs'. unfold description_pattern in Hs'.
      apply search_group_last in Hs' as (w & Hg & Hw & _).
      unfold group in Hdesc. rewrite Hg in Hdesc. cbn [py_strip bind] in Hdesc.
      injection Hdesc as <-. eexists. split; [reflexivity|].
      now apply strip_forallb.
    + left. now injection Hdesc as <-.
Qed.

End AlphabetFacts.

Lemma extracted_text_alphabet_witness :
  exists r,
    option_map (dict_get (u "recipient"))
      (match _extract_with_regex account_text with
       | Ok d => Some d
       | Raise _ => None
       end) = Some (PStr r) /\
    forallb name_char r = true.
Proof.
  destruct (_extract_with_regex account_text) as [d|e] eqn:Hex;
    [|vm_compute in Hex; discriminate Hex].
  destruct (@extracted_text_alphabet basic_unicode no_library account_text d
              Hex) as ((r & Hr & [[Hnone _]|Hletters]) & _).
  - vm_compute in Hnone. discriminate Hnone.
  - exists r. simpl. rewrite Hr. split; [reflexivity|exact Hletters].
Defined.
